(** * Pump-detector core: scorer, signal engine, levels calculator, trade monitor

    A shallow embedding of the Python sources
    ([utils/helpers.py], [core/scorer.py], [core/signals.py],
    [core/levels.py], [core/database.py], [core/scanner.py]) and the
    properties proved about them.

    Numbers.  Python floats are modelled by exact rationals [Q]; equality of
    numbers is [Qeq] ([==]).  [round(x, n)] is modelled on the exact value
    (round half to even at the n-th decimal), divisions that can raise
    [ZeroDivisionError] are written with the fallible [pydiv].  What
    [piecewise_lerp] returns depends on the rounding of each operation, so
    the function itself is modelled on binary64 numbers (primitive floats)
    in [HelpersFloat].

    Containers.  Python dicts whose iteration order is observable (the data
    bundle, the bucket tables of the order-book helpers) are association
    lists in insertion order; the [active_trades] table, which SQLite keys
    by a UNIQUE symbol, is a [gmap string Trade]. *)

From stdpp Require Import gmap strings.
From Stdlib Require Import QArith Qround Qminmax Qabs Lqa Lia List Bool.
From Stdlib Require Floats.
Import ListNotations.

Open Scope Q_scope.

(** ** Python exceptions as an error monad *)

Inductive PyError : Type :=
| ZeroDivisionError
| IndexError
| ValueError
| TypeError.

Inductive Exc (A : Type) : Type :=
| Ok (a : A)
| Raise (e : PyError).
Arguments Ok {A} a.
Arguments Raise {A} e.

Definition ebind {A B : Type} (m : Exc A) (k : A -> Exc B) : Exc B :=
  match m with
  | Ok a => k a
  | Raise e => Raise e
  end.

Notation "'let*' x ':=' m 'in' k" := (ebind m (fun x => k))
  (at level 10, x pattern, m at level 100, k at level 200).

(** [a / b] on floats: raises on a zero divisor. *)
Definition pydiv (a b : Q) : Exc Q :=
  if Qeq_bool b 0 then Raise ZeroDivisionError else Ok (a / b).

(** Truthiness of an optional number: [None] and [0] are falsy. *)
Definition truthy (o : option Q) : bool :=
  match o with
  | Some v => negb (Qeq_bool v 0)
  | None => false
  end.


Definition Qlt_bool (a b : Q) : bool := negb (Qle_bool b a).

(** [int(x)] on a float: truncation toward zero. *)
Definition py_int (x : Q) : Z :=
  if Qle_bool 0 x then Qfloor x else Qceiling x.

(** ** utils/helpers.py *)

Module Helpers.

Definition CRITICAL_THRESHOLD : Q := 78.
Definition HIGH_ALERT_THRESHOLD : Q := 62.
Definition WATCHLIST_THRESHOLD : Q := 48.
Definition MONITOR_THRESHOLD : Q := 33.

Inductive Classification : Type :=
| NONE | MONITOR | WATCHLIST | HIGH_ALERT | CRITICAL.

Definition classify_score (score : Q) : Classification :=
  if Qle_bool CRITICAL_THRESHOLD score then CRITICAL
  else if Qle_bool HIGH_ALERT_THRESHOLD score then HIGH_ALERT
  else if Qle_bool WATCHLIST_THRESHOLD score then WATCHLIST
  else if Qle_bool MONITOR_THRESHOLD score then MONITOR
  else NONE.

(** Weights sum to exactly 1.00 *)
Definition SIGNAL_WEIGHTS : list (string * Q) :=
  [ ("oi_surge", 18 # 100);
    ("funding_rate", 17 # 100);
    ("liquidation_leverage", 15 # 100);
    ("cross_exchange_volume", 12 # 100);
    ("depth_imbalance", 11 # 100);
    ("volume_price_decouple", 8 # 100);
    ("volatility_compression", 8 # 100);
    ("long_short_ratio", 6 # 100);
    ("futures_spot_divergence", 5 # 100) ]%string.

Record InteractionBonus : Type := {
  ib_name : string;
  ib_signals : list string;
  ib_min_score : Q;
  ib_bonus : Q;
}.

Definition INTERACTION_BONUSES : list InteractionBonus :=
  [ {| ib_name := "squeeze_setup";
       ib_signals := ["oi_surge"; "funding_rate"; "volatility_compression"];
       ib_min_score := 45; ib_bonus := 25 # 100 |};
    {| ib_name := "cascade_setup";
       ib_signals := ["liquidation_leverage"; "funding_rate"; "long_short_ratio"];
       ib_min_score := 40; ib_bonus := 30 # 100 |};
    {| ib_name := "accumulation_setup";
       ib_signals := ["oi_surge"; "volume_price_decouple"; "cross_exchange_volume"];
       ib_min_score := 40; ib_bonus := 20 # 100 |} ]%string.

Definition EXTENDED_PRICE_PENALTY : Q := 40 # 100.
Definition EXTENDED_PRICE_THRESHOLD_PCT : Q := 15.

Record TrailRung : Type := {
  price_move_pct : Q;
  stop_at_pct : Q;
}.

Definition STOP_LOSS_TRAIL : list TrailRung :=
  [ {| price_move_pct := 5; stop_at_pct := 0 |};
    {| price_move_pct := 10; stop_at_pct := 5 |};
    {| price_move_pct := 15; stop_at_pct := 10 |};
    {| price_move_pct := 25; stop_at_pct := 18 |};
    {| price_move_pct := 40; stop_at_pct := 30 |};
    {| price_move_pct := 60; stop_at_pct := 45 |} ].

Record TakeProfitLevel : Type := {
  level : nat;
  pct : option Q;
  sell_fraction : Q;
}.

Definition TAKE_PROFIT_LEVELS : list TakeProfitLevel :=
  [ {| level := 1; pct := Some 15; sell_fraction := 25 # 100 |};
    {| level := 2; pct := Some 30; sell_fraction := 25 # 100 |};
    {| level := 3; pct := Some 50; sell_fraction := 25 # 100 |};
    {| level := 4; pct := None; sell_fraction := 25 # 100 |} ].

(** Round half to even to the nearest integer. *)
Definition round_half_even (x : Q) : Z :=
  let f := Qfloor x in
  match Qcompare (x - inject_Z f) (1 # 2) with
  | Lt => f
  | Gt => (f + 1)%Z
  | Eq => if Z.even f then f else (f + 1)%Z
  end.

Fixpoint pow10 (n : nat) : positive :=
  match n with
  | O => 1%positive
  | S n' => (10 * pow10 n')%positive
  end.

(** [round(x, n)] for [n] decimals. *)
Definition pyround (x : Q) (n : nat) : Q :=
  Qmake (round_half_even (x * inject_Z (Zpos (pow10 n)))) (pow10 n).


(** [max(min_val, min(max_val, value))] *)
Definition clamp (value min_val max_val : Q) : Q :=
  Qmax min_val (Qmin max_val value).

(** [piecewise_lerp] read in exact arithmetic, for the signal engine below:
    its scores pass through [clamp] and [round], and nothing that is proved
    of them depends on how the interpolated value is rounded.  The function
    on binary64 numbers is [HelpersFloat.piecewise_lerp].

    The [for i in range(len(breakpoints) - 1)] loop of [piecewise_lerp];
    falling off the end is the final [return 0.0]. *)
Fixpoint lerp_loop (value : Q) (breakpoints : list (Q * Q)) : Q :=
  match breakpoints with
  | (x0, y0) :: (((x1, y1) :: _) as rest) =>
      if Qle_bool x0 value && Qle_bool value x1 then
        if Qeq_bool x1 x0 then y0
        else y0 + ((value - x0) / (x1 - x0)) * (y1 - y0)
      else lerp_loop value rest
  | _ => 0
  end.

Definition piecewise_lerp (value : Q) (breakpoints : list (Q * Q)) : Q :=
  match breakpoints with
  | [] => 0
  | (x0, y0) :: _ =>
      if Qle_bool value x0 then y0
      else
        let '(xn, yn) := last breakpoints (x0, y0) in
        if Qle_bool xn value then yn
        else lerp_loop value breakpoints
  end.

End Helpers.

(** ** utils/helpers.py: [piecewise_lerp] on binary64 numbers

    The values and the breakpoint coordinates are binary64 numbers (the
    integer entries of the tables of [signals.py] convert exactly);
    [<=], [==], [-], [/], [*] and [+] are the IEEE 754 operations, rounded
    to nearest even, and [float(...)] is the identity. *)

Module HelpersFloat.
Import Stdlib.Floats.Floats.

(** [a / b] on floats: Python raises for a divisor equal to zero (of either
    sign) and follows IEEE 754 otherwise. *)
Definition pydiv (a b : float) : Exc float :=
  if PrimFloat.eqb b 0 then Raise ZeroDivisionError else Ok (a / b)%float.

(** [t = (value - x0) / (x1 - x0)] and [y0 + t * (y1 - y0)], every
    operation rounded to binary64. *)
Definition segment (value x0 y0 x1 y1 : float) : Exc float :=
  match pydiv (value - x0) (x1 - x0) with
  | Ok t => Ok (y0 + t * (y1 - y0))%float
  | Raise e => Raise e
  end.

(** The [for i in range(len(breakpoints) - 1)] loop; falling off the end is
    the final [return 0.0]. *)
Fixpoint lerp_loop (value : float) (breakpoints : list (float * float)) : Exc float :=
  match breakpoints with
  | (x0, y0) :: (((x1, y1) :: _) as rest) =>
      if PrimFloat.leb x0 value && PrimFloat.leb value x1 then
        if PrimFloat.eqb x1 x0 then Ok y0
        else segment value x0 y0 x1 y1
      else lerp_loop value rest
  | _ => Ok 0%float
  end.

Definition piecewise_lerp (value : float) (breakpoints : list (float * float))
  : Exc float :=
  match breakpoints with
  | [] => Ok 0%float
  | (x0, y0) :: _ =>
      if PrimFloat.leb value x0 then Ok y0
      else
        let '(xn, yn) := last breakpoints (x0, y0) in
        if PrimFloat.leb xn value then Ok yn
        else lerp_loop value breakpoints
  end.

(** The x-coordinates are strictly increasing. *)
Fixpoint xs_increasing (l : list (float * float)) : Prop :=
  match l with
  | p :: ((q :: _) as rest) =>
      PrimFloat.ltb (fst p) (fst q) = true /\ xs_increasing rest
  | _ => True
  end.


End HelpersFloat.

(** Stable insertion sort; [le x y] says that [x] may stand before [y].
    Python's [list.sort] and [sorted] are stable, and so is this one: an
    element is inserted before the first element it may stand before. *)
Fixpoint insert_by {A : Type} (le : A -> A -> bool) (x : A) (l : list A) : list A :=
  match l with
  | [] => [x]
  | y :: l' => if le x y then x :: l else y :: insert_by le x l'
  end.

Fixpoint sort_by {A : Type} (le : A -> A -> bool) (l : list A) : list A :=
  match l with
  | [] => []
  | x :: l' => insert_by le x (sort_by le l')
  end.

(** [d.get(k)] on a dict kept as an association list. *)
Fixpoint assoc_get {V : Type} (k : string) (d : list (string * V)) : option V :=
  match d with
  | [] => None
  | (k', v) :: d' => if String.eqb k k' then Some v else assoc_get k d'
  end.

(** [d[k] = v]: overwrite in place, or append a new key. *)
Fixpoint assoc_set {V : Type} (k : string) (v : V) (d : list (string * V))
  : list (string * V) :=
  match d with
  | [] => [(k, v)]
  | (k', v') :: d' =>
      if String.eqb k k' then (k, v) :: d' else (k', v') :: assoc_set k v d'
  end.

Definition Qsum (l : list Q) : Q := fold_left Qplus l 0.

(** ** core/database.py *)

Module Database.
Import Helpers.

Inductive DataType : Type :=
| DT_ohlcv | DT_ticker | DT_open_interest | DT_funding_rate
| DT_orderbook | DT_long_short_ratio.

Definition DataType_eqb (a b : DataType) : bool :=
  match a, b with
  | DT_ohlcv, DT_ohlcv | DT_ticker, DT_ticker
  | DT_open_interest, DT_open_interest | DT_funding_rate, DT_funding_rate
  | DT_orderbook, DT_orderbook | DT_long_short_ratio, DT_long_short_ratio => true
  | _, _ => false
  end.

(** The JSON payload of a snapshot row, restricted to the keys the core
    reads; [None] is a missing key or a JSON null. *)
Record Payload : Type := {
  p_open_interest : option Q;
  p_funding_rate : option Q;
  p_last : option Q;
  p_quoteVolume : option Q;
  p_volume : option Q;
  p_long_short_ratio : option Q;
}.

Definition empty_payload : Payload :=
  {| p_open_interest := None; p_funding_rate := None; p_last := None;
     p_quoteVolume := None; p_volume := None; p_long_short_ratio := None |}.

(** A row of [snapshots]; [get_snapshots] hands the payload back with
    [_timestamp] and [_exchange] added, which is the row itself here. *)
Record Snapshot : Type := {
  _timestamp : Q;
  s_symbol : string;
  _exchange : string;
  s_data_type : DataType;
  s_data : Payload;
}.

Record SignalRow : Type := {
  sg_timestamp : Q;
  sg_symbol : string;
  sg_signal_name : string;
  sg_raw_value : Q;
  sg_normalized_score : Q;
}.

Record ScoreRow : Type := {
  sc_timestamp : Q;
  sc_symbol : string;
  sc_composite_score : Q;
  sc_classification : Classification;
  sc_signal_scores : list (string * Q);
  sc_bonuses_applied : list string;
  sc_penalties_applied : list Q;
}.

(** A row of [active_trades] without its key column [symbol]; the
    [metadata] JSON text is reduced to the one key the core writes,
    [last_status_hour]. *)
Record Trade : Type := {
  entry_price : Q;
  position_size_usd : Q;
  stop_loss_pct : Q;
  current_stop_price : Q;
  entry_timestamp : Q;
  tp1_hit : bool;
  tp2_hit : bool;
  tp3_hit : bool;
  tp4_hit : bool;
  remaining_fraction : Q;
  realized_pnl : Q;
  last_notified_stop_pct : Q;
  last_score : Q;
  metadata : option Z;
}.

(** A row of [trade_history]; its [realized_pnl] column receives
    [total_pnl]. *)
Record HistoryRow : Type := {
  h_symbol : string;
  h_entry_price : Q;
  h_exit_price : Q;
  h_position_size_usd : Q;
  h_realized_pnl : Q;
  h_entry_timestamp : Q;
  h_exit_timestamp : Q;
  h_duration_hours : Q;
  h_max_gain_pct : Q;
  h_exit_reason : string;
  h_metadata : option Z;
}.

Record DB : Type := {
  snapshots : list Snapshot;
  signal_history : list SignalRow;
  score_history : list ScoreRow;
  active_trades : gmap string Trade;
  trade_history : list HistoryRow;
}.

Definition empty_db : DB :=
  {| snapshots := []; signal_history := []; score_history := [];
     active_trades := ∅; trade_history := [] |}.

(** [SELECT ... WHERE symbol=? AND data_type=? AND timestamp>? ORDER BY
    timestamp ASC] (the core never passes [exchange]). *)
Definition get_snapshots (db : DB) (now : Q) (symbol : string)
           (data_type : DataType) (hours_back : Q) : list Snapshot :=
  let cutoff := now - hours_back * 3600 in
  sort_by (fun a b => Qle_bool (_timestamp a) (_timestamp b))
    (filter (fun r => String.eqb (s_symbol r) symbol
                      && DataType_eqb (s_data_type r) data_type
                      && Qlt_bool cutoff (_timestamp r))
            (snapshots db)).


Definition store_score (db : DB) (now : Q) (symbol : string)
           (composite_score : Q) (classification : Classification)
           (signal_scores : list (string * Q)) (bonuses : list string)
           (penalties : list Q) : DB :=
  {| snapshots := snapshots db;
     signal_history := signal_history db;
     score_history := score_history db ++
       [{| sc_timestamp := now; sc_symbol := symbol;
           sc_composite_score := composite_score;
           sc_classification := classification;
           sc_signal_scores := signal_scores;
           sc_bonuses_applied := bonuses;
           sc_penalties_applied := penalties |}];
     active_trades := active_trades db;
     trade_history := trade_history db |}.

(** [SELECT * FROM score_history WHERE symbol=? ORDER BY timestamp DESC] *)
Definition scores_desc (db : DB) (symbol : string) : list ScoreRow :=
  sort_by (fun a b => Qle_bool (sc_timestamp b) (sc_timestamp a))
    (filter (fun r => String.eqb (sc_symbol r) symbol) (score_history db)).

Definition get_latest_score (db : DB) (symbol : string) : option ScoreRow :=
  match firstn 1 (scores_desc db symbol) with
  | row :: _ => Some row
  | [] => None
  end.

Definition get_previous_score (db : DB) (symbol : string) : option ScoreRow :=
  match firstn 2 (scores_desc db symbol) with
  | _ :: row :: _ => Some row
  | _ => None
  end.

Definition set_trades (db : DB) (t : gmap string Trade) : DB :=
  {| snapshots := snapshots db;
     signal_history := signal_history db;
     score_history := score_history db;
     active_trades := t;
     trade_history := trade_history db |}.

(** [INSERT OR REPLACE INTO active_trades ...]; returns [True]. *)
Definition add_trade (db : DB) (now : Q) (symbol : string)
           (entry_price position_size_usd stop_loss_pct : Q) : DB * bool :=
  let stop_price := entry_price * (1 - stop_loss_pct / 100) in
  (set_trades db
     (<[symbol :=
          {| entry_price := entry_price;
             position_size_usd := position_size_usd;
             stop_loss_pct := stop_loss_pct;
             current_stop_price := stop_price;
             entry_timestamp := now;
             tp1_hit := false; tp2_hit := false;
             tp3_hit := false; tp4_hit := false;
             remaining_fraction := 1;
             realized_pnl := 0;
             last_notified_stop_pct := 0;
             last_score := 0;
             metadata := None |}]> (active_trades db)),
   true).

Definition get_active_trade (db : DB) (symbol : string) : option Trade :=
  active_trades db !! symbol.

(** The columns [update_trade] is called with. *)
Inductive Update : Type :=
| Set_tp_hit (level : nat)
| Set_remaining_fraction (v : Q)
| Set_realized_pnl (v : Q)
| Set_current_stop_price (v : Q)
| Set_last_notified_stop_pct (v : Q)
| Set_last_score (v : Q)
| Set_metadata (v : option Z).

Definition apply_update (t : Trade) (u : Update) : Trade :=
  {| entry_price := entry_price t;
     position_size_usd := position_size_usd t;
     stop_loss_pct := stop_loss_pct t;
     current_stop_price :=
       match u with Set_current_stop_price v => v | _ => current_stop_price t end;
     entry_timestamp := entry_timestamp t;
     tp1_hit := match u with Set_tp_hit 1 => true | _ => tp1_hit t end;
     tp2_hit := match u with Set_tp_hit 2 => true | _ => tp2_hit t end;
     tp3_hit := match u with Set_tp_hit 3 => true | _ => tp3_hit t end;
     tp4_hit := match u with Set_tp_hit 4 => true | _ => tp4_hit t end;
     remaining_fraction :=
       match u with Set_remaining_fraction v => v | _ => remaining_fraction t end;
     realized_pnl :=
       match u with Set_realized_pnl v => v | _ => realized_pnl t end;
     last_notified_stop_pct :=
       match u with
       | Set_last_notified_stop_pct v => v
       | _ => last_notified_stop_pct t
       end;
     last_score := match u with Set_last_score v => v | _ => last_score t end;
     metadata := match u with Set_metadata v => v | _ => metadata t end |}.

(** [UPDATE active_trades SET ... WHERE symbol=?]: nothing happens when no
    row has the symbol. *)
Definition update_trade (db : DB) (symbol : string) (updates : list Update) : DB :=
  set_trades db (alter (fun t => fold_left apply_update updates t) symbol
                       (active_trades db)).

Record CloseResult : Type := {
  r_symbol : string;
  r_entry_price : Q;
  r_exit_price : Q;
  r_position_size_usd : Q;
  r_total_pnl : Q;
  r_total_pnl_pct : Q;
  r_duration_hours : Q;
  r_exit_reason : string;
}.

(** [close_trade]: the database after the call and what the call
    returns or raises.  The two divisions by [entry_price] come before
    the INSERT and the DELETE, the division by [position_size_usd] after
    the commit. *)
Definition close_trade (db : DB) (now : Q) (symbol : string) (exit_price : Q)
           (exit_reason : string) : DB * Exc (option CloseResult) :=
  match get_active_trade db symbol with
  | None => (db, Ok None)
  | Some trade =>
      let duration_hours := (now - entry_timestamp trade) / 3600 in
      match pydiv (remaining_fraction trade * position_size_usd trade
                   * (exit_price - entry_price trade)) (entry_price trade) with
      | Raise e => (db, Raise e)
      | Ok pnl_remaining =>
          let total_pnl := realized_pnl trade + pnl_remaining in
          match pydiv (exit_price - entry_price trade) (entry_price trade) with
          | Raise e => (db, Raise e)
          | Ok g =>
              let max_gain := g * 100 in
              let db' :=
                {| snapshots := snapshots db;
                   signal_history := signal_history db;
                   score_history := score_history db;
                   active_trades := delete symbol (active_trades db);
                   trade_history := trade_history db ++
                     [{| h_symbol := symbol;
                         h_entry_price := entry_price trade;
                         h_exit_price := exit_price;
                         h_position_size_usd := position_size_usd trade;
                         h_realized_pnl := total_pnl;
                         h_entry_timestamp := entry_timestamp trade;
                         h_exit_timestamp := now;
                         h_duration_hours := duration_hours;
                         h_max_gain_pct := max_gain;
                         h_exit_reason := exit_reason;
                         h_metadata := metadata trade |}] |} in
              (db',
               let* pct := pydiv total_pnl (position_size_usd trade) in
               Ok (Some {| r_symbol := symbol;
                           r_entry_price := entry_price trade;
                           r_exit_price := exit_price;
                           r_position_size_usd := position_size_usd trade;
                           r_total_pnl := total_pnl;
                           r_total_pnl_pct := pct * 100;
                           r_duration_hours := duration_hours;
                           r_exit_reason := exit_reason |}))
          end
      end
  end.

End Database.

(** ** core/scorer.py *)

Module Scorer.
Import Helpers Database.

(** A metadata value of a signal result. *)
Inductive MetaVal : Type :=
| MNum (v : Q)
| MInt (n : Z)
| MStr (s : string)
| MList (l : list string)
| MDict (d : list (string * Q)).

(** What a signal function returns:
    [{"raw_value": .., "normalized_score": .., "metadata": {..}}]. *)
Record Signal : Type := {
  raw_value : Q;
  normalized_score : Q;
  sig_metadata : list (string * MetaVal);
}.

Record ScoreResult : Type := {
  composite_score : Q;
  classification : Classification;
  base_score : Q;
  signal_scores : list (string * Q);
  weighted_contributions : list (string * Q);
  bonuses_applied : list string;
  penalties_applied : list Q;
  bonus_total : Q;
  penalty_total : Q;
}.

(** A signals dict that carries the given normalized scores. *)
Definition signals_of_scores (l : list (string * Q)) : list (string * Signal) :=
  map (fun nv => (fst nv, {| raw_value := 0; normalized_score := snd nv;
                             sig_metadata := [] |})) l.

(** [signals.get(name, {}).get("normalized_score", 0)] *)
Definition ns_of (signals : list (string * Signal)) (name : string) : Q :=
  match assoc_get name signals with
  | Some s => normalized_score s
  | None => 0
  end.

(** [signal_scores.get(s, 0)] *)
Definition get0 (d : list (string * Q)) (k : string) : Q :=
  match assoc_get k d with
  | Some v => v
  | None => 0
  end.

(** The first loop of [score]: [(signal_scores, weighted, base)]. *)
Fixpoint weigh (signals : list (string * Signal)) (weights : list (string * Q))
         (acc : list (string * Q) * list (string * Q) * Q)
  : list (string * Q) * list (string * Q) * Q :=
  match weights with
  | [] => acc
  | (name, weight) :: rest =>
      let '(signal_scores, weighted, base) := acc in
      let ns := ns_of signals name in
      let c := ns * weight in
      weigh signals rest
            (assoc_set name (pyround ns 1) signal_scores,
             assoc_set name (pyround c 2) weighted,
             base + c)
  end.

(** The second loop: [(bonuses, bonus_mult)]. *)
Fixpoint add_bonuses (signal_scores : list (string * Q))
         (bs : list InteractionBonus) (acc : list string * Q) : list string * Q :=
  match bs with
  | [] => acc
  | b :: rest =>
      let '(bonuses, bonus_mult) := acc in
      if forallb (fun s => Qle_bool (ib_min_score b) (get0 signal_scores s))
                 (ib_signals b)
      then add_bonuses signal_scores rest
                       (bonuses ++ [ib_name b], bonus_mult + ib_bonus b)
      else add_bonuses signal_scores rest acc
  end.

(** The score before the final rounding: the value that is classified
    and stored. *)
Definition final_score (signals : list (string * Signal)) (price_change_7d : Q) : Q :=
  let '(signal_scores, _, base) := weigh signals SIGNAL_WEIGHTS ([], [], 0) in
  let '(_, bonus_mult) := add_bonuses signal_scores INTERACTION_BONUSES ([], 0) in
  let penalty_mult :=
    if Qlt_bool EXTENDED_PRICE_THRESHOLD_PCT price_change_7d
    then 0 + EXTENDED_PRICE_PENALTY else 0 in
  clamp (base * (1 + bonus_mult) * (1 - penalty_mult)) 0 100.

(** [score]; a penalty label ["extended_<p>%"] is kept as the number it
    prints, [p] rounded to one decimal. *)
Definition score (db : DB) (now : Q) (symbol : string)
           (signals : list (string * Signal)) (price_change_7d : Q)
  : DB * ScoreResult :=
  let '(signal_scores, weighted, base) :=
    weigh signals SIGNAL_WEIGHTS ([], [], 0) in
  let '(bonuses, bonus_mult) :=
    add_bonuses signal_scores INTERACTION_BONUSES ([], 0) in
  let '(penalties, penalty_mult) :=
    if Qlt_bool EXTENDED_PRICE_THRESHOLD_PCT price_change_7d
    then ([pyround price_change_7d 1], 0 + EXTENDED_PRICE_PENALTY)
    else ([], 0) in
  let final := clamp (base * (1 + bonus_mult) * (1 - penalty_mult)) 0 100 in
  let classification := classify_score final in
  (store_score db now symbol final classification signal_scores bonuses penalties,
   {| composite_score := pyround final 1;
      classification := classification;
      base_score := pyround base 1;
      signal_scores := signal_scores;
      weighted_contributions := weighted;
      bonuses_applied := bonuses;
      penalties_applied := penalties;
      bonus_total := pyround (bonus_mult * 100) 1;
      penalty_total := pyround (penalty_mult * 100) 1 |}).

Inductive Event : Type :=
| SCORE_JUMP (symbol : string) (previous_score current_score delta : Q)
| UPGRADE (symbol : string) (from_class to_class : Classification) (score : Q)
| IGNITION (symbol : string) (price_move_pct score : Q).

(** [order.index(c)] *)
Definition rank (c : Classification) : nat :=
  match c with
  | NONE => 0 | MONITOR => 1 | WATCHLIST => 2 | HIGH_ALERT => 3 | CRITICAL => 4
  end.

(** The [for h in hist] loop of [detect_events]: the first snapshot with
    a positive [last] decides, then [break]. *)
Fixpoint ignition_scan (symbol : string) (current_price cs : Q)
         (hist : list Snapshot) : Exc (list Event) :=
  match hist with
  | [] => Ok []
  | h :: rest =>
      match p_last (s_data h) with
      | Some op =>
          if truthy (Some op) && Qlt_bool 0 op then
            let* q := pydiv (current_price - op) op in
            let pm := q * 100 in
            if Qle_bool 5 pm && Qle_bool 48 cs
            then Ok [IGNITION symbol (pyround pm 1) cs]
            else Ok []
          else ignition_scan symbol current_price cs rest
      | None => ignition_scan symbol current_price cs rest
      end
  end.

Definition detect_events (db : DB) (now : Q) (symbol : string)
           (current_score : ScoreResult) (current_price : Q) : Exc (list Event) :=
  match get_previous_score db symbol with
  | None => Ok []
  | Some prev =>
      let ps := sc_composite_score prev in
      let cs := composite_score current_score in
      let pc := sc_classification prev in
      let cc := classification current_score in
      let delta := cs - ps in
      let ev1 :=
        if Qle_bool 15 delta
        then [SCORE_JUMP symbol ps cs (pyround delta 1)] else [] in
      let ev2 :=
        if Nat.ltb (rank pc) (rank cc)
        then [UPGRADE symbol pc cc cs] else [] in
      let hist := get_snapshots db now symbol DT_ticker 6 in
      let* ev3 :=
        (match hist with
         | [] => Ok []
         | _ => if Qlt_bool 0 current_price
                then ignition_scan symbol current_price cs hist
                else Ok []
         end) in
      Ok (ev1 ++ ev2 ++ ev3)
  end.

End Scorer.

(** The composite score in the words of the specification, to be compared
    with [Scorer.score]. *)
Module ScorerSpec.
Import Helpers Scorer.

(** The weight-weighted sum of the signal scores. *)
Definition base (signals : list (string * Signal)) : Q :=
  Qsum (map (fun nw => ns_of signals (fst nw) * snd nw) SIGNAL_WEIGHTS).

(** All listed signals of a bonus meet its minimum score. *)
Definition bonus_applies (score_of : string -> Q) (b : InteractionBonus) : bool :=
  forallb (fun s => Qle_bool (ib_min_score b) (score_of s)) (ib_signals b).

Definition bonus_sum (score_of : string -> Q) : Q :=
  Qsum (map ib_bonus (filter (bonus_applies score_of) INTERACTION_BONUSES)).

(** 0.40 exactly when [price_change_7d] exceeds 15. *)
Definition penalty_sum (price_change_7d : Q) : Q :=
  if Qlt_bool 15 price_change_7d then 40 # 100 else 0.

(** The formula as the specification states it: bonuses decided on the
    normalized scores, no rounding. *)
Definition composite_as_stated (signals : list (string * Signal))
           (price_change_7d : Q) : Q :=
  clamp (base signals * (1 + bonus_sum (ns_of signals))
         * (1 - penalty_sum price_change_7d)) 0 100.

(** The same with the two roundings of the code: bonuses decided on the
    scores rounded to one decimal, the result rounded to one decimal. *)
Definition composite_rounded (signals : list (string * Signal))
           (price_change_7d : Q) : Q :=
  pyround
    (clamp (base signals
            * (1 + bonus_sum (fun s => pyround (ns_of signals s) 1))
            * (1 - penalty_sum price_change_7d)) 0 100) 1.

End ScorerSpec.

(** ** core/levels.py: the stop loss *)

Module Levels.
Import Helpers.

Definition MIN_STOP_PCT : Q := 25 # 10.
Definition MAX_STOP_PCT : Q := 15.

(** An OHLCV row [[ts, open, high, low, close, volume]]. *)
Record Candle : Type := {
  c_ts : Q;
  c_open : Q;
  c_high : Q;
  c_low : Q;
  c_close : Q;
  c_volume : Q;
}.

(** The merged order book: [(price, amount)] levels. *)
Record OrderBook : Type := {
  bids : list (Q * Q);
  asks : list (Q * Q);
}.

(** A bucket [{"ps": .., "v": .., "c": ..}] of the order-book helpers. *)
Record Bucket : Type := {
  b_ps : Q;
  b_v : Q;
  b_c : nat;
}.

(** [buckets[k]["ps"] += ps; buckets[k]["v"] += v; buckets[k]["c"] += 1],
    a new key going to the end of the dict. *)
Fixpoint bucket_add (k : Z) (ps v : Q) (buckets : list (Z * Bucket))
  : list (Z * Bucket) :=
  match buckets with
  | [] => [(k, {| b_ps := 0 + ps; b_v := 0 + v; b_c := 1 |})]
  | (k', b) :: rest =>
      if Z.eqb k k'
      then (k', {| b_ps := b_ps b + ps; b_v := b_v b + v; b_c := S (b_c b) |}) :: rest
      else (k', b) :: bucket_add k ps v rest
  end.

(** [max(xs, key=key)]: the first element with the largest key. *)
Definition pymax_by {A : Type} (key : A -> Q) (x : A) (xs : list A) : A :=
  fold_left (fun best c => if Qlt_bool (key best) (key c) then c else best) xs x.

(** [min(xs)] of a non-empty list. *)
Definition pymin (x : Q) (xs : list Q) : Q :=
  fold_left (fun best c => if Qlt_bool c best then c else best) xs x.

(** The loop of [_bid_cluster]. *)
Fixpoint bid_buckets (bids : list (Q * Q)) (price floor bs : Q)
         (buckets : list (Z * Bucket)) : Exc (list (Z * Bucket)) :=
  match bids with
  | [] => Ok buckets
  | (bp, ba) :: rest =>
      if Qlt_bool bp floor || Qle_bool price bp
      then bid_buckets rest price floor bs buckets
      else
        let* q := pydiv bp bs in
        let k := py_int q in
        let v := bp * ba in
        bid_buckets rest price floor bs (bucket_add k (bp * v) v buckets)
  end.

(** [_bid_cluster]: [{"price": .., "value": ..}] of the bucket with the
    most value, or [None]. *)
Definition _bid_cluster (bids : list (Q * Q)) (price depth_pct : Q)
  : Exc (option (Q * Q)) :=
  let floor := price * (1 - depth_pct / 100) in
  let bs := price * (5 # 1000) in
  let* buckets := bid_buckets bids price floor bs [] in
  match buckets with
  | [] => Ok None
  | kb :: rest =>
      let b := snd (pymax_by (fun kb => b_v (snd kb)) kb rest) in
      let* p := (if Qlt_bool 0 (b_v b) then pydiv (b_ps b) (b_v b) else Ok 0) in
      Ok (Some (p, b_v b))
  end.

Inductive Method : Type := M_atr | M_swing_low | M_support.

(** A candidate [(method, stop, pct)]. *)
Definition Candidate : Type := (Method * Q * Q)%type.
Definition cand_stop (c : Candidate) : Q := snd (fst c).
Definition cand_pct (c : Candidate) : Q := snd c.
Definition cand_method (c : Candidate) : Method := fst (fst c).

(** [((price - stop) / price) * 100] *)
Definition stop_pct (price stop : Q) : Exc Q :=
  let* q := pydiv (price - stop) price in Ok (q * 100).

Definition in_band (p : Q) : bool :=
  Qle_bool MIN_STOP_PCT p && Qle_bool p MAX_STOP_PCT.

(** [candles[-n:]] *)
Definition last_n {A : Type} (n : nat) (l : list A) : list A :=
  skipn (length l - n) l.

(** Method 2 of [_calc_stop]: [(swing_stop, swing_pct)] when there are
    at least 12 candles and a positive low among the last 24. *)
Definition swing_low (price : Q) (candles : list Candle) : Exc (option (Q * Q)) :=
  if Nat.leb 12 (length candles) then
    let lookback := Nat.min 24 (length candles) in
    let lows := filter (fun l => Qlt_bool 0 l) (map c_low (last_n lookback candles)) in
    match lows with
    | [] => Ok None
    | l :: ls =>
        let sl := pymin l ls in
        let swing_stop := sl * (995 # 1000) in
        let* swing_pct := stop_pct price swing_stop in
        Ok (Some (swing_stop, swing_pct))
    end
  else Ok None.

(** Method 3: [(ob_stop, ob_pct)] when the book has bids and a cluster. *)
Definition ob_support (price : Q) (ob : OrderBook) : Exc (option (Q * Q)) :=
  match bids ob with
  | [] => Ok None
  | _ =>
      let* sup := _bid_cluster (bids ob) price 10 in
      match sup with
      | None => Ok None
      | Some (sup_price, _) =>
          let ob_stop := sup_price * (997 # 1000) in
          let* ob_pct := stop_pct price ob_stop in
          Ok (Some (ob_stop, ob_pct))
      end
  end.

(** [candidates.append((m, stop, pct))] under the band test of methods 2
    and 3. *)
Definition banded (m : Method) (o : option (Q * Q)) : list Candidate :=
  match o with
  | Some (stop, p) => if in_band p then [(m, stop, p)] else []
  | None => []
  end.

(** [round(x, 8) if x else None] *)
Definition round8_opt (o : option (Q * Q)) : option Q :=
  match o with
  | Some (stop, _) => if Qeq_bool stop 0 then None else Some (pyround stop 8)
  | None => None
  end.

Record StopResult : Type := {
  st_price : Q;
  st_pct : Q;
  st_method : Method;
  st_methods_considered : list Method;
  st_atr_distance : Q;
  st_swing_low_stop : option Q;
  st_ob_support_stop : option Q;
  st_atr_stop : Q;
}.

(** The test of the list comprehension [valid]:
    [price - s >= min_dist and p >= self.MIN_STOP_PCT]. *)
Definition far_enough (price min_dist : Q) (c : Candidate) : bool :=
  Qle_bool min_dist (price - cand_stop c) && Qle_bool MIN_STOP_PCT (cand_pct c).

(** [_calc_stop] up to the clamp: the candidate picked and the clamped
    stop [fp], with the ATR stop and the two optional stops. *)
Definition pick_stop (price atr : Q) (candles : list Candle) (ob : OrderBook)
           (score : Q)
  : Exc (Candidate * Q * list Candidate * Q * option (Q * Q) * option (Q * Q)) :=
  (* Method 1: ATR *)
  let mult := if Qle_bool 78 score then 15 # 10
              else if Qle_bool 62 score then 2 else 25 # 10 in
  let atr_stop := price - atr * mult in
  let* atr_pct_val := stop_pct price atr_stop in
  let atr_c : Candidate := (M_atr, atr_stop, atr_pct_val) in
  (* Method 2: Swing low *)
  let* swing := swing_low price candles in
  (* Method 3: Orderbook support *)
  let* sup := ob_support price ob in
  let candidates := atr_c :: banded M_swing_low swing ++ banded M_support sup in
  (* Pick best: tightest that is at least 1x ATR away *)
  let min_dist := atr * 1 in
  let valid := filter (far_enough price min_dist) candidates in
  let best :=
    match valid with
    | c :: cs => pymax_by cand_stop c cs
    | [] => atr_c
    end in
  (* Clamp *)
  let fp := Qmax (price * (1 - MAX_STOP_PCT / 100))
                 (Qmin (price * (1 - MIN_STOP_PCT / 100)) (cand_stop best)) in
  Ok (best, fp, candidates, atr_stop, swing, sup).

(** [atr_pct] and [cl] are parameters the body never reads. *)
Definition _calc_stop (price atr atr_pct : Q) (candles : list Candle)
           (ob : OrderBook) (score : Q) (cl : Classification) : Exc StopResult :=
  let* (best, fp, candidates, atr_stop, swing, sup) :=
    pick_stop price atr candles ob score in
  let* fpct := stop_pct price fp in
  let* dist := (if Qlt_bool 0 atr
                then let* d := pydiv (price - fp) atr in Ok (pyround d 1)
                else Ok 0) in
  Ok {| st_price := pyround fp 8;
        st_pct := pyround fpct 2;
        st_method := cand_method best;
        st_methods_considered := map cand_method candidates;
        st_atr_distance := dist;
        st_swing_low_stop := round8_opt swing;
        st_ob_support_stop := round8_opt sup;
        st_atr_stop := pyround atr_stop 8 |}.

End Levels.

(** The stop selection in the words of the specification, to be compared
    with [Levels.pick_stop]. *)
Module LevelsSpec.
Import Helpers Levels.

(** A candidate is valid when it is at least 1 x ATR below the price and
    its stop percentage lies within the band [2.5, 15]. *)
Definition valid (price atr : Q) (c : Candidate) : bool :=
  Qle_bool atr (price - cand_stop c)
  && Qle_bool MIN_STOP_PCT (cand_pct c) && Qle_bool (cand_pct c) MAX_STOP_PCT.

Definition as_candidate (m : Method) (o : option (Q * Q)) : list Candidate :=
  match o with
  | Some (stop, p) => [(m, stop, p)]
  | None => []
  end.

(** Among the valid candidates the tightest one (maximum stop price); the
    ATR stop when none is valid. *)
Definition choose (price atr : Q) (atr_c : Candidate)
           (swing sup : option (Q * Q)) : Candidate :=
  match filter (valid price atr)
               (atr_c :: as_candidate M_swing_low swing ++ as_candidate M_support sup) with
  | c :: cs => pymax_by cand_stop c cs
  | [] => atr_c
  end.

(** The percentage a candidate carries is the one of its stop. *)
Definition pct_consistent (price : Q) (c : Candidate) : Prop :=
  cand_pct c = (price - cand_stop c) / price * 100.

Definition pct_of (price : Q) (o : option (Q * Q)) : Prop :=
  match o with
  | Some (stop, p) => p = (price - stop) / price * 100
  | None => True
  end.

(** The distance of a stop from the price, in percent of the price, lies
    within the band. *)
Definition within_band (price stop : Q) : Prop :=
  MIN_STOP_PCT <= (price - stop) / price * 100 /\
  (price - stop) / price * 100 <= MAX_STOP_PCT.

End LevelsSpec.

(** ** core/signals.py *)



(** [np.mean]; numpy answers nan with a warning on an empty list, which
    counts as an error here. *)
Definition np_mean (l : list Q) : Exc Q :=
  pydiv (Qsum l) (inject_Z (Z.of_nat (length l))).




(** [for x in l: ...] with a body that may raise. *)
Fixpoint emap {A B : Type} (f : A -> Exc B) (l : list A) : Exc (list B) :=
  match l with
  | [] => Ok []
  | x :: l' => let* y := f x in let* ys := emap f l' in Ok (y :: ys)
  end.

Module Signals.
Import Helpers Database Scorer Levels.

(** A ticker dict, restricted to the keys the signals read. *)
Record Ticker : Type := {
  last : option Q;
  quoteVolume : option Q;
  volume : option Q;
}.

(** The bundle [collect_all] returns: dicts keyed by exchange, in
    insertion order. *)
Record DataBundle : Type := {
  ohlcv : list (string * list Candle);
  tickers : list (string * Ticker);
  open_interest : list (string * Q);
  funding_rates : list (string * Q);
  orderbooks : list (string * OrderBook);
  long_short_ratios : list (string * Q);
}.



(** [v and v > 0] *)
Definition positive (v : Q) : bool := negb (Qeq_bool v 0) && Qlt_bool 0 v.

























Section Numpy.
(** [np.std] is a square root; the signal reads it through comparisons
    only, and any function stands for it. *)
Variable np_std : list Q -> Q.



End Numpy.






End Signals.

(** ** core/signals.py: when a signal goes without data

    Each signal function decides for itself that its data are insufficient.
    [insufficient] lists these decisions as conditions on the bundle and on
    the stored history, with the reason the function then reports.  Three
    more reasons stand in the source ("zero hist OI", "zero avg" and "zero
    median"); they guard divisions by a sum, a mean or a median of positive
    numbers, and no input reaches them. *)

Module SignalsSpec.
Import Helpers Database Scorer Levels Signals.













Section Insufficient.
Variables (db : DB) (now : Q) (symbol : string) (data : DataBundle).





End Insufficient.

End SignalsSpec.

(** ** core/scanner.py *)

Module Scanner.
Import Helpers Database Scorer.

(** What [_scan_token] returns for a token, as far as alert dispatch
    reads it: the score result with [symbol], [current_price] and
    [events] added. *)
Record ScanResult : Type := {
  sr_symbol : string;
  sr_score : ScoreResult;
  sr_current_price : Q;
  sr_events : list Event;
}.

(** The calls the scanner makes on an alert handler. *)
Inductive Alert : Type :=
| send_signal_alert (r : ScanResult)
| send_event (e : Event)
| send_trade_registered (sym : string) (ep ps sl : Q)
| send_trade_closed (r : CloseResult) (label : string)
| send_tp_hit (sym : string) (tp_level : nat)
              (tp_pct current_price entry_price pnl_chunk remaining_pct : Q)
| send_stop_update (sym : string)
                   (new_stop_price new_stop_pct current_price entry_price : Q)
| send_signal_degradation (sym : string)
                          (old_score new_score current_price entry_price
                           price_change_pct : Q)
| send_trade_status (sym : string)
                    (entry_price current_price price_change_pct unrealized_pnl
                     realized_pnl remaining_pct current_stop hours_in score : Q).

(** The scanner's surroundings during one call: the registered handlers
    (by index), the configured threshold, the clock and what
    [_live_price] obtains from the exchanges. *)
Record Env : Type := {
  alert_handlers : list nat;
  alert_threshold : Q;
  now : Q;
  _live_price : string -> option Q;
}.

(** The database together with the log of handler calls. *)
Definition State : Type := (DB * list (nat * Alert))%type.

(** [for h in self.alert_handlers: h.<call>] *)
Definition notify (env : Env) (a : Alert) : list (nat * Alert) :=
  map (fun h => (h, a)) (alert_handlers env).

(** [trade.get(f"tp{tl}_hit")] *)
Definition tp_flag (trade : Trade) (tl : nat) : bool :=
  match tl with
  | 1%nat => tp1_hit trade
  | 2%nat => tp2_hit trade
  | 3%nat => tp3_hit trade
  | 4%nat => tp4_hit trade
  | _ => false
  end.

(** The take-profit loop of [_check_trade].  [rem] is the value read
    from the trade at the top of [_check_trade]; the dict [trade] is
    updated as the loop goes, the local [rem] is not. *)
Fixpoint take_profits (env : Env) (sym : string) (ep ps rem cp pcp : Q)
         (tps : list TakeProfitLevel) (st : State) (trade : Trade)
  : State * Trade :=
  match tps with
  | [] => (st, trade)
  | tp :: rest =>
      let tl := level tp in
      match pct tp with
      | None => take_profits env sym ep ps rem cp pcp rest st trade
      | Some tpct =>
          if tp_flag trade tl
          then take_profits env sym ep ps rem cp pcp rest st trade
          else if Qle_bool tpct pcp then
            let sf := sell_fraction tp in
            let chunk := sf * ps * (pcp / 100) in
            let nr := rem - sf in
            let nrp := realized_pnl trade + chunk in
            let db' := update_trade (fst st) sym
                         [Set_tp_hit tl;
                          Set_remaining_fraction (Qmax 0 nr);
                          Set_realized_pnl nrp] in
            let log' := snd st ++
                        notify env (send_tp_hit sym tl tpct cp ep chunk (nr * 100)) in
            let trade' := fold_left apply_update
                            [Set_tp_hit tl;
                             Set_remaining_fraction nr;
                             Set_realized_pnl nrp] trade in
            take_profits env sym ep ps rem cp pcp rest (db', log') trade'
          else take_profits env sym ep ps rem cp pcp rest st trade
      end
  end.

(** The trail loop: [(nsp, ssp)] after the rungs. *)
Fixpoint stop_trail (ep pcp : Q) (rungs : list TrailRung) (acc : Q * Q) : Q * Q :=
  match rungs with
  | [] => acc
  | tr :: rest =>
      let '(nsp, ssp) := acc in
      if Qle_bool (price_move_pct tr) pcp && Qlt_bool nsp (stop_at_pct tr)
      then stop_trail ep pcp rest
                      (stop_at_pct tr, ep * (1 + stop_at_pct tr / 100))
      else stop_trail ep pcp rest acc
  end.

Definition _check_trade (env : Env) (st : State) (sym : string) (trade : Trade)
  : State * Exc unit :=
  let ep := entry_price trade in
  let ps := position_size_usd trade in
  let rem := remaining_fraction trade in
  let cs := current_stop_price trade in
  if Qle_bool rem 0 then
    let '(db', r) := close_trade (fst st) (now env) sym ep "fully_exited" in
    ((db', snd st), let* _ := r in Ok tt)
  else
    match _live_price env sym with
    | None => (st, Ok tt)
    | Some cp =>
        if Qeq_bool cp 0 then (st, Ok tt)
        else
          match pydiv (cp - ep) ep with
          | Raise e => (st, Raise e)
          | Ok q =>
              let pcp := q * 100 in
              let upnl := rem * ps * (pcp / 100) in
              if Qle_bool cp cs then
                (* Stop hit *)
                let '(db', r) := close_trade (fst st) (now env) sym cp "stop_loss" in
                match r with
                | Raise e => ((db', snd st), Raise e)
                | Ok (Some res) =>
                    ((db', snd st ++ notify env (send_trade_closed res "STOP LOSS HIT")),
                     Ok tt)
                | Ok None => ((db', snd st), Ok tt)
                end
              else
                (* Take profits *)
                let '(st1, trade1) :=
                  take_profits env sym ep ps rem cp pcp TAKE_PROFIT_LEVELS st trade in
                (* Stop trail *)
                let '(nsp, ssp) :=
                  stop_trail ep pcp STOP_LOSS_TRAIL
                             (last_notified_stop_pct trade1, cs) in
                let st2 :=
                  if Qlt_bool (last_notified_stop_pct trade1) nsp then
                    (update_trade (fst st1) sym
                       [Set_current_stop_price ssp; Set_last_notified_stop_pct nsp],
                     snd st1 ++ notify env (send_stop_update sym ssp nsp cp ep))
                  else st1 in
                (* Signal degradation *)
                let latest_score := get_latest_score (fst st2) sym in
                let st3 :=
                  match latest_score with
                  | Some row =>
                      let csc := sc_composite_score row in
                      let psc := last_score trade1 in
                      (update_trade (fst st2) sym [Set_last_score csc],
                       snd st2 ++
                         (if Qlt_bool 0 psc && Qlt_bool csc (psc - 20)
                          then notify env
                                 (send_signal_degradation sym psc csc cp ep pcp)
                          else []))
                  | None => st2
                  end in
                (* Hourly status *)
                let hrs := (now env - entry_timestamp trade1) / 3600 in
                let ch := py_int hrs in
                let last_status_hour :=
                  match metadata trade1 with Some h => h | None => (-1)%Z end in
                let st4 :=
                  if Z.ltb last_status_hour ch && Z.ltb 0 ch then
                    (update_trade (fst st3) sym [Set_metadata (Some ch)],
                     snd st3 ++
                       notify env
                         (send_trade_status sym ep cp pcp upnl
                            (realized_pnl trade1)
                            (remaining_fraction trade1 * 100) cs hrs
                            (match latest_score with
                             | Some row => sc_composite_score row
                             | None => 0
                             end)))
                  else st3 in
                (st4, Ok tt)
          end
    end.

(** One iteration of the loop of [_monitor_trades] for the trade of
    [sym]: the row as read from the table is checked, an exception of
    [_check_trade] is caught and logged, and what was written before it
    stays written. *)
Definition monitor_tick (env : Env) (st : State) (sym : string) : State :=
  match get_active_trade (fst st) sym with
  | Some trade => fst (_check_trade env st sym trade)
  | None => st
  end.

(** [_monitor_trades]: the rows are read once ([ORDER BY entry_timestamp
    DESC]) and checked one after the other. *)
Definition _monitor_trades (env : Env) (st : State) : State :=
  let trades :=
    sort_by (fun a b => Qle_bool (entry_timestamp (snd b)) (entry_timestamp (snd a)))
            (map_to_list (active_trades (fst st))) in
  fold_left (fun s '(sym, trade) => fst (_check_trade env s sym trade)) trades st.

(** Between two monitor ticks the scans may have stored score rows. *)
Definition add_scores (db : DB) (rows : list ScoreRow) : DB :=
  {| snapshots := snapshots db;
     signal_history := signal_history db;
     score_history := score_history db ++ rows;
     active_trades := active_trades db;
     trade_history := trade_history db |}.

(** What one monitor tick of a trade sees: handlers, clock and live
    price, and the score rows stored since the tick before. *)
Record Tick : Type := {
  tick_env : Env;
  tick_scores : list ScoreRow;
}.

Definition tick (sym : string) (st : State) (k : Tick) : State :=
  monitor_tick (tick_env k) (add_scores (fst st) (tick_scores k), snd st) sym.

(** The states after each tick of a sequence. *)
Fixpoint run_ticks (sym : string) (st : State) (ks : list Tick) : list State :=
  match ks with
  | [] => []
  | k :: ks' => let st' := tick sym st k in st' :: run_ticks sym st' ks'
  end.

(** [Scanner.add_trade], the symbol already upper-cased and stripped. *)
Definition add_trade (env : Env) (st : State) (sym : string) (ep ps sl : Q)
  : State * bool :=
  let '(db', ok) := Database.add_trade (fst st) (now env) sym ep ps sl in
  ((db', snd st ++ (if ok then notify env (send_trade_registered sym ep ps sl) else [])),
   ok).

(** The body of the [as_completed] loop of [run_once]: each finished
    future yields a result, [None], or an exception. *)
Definition collect_results (threshold : Q)
           (completed : list (Exc (option ScanResult))) : list ScanResult :=
  fold_left
    (fun results f =>
       match f with
       | Ok (Some r) =>
           if Qle_bool threshold (composite_score (sr_score r))
           then results ++ [r] else results
       | _ => results
       end)
    completed [].

(** The test [r["composite_score"] >= self.alert_threshold] as a
    proposition. *)
Definition passes (threshold : Q) (r : ScanResult) : Prop :=
  threshold <= composite_score (sr_score r).

Definition is_alert_class (c : Classification) : bool :=
  match c with
  | CRITICAL | HIGH_ALERT | WATCHLIST => true
  | _ => false
  end.

Definition _send_alerts (env : Env) (results : list ScanResult)
  : list (nat * Alert) :=
  flat_map
    (fun r =>
       (if is_alert_class (classification (sr_score r))
        then notify env (send_signal_alert r) else [])
       ++ flat_map (fun e => notify env (send_event e)) (sr_events r))
    results.

(** [run_once] from the completed futures on: filter, sort descending by
    score, dispatch, then monitor the trades. *)
Definition run_once (env : Env) (st : State)
           (completed : list (Exc (option ScanResult))) : State * list ScanResult :=
  let results :=
    sort_by (fun a b => Qle_bool (composite_score (sr_score b))
                                 (composite_score (sr_score a)))
            (collect_results (alert_threshold env) completed) in
  let st1 := (fst st, snd st ++ _send_alerts env results) in
  (_monitor_trades env st1, results).

End Scanner.

(** The trade invariants, on the row of one symbol as it is found in the
    table before and after a tick ([None]: no such row). *)
Module TradeInvariant.
Import Database.

Definition fraction_ok (t : Trade) : Prop :=
  0 <= remaining_fraction t /\ remaining_fraction t <= 1.

Definition flags_kept (t t' : Trade) : Prop :=
  (tp1_hit t = true -> tp1_hit t' = true) /\
  (tp2_hit t = true -> tp2_hit t' = true) /\
  (tp3_hit t = true -> tp3_hit t' = true) /\
  (tp4_hit t = true -> tp4_hit t' = true).

Definition step_ok (o o' : option Trade) : Prop :=
  match o' with
  | None => True
  | Some t' =>
      fraction_ok t' /\
      match o with
      | None => False
      | Some t =>
          current_stop_price t <= current_stop_price t' /\ flags_kept t t'
      end
  end.

Fixpoint chain_ok (o : option Trade) (l : list (option Trade)) : Prop :=
  match l with
  | [] => True
  | o' :: l' => step_ok o o' /\ chain_ok o' l'
  end.

(** The row of a symbol in a scanner state. *)
Definition row (sym : string) (st : Scanner.State) : option Trade :=
  get_active_trade (fst st) sym.

(** What the proof of the invariants carries along: besides the fraction
    bounds, the stop never stands above the level of the last notified
    rung. *)
Definition Inv (t : Trade) : Prop :=
  0 <= entry_price t /\
  fraction_ok t /\
  0 <= last_notified_stop_pct t /\
  current_stop_price t <= entry_price t * (1 + last_notified_stop_pct t / 100).

Definition Step (t t' : Trade) : Prop :=
  current_stop_price t <= current_stop_price t' /\ flags_kept t t' /\ Inv t'.

(** The take-profit stage touches flags, fraction and realized pnl only. *)
Definition TpRel (t t' : Trade) : Prop :=
  entry_price t' = entry_price t /\
  current_stop_price t' = current_stop_price t /\
  last_notified_stop_pct t' = last_notified_stop_pct t /\
  flags_kept t t' /\
  fraction_ok t'.

End TradeInvariant.


(** * More of the sources *)

(** Neighbours of a list stand in the relation [R]. *)
Fixpoint sorted_by {A : Type} (R : A -> A -> Prop) (l : list A) : Prop :=
  match l with
  | a :: ((b :: _) as rest) => R a b /\ sorted_by R rest
  | _ => True
  end.

(** ** core/database.py: the remaining queries *)

Module DatabaseQueries.
Import Helpers Database.

(** [store_snapshots_batch]: the rows are appended. *)
Definition store_snapshots_batch (db : DB) (rows : list Snapshot) : DB :=
  {| snapshots := snapshots db ++ rows;
     signal_history := signal_history db;
     score_history := score_history db;
     active_trades := active_trades db;
     trade_history := trade_history db |}.

(** The join of [get_top_scores]: the row carries the [MAX(timestamp)] of
    its symbol. *)
Definition is_latest_of_symbol (db : DB) (r : ScoreRow) : bool :=
  forallb (fun r' => negb (String.eqb (sc_symbol r') (sc_symbol r))
                     || Qle_bool (sc_timestamp r') (sc_timestamp r))
          (score_history db).

(** [get_top_scores]: of each symbol the rows with its latest timestamp,
    kept when [composite_score >= min_score], [ORDER BY composite_score
    DESC LIMIT limit]. *)
Definition get_top_scores (db : DB) (min_score : Q) (limit : nat) : list ScoreRow :=
  firstn limit
    (sort_by (fun a b => Qle_bool (sc_composite_score b) (sc_composite_score a))
       (filter (fun r => is_latest_of_symbol db r
                         && Qle_bool min_score (sc_composite_score r))
               (score_history db))).

(** [get_active_trades]: [ORDER BY entry_timestamp DESC], each row with
    its key. *)
Definition get_active_trades (db : DB) : list (string * Trade) :=
  sort_by (fun a b => Qle_bool (entry_timestamp (snd b)) (entry_timestamp (snd a)))
          (map_to_list (active_trades db)).

(** The connection [self.conn]: the tables as its queries see them, and
    whether a transaction is open on it.  [sqlite3.connect] is called with
    the default isolation level, under which the module opens a transaction
    before a DELETE when none is open; [commit] closes it. *)
Record Conn : Type := {
  view : DB;
  in_transaction : bool;
}.

Inductive SqlError : Type :=
| OperationalError.

Inductive Outcome (A : Type) : Type :=
| Returns (a : A)
| Raises (e : SqlError).
Arguments Returns {A} a.
Arguments Raises {A} e.

(** [c = self.conn.execute("DELETE FROM snapshots WHERE timestamp < ?")] with
    [c.rowcount]. *)
Definition delete_snapshots (conn : Conn) (cutoff : Q) : Conn * nat :=
  let db := view conn in
  let keep := filter (fun r => negb (Qlt_bool (_timestamp r) cutoff)) (snapshots db) in
  ({| view := {| snapshots := keep;
                 signal_history := signal_history db;
                 score_history := score_history db;
                 active_trades := active_trades db;
                 trade_history := trade_history db |};
      in_transaction := true |},
   (length (snapshots db) - length keep)%nat).

Definition delete_signal_history (conn : Conn) (cutoff : Q) : Conn * nat :=
  let db := view conn in
  let keep := filter (fun r => negb (Qlt_bool (sg_timestamp r) cutoff))
                     (signal_history db) in
  ({| view := {| snapshots := snapshots db;
                 signal_history := keep;
                 score_history := score_history db;
                 active_trades := active_trades db;
                 trade_history := trade_history db |};
      in_transaction := true |},
   (length (signal_history db) - length keep)%nat).

Definition delete_score_history (conn : Conn) (cutoff : Q) : Conn * nat :=
  let db := view conn in
  let keep := filter (fun r => negb (Qlt_bool (sc_timestamp r) cutoff))
                     (score_history db) in
  ({| view := {| snapshots := snapshots db;
                 signal_history := signal_history db;
                 score_history := keep;
                 active_trades := active_trades db;
                 trade_history := trade_history db |};
      in_transaction := true |},
   (length (score_history db) - length keep)%nat).

(** [self.conn.execute("VACUUM")]: SQLite refuses to vacuum from within a
    transaction, and [sqlite3] raises [OperationalError]. *)
Definition vacuum (conn : Conn) : Outcome unit :=
  if in_transaction conn then Raises OperationalError else Returns tt.

Definition commit (conn : Conn) : Conn :=
  {| view := view conn; in_transaction := false |}.

(** [cleanup]: the three DELETEs, then VACUUM, then commit; the count is
    returned only when VACUUM went through. *)
Definition cleanup (conn : Conn) (now : Q) (days : Q) : Conn * Outcome nat :=
  let cutoff := now - days * 86400 in
  let total := 0%nat in
  let '(conn, n) := delete_snapshots conn cutoff in
  let total := (total + n)%nat in
  let '(conn, n) := delete_signal_history conn cutoff in
  let total := (total + n)%nat in
  let '(conn, n) := delete_score_history conn cutoff in
  let total := (total + n)%nat in
  match vacuum conn with
  | Raises e => (conn, Raises e)
  | Returns _ => (commit conn, Returns total)
  end.

End DatabaseQueries.

(** ** core/scanner.py: manual trade management *)

Module ScannerTrades.
Import Helpers Database Scorer Scanner.

(** [Scanner.close_trade], the symbol already upper-cased and stripped:
    without an exit price the live price is taken; without either nothing
    is done. *)
Definition close_trade (env : Env) (st : State) (sym : string) (exit_p : option Q)
  : State * Exc (option CloseResult) :=
  let exit_p := match exit_p with
                | None => _live_price env sym
                | Some x => Some x
                end in
  match exit_p with
  | None => (st, Ok None)
  | Some x =>
      let '(db', r) := Database.close_trade (fst st) (now env) sym x "manual_close" in
      match r with
      | Raise e => ((db', snd st), Raise e)
      | Ok (Some res) =>
          ((db', snd st ++ notify env (send_trade_closed res "MANUAL CLOSE")),
           Ok (Some res))
      | Ok None => ((db', snd st), Ok None)
      end
  end.

(** [adjust_stop]: the stop is written first, the percentage for the
    notification computed after. *)
Definition adjust_stop (env : Env) (st : State) (sym : string) (price : Q)
  : State * Exc unit :=
  match get_active_trade (fst st) sym with
  | None => (st, Ok tt)
  | Some t =>
      let db' := update_trade (fst st) sym [Set_current_stop_price price] in
      match pydiv (price - entry_price t) (entry_price t) with
      | Raise e => ((db', snd st), Raise e)
      | Ok q =>
          let sp := q * 100 in
          ((db', snd st ++ notify env (send_stop_update sym price sp 0 (entry_price t))),
           Ok tt)
      end
  end.

(** The test of the take-profit loop for one level on the trade as read:
    [not trade.get(tk)], [tpct is not None] and [pcp >= tpct]. *)
Definition newly_hit (t : Trade) (pcp : Q) (tp : TakeProfitLevel) : bool :=
  negb (tp_flag t (level tp))
  && match pct tp with
     | Some tpct => Qle_bool tpct pcp
     | None => false
     end.

(** Between two states only the row of [sym] and the alert log moved: the
    other rows and the snapshot, signal and score logs are the same, and
    the alert log was extended. *)
Definition only_row_moved (sym : string) (st st' : State) : Prop :=
  (forall other, other <> sym ->
                 get_active_trade (fst st') other = get_active_trade (fst st) other) /\
  snapshots (fst st') = snapshots (fst st) /\
  signal_history (fst st') = signal_history (fst st) /\
  score_history (fst st') = score_history (fst st) /\
  exists more, snd st' = snd st ++ more.

(** What every check keeps, whatever the symbol: the three logs, the
    trade history and the alert log up to extension, and the absence of
    a trade. *)
Definition kept (st st' : State) : Prop :=
  snapshots (fst st') = snapshots (fst st) /\
  signal_history (fst st') = signal_history (fst st) /\
  score_history (fst st') = score_history (fst st) /\
  (exists rows, trade_history (fst st') = trade_history (fst st) ++ rows) /\
  (exists more, snd st' = snd st ++ more) /\
  (forall sym, get_active_trade (fst st) sym = None ->
               get_active_trade (fst st') sym = None).

(** What one round of the take-profit loop writes to the stored row:
    the flag, [max(0, rem - sf)] with the [rem] read at the top of
    [_check_trade], and the realized pnl raised by the chunk. *)
Definition take_profit_row (ps rem pcp : Q) (row : Trade) (tp : TakeProfitLevel)
  : Trade :=
  if newly_hit row pcp tp then
    fold_left apply_update
      [Set_tp_hit (level tp);
       Set_remaining_fraction (Qmax 0 (rem - sell_fraction tp));
       Set_realized_pnl (realized_pnl row + sell_fraction tp * ps * (pcp / 100))]
      row
  else row.

(** A row with the columns written by the later stages of [_check_trade]
    blanked; two rows with the same image differ in those columns only. *)
Definition but_rem (t : Trade) : Trade :=
  apply_update t (Set_remaining_fraction 0).

Definition but_score_status (t : Trade) : Trade :=
  fold_left apply_update [Set_last_score 0; Set_metadata None] t.

(** [pcp] of [_check_trade]. *)
Definition gain_pct (t : Trade) (cp : Q) : Q :=
  (cp - entry_price t) / entry_price t * 100.

End ScannerTrades.

(** ** core/scorer.py: the ignition test *)

Module ScorerEvents.
Import Database.


End ScorerEvents.

(** ** utils/helpers.py: the text helpers *)

Module HelpersText.

(** The two characters of a score bar. *)
Inductive Cell : Type := Full | Blank.

(** [score_bar]: [str * n] is empty for a negative [n]. *)
Definition score_bar (value max_val : Q) (width : Z) : Exc (list Cell) :=
  let* q := pydiv value max_val in
  let filled := py_int (q * inject_Z width) in
  let filled := Z.max 0 (Z.min width filled) in
  Ok (repeat Full (Z.to_nat filled) ++ repeat Blank (Z.to_nat (width - filled))).

(** [s.endswith(suffix)] *)
Definition endswith (s suffix : string) : bool :=
  Nat.leb (String.length suffix) (String.length s)
  && String.eqb (String.substring (String.length s - String.length suffix)
                                  (String.length suffix) s)
                suffix.

Definition SUFFIXES : list string :=
  [ "/USDT:USDT"; "/USDT"; "USDT"; "/USD:USD"; "/USD";
    "-USDT"; "_USDT"; "PERP"; "-PERP"; "_PERP" ]%string.

(** The body of the loop of [normalize_symbol]:
    [if symbol.endswith(suffix): symbol = symbol[: -len(suffix)]]. *)
Definition cut_suffix (symbol suffix : string) : string :=
  if endswith symbol suffix
  then String.substring 0 (String.length symbol - String.length suffix) symbol
  else symbol.

(** [normalize_symbol], the symbol already upper-cased and stripped: each
    suffix of the list, in its order, is cut off when the symbol, as it
    then stands, ends with it. *)
Definition normalize_symbol (symbol : string) : string :=
  fold_left cut_suffix SUFFIXES symbol.

End HelpersText.

(** ** core/levels.py: entry zone, take profits, trailing stop, risk/reward *)

Module LevelsCalc.
Import Helpers Scorer Levels.








(** [_get_candles]: the first of the longest candle lists. *)
Definition _get_candles (data : Signals.DataBundle) : list Candle :=
  fold_left
    (fun best exc =>
       let c := snd exc in
       if match c with [] => false | _ :: _ => true end
          && Nat.ltb (length best) (length c)
       then c else best)
    (Signals.ohlcv data) [].

(** [_merge_ob]: every book's levels, bids sorted by price descending
    ([reverse=True] keeps the order of equal prices), asks ascending. *)
Definition _merge_ob (data : Signals.DataBundle) : OrderBook :=
  let bids := flat_map (fun eob => Levels.bids (snd eob)) (Signals.orderbooks data) in
  let asks := flat_map (fun eob => Levels.asks (snd eob)) (Signals.orderbooks data) in
  {| Levels.bids := sort_by (fun a b => Qle_bool (fst b) (fst a)) bids;
     Levels.asks := sort_by (fun a b => Qle_bool (fst a) (fst b)) asks |}.



(** The candles [_vwap] sums over: [c[5] and c[5] > 0]. *)
Definition traded (c : Candle) : bool :=
  negb (Qeq_bool (c_volume c) 0) && Qlt_bool 0 (c_volume c).

(** [_vwap]: [candles[-periods:]] is the whole list for [periods = 0]. *)
Definition _vwap (candles : list Candle) (periods : nat) : option Q :=
  if Nat.ltb (length candles) 2 then None
  else
    let r := if Nat.leb periods (length candles)
             then (if Nat.eqb periods 0 then candles else last_n periods candles)
             else candles in
    let tpv := Qsum (map (fun c => ((c_high c + c_low c + c_close c) / 3) * c_volume c)
                         (filter traded r)) in
    let tv := Qsum (map c_volume (filter traded r)) in
    if Qlt_bool 0 tv then Some (tpv / tv) else None.

Inductive EntryMethod : Type :=
| market_entry | vwap_pullback | bid_side | support_entry.

Inductive Urgency : Type := immediate | wait_pullback | limit_order.

Record Entry : Type := {
  e_low : Q;
  e_high : Q;
  e_ideal : Q;
  e_method : EntryMethod;
  e_urgency : Urgency;
}.

(** [_calc_entry]; [atr], [ob] and [score] are not read. *)
Definition _calc_entry (price atr atr_pct : Q) (candles : list Candle)
           (ob : OrderBook) (score : Q) (cl : Classification) : Entry :=
  match cl with
  | CRITICAL =>
      {| e_low := pyround (price * (998 # 1000)) 8;
         e_high := pyround (price * (1003 # 1000)) 8;
         e_ideal := pyround price 8;
         e_method := market_entry;
         e_urgency := immediate |}
  | HIGH_ALERT =>
      let vwap := match candles with
                  | [] => None
                  | _ :: _ => _vwap candles 12
                  end in
      match vwap with
      | Some w =>
          if truthy (Some w) && Qlt_bool w price then
            {| e_low := pyround (w * (998 # 1000)) 8;
               e_high := pyround (price * (1002 # 1000)) 8;
               e_ideal := pyround w 8;
               e_method := vwap_pullback;
               e_urgency := wait_pullback |}
          else
            {| e_low := pyround (price * (1 - atr_pct / 200)) 8;
               e_high := pyround (price * (1002 # 1000)) 8;
               e_ideal := pyround (price * (1 - atr_pct / 400)) 8;
               e_method := bid_side;
               e_urgency := wait_pullback |}
      | None =>
          {| e_low := pyround (price * (1 - atr_pct / 200)) 8;
             e_high := pyround (price * (1002 # 1000)) 8;
             e_ideal := pyround (price * (1 - atr_pct / 400)) 8;
             e_method := bid_side;
             e_urgency := wait_pullback |}
      end
  | _ =>
      {| e_low := pyround (price * (1 - atr_pct / 100)) 8;
         e_high := pyround (price * (998 # 1000)) 8;
         e_ideal := pyround (price * (1 - atr_pct / 150)) 8;
         e_method := support_entry;
         e_urgency := limit_order |}
  end.

(** The loop of [_ask_walls]. *)
Fixpoint ask_buckets (asks : list (Q * Q)) (price ceil bs : Q)
         (buckets : list (Z * Bucket)) : Exc (list (Z * Bucket)) :=
  match asks with
  | [] => Ok buckets
  | (ap, aa) :: rest =>
      if Qle_bool ap price || Qlt_bool ceil ap
      then ask_buckets rest price ceil bs buckets
      else
        let* q := pydiv ap bs in
        let k := py_int q in
        let v := ap * aa in
        ask_buckets rest price ceil bs (bucket_add k (ap * v) v buckets)
  end.

(** [{"price": b["ps"] / b["v"] if b["v"] > 0 else 0, "value": b["v"]}] *)
Definition wall_of (b : Bucket) : Exc (Q * Q) :=
  let* p := (if Qlt_bool 0 (b_v b) then pydiv (b_ps b) (b_v b) else Ok 0) in
  Ok (p, b_v b).

(** [_ask_walls]: the buckets with at least 1.5 times the mean value,
    sorted by price, at most five. *)
Definition _ask_walls (asks : list (Q * Q)) (price depth_pct : Q)
  : Exc (list (Q * Q)) :=
  let ceil := price * (1 + depth_pct / 100) in
  let bs := price * (1 # 100) in
  let* buckets := ask_buckets asks price ceil bs [] in
  match buckets with
  | [] => Ok []
  | _ :: _ =>
      let vals := map (fun kb => b_v (snd kb)) buckets in
      let* mean := np_mean vals in
      let thresh := mean * (15 # 10) in
      let* walls := emap (fun kb => wall_of (snd kb))
                         (filter (fun kb => Qle_bool thresh (b_v (snd kb))) buckets) in
      Ok (firstn 5 (sort_by (fun a b => Qle_bool (fst a) (fst b)) walls))
  end.

(** What every bucket of the ask loop satisfies when the amounts are
    positive: a positive value and a mean price within the window. *)
Definition inside (price ceil : Q) (b : Bucket) : Prop :=
  0 < b_v b /\ price * b_v b < b_ps b /\ b_ps b <= ceil * b_v b.

Inductive TpMethod : Type := tp_atr | tp_resistance.

Record TakeProfit : Type := {
  tp_level : nat;
  tp_price : Q;
  tp_pct : Q;
  tp_sell_pct : Q;
  tp_method : TpMethod;
  tp_atr_multiple : Q;
}.






(** The position sizes of [_calc_rr], each the number its string prints
    (no decimals), or [None] for "N/A". *)
Record RiskReward : Type := {
  rr_ratio : Q;
  rr_risk_pct : Q;
  rr_positions : option (list (option Q));
}.

(** [f"${capital * risk / (sp_pct / 100):,.0f}" if sp_pct > 0 else "N/A"] *)
Definition position_size (capital risk sp_pct : Q) : Exc (option Q) :=
  if Qlt_bool 0 sp_pct
  then let* x := pydiv (capital * risk) (sp_pct / 100) in Ok (Some (pyround x 0))
  else Ok None.

Definition _calc_rr (entry : Entry) (stop : StopResult) (tps : list TakeProfit)
  : Exc RiskReward :=
  let ep := e_ideal entry in
  let sp := st_price stop in
  let sp_pct := st_pct stop in
  if Qle_bool ep 0 || Qle_bool sp 0
  then Ok {| rr_ratio := 0; rr_risk_pct := sp_pct; rr_positions := None |}
  else
    let risk := ep - sp in
    if Qle_bool risk 0
    then Ok {| rr_ratio := 0; rr_risk_pct := sp_pct; rr_positions := None |}
    else
      let reward := Qsum (map (fun tp => (tp_price tp - ep) * (tp_sell_pct tp / 100)) tps) in
      let reward :=
        match tps with
        | [] => reward
        | t :: ts => reward + (tp_price (List.last tps t) - ep) * (6 # 10) * (25 # 100)
        end in
      let* ratio := (if Qlt_bool 0 risk then pydiv reward risk else Ok 0) in
      let* p1 := position_size 10000 (1 # 100) sp_pct in
      let* p2 := position_size 10000 (2 # 100) sp_pct in
      let* p3 := position_size 25000 (1 # 100) sp_pct in
      let* p4 := position_size 25000 (2 # 100) sp_pct in
      Ok {| rr_ratio := pyround ratio 2;
            rr_risk_pct := pyround sp_pct 2;
            rr_positions := Some [p1; p2; p3; p4] |}.




Section Compute.

(** [float(s)] of a string: Python's parser is a parameter. *)
Variable float_of_str : string -> Exc Q.






End Compute.

End LevelsCalc.
(** * Facts about the numeric helpers *)

Lemma Qle_bool_false (a b : Q) : Qle_bool a b = false <-> b < a.
Proof.
  split; intros H.
  - apply Qnot_le_lt. intros Hle. apply Qle_bool_iff in Hle. congruence.
  - destruct (Qle_bool a b) eqn:E; [|reflexivity].
    apply Qle_bool_iff in E. lra.
Qed.

Lemma Qlt_bool_iff (a b : Q) : Qlt_bool a b = true <-> a < b.
Proof.
  unfold Qlt_bool. rewrite negb_true_iff. apply Qle_bool_false.
Qed.

Lemma Qlt_bool_false (a b : Q) : Qlt_bool a b = false <-> b <= a.
Proof.
  unfold Qlt_bool. rewrite negb_false_iff. apply Qle_bool_iff.
Qed.

Lemma Qeq_bool_false (a b : Q) : Qeq_bool a b = false <-> ~ a == b.
Proof.
  split; intros H.
  - intros E. apply Qeq_bool_iff in E. congruence.
  - destruct (Qeq_bool a b) eqn:E; [|reflexivity].
    apply Qeq_bool_iff in E. contradiction.
Qed.

Ltac qbool :=
  repeat match goal with
  | H : Qle_bool _ _ = true |- _ => apply Qle_bool_iff in H
  | H : Qle_bool _ _ = false |- _ => apply Qle_bool_false in H
  | H : Qlt_bool _ _ = true |- _ => apply Qlt_bool_iff in H
  | H : Qlt_bool _ _ = false |- _ => apply Qlt_bool_false in H
  | H : Qeq_bool _ _ = true |- _ => apply Qeq_bool_iff in H
  | H : Qeq_bool _ _ = false |- _ => apply Qeq_bool_false in H
  | H : _ && _ = true |- _ => apply andb_true_iff in H; destruct H
  end.

(** Divisions by numerals become multiplications that [lra] reads. *)
Ltac qconst :=
  unfold Qdiv in *;
  repeat match goal with
  | |- context [Qinv (Qmake ?n ?d)] =>
      let v := eval cbv in (Qinv (Qmake n d)) in
      change (Qinv (Qmake n d)) with v
  | H : context [Qinv (Qmake ?n ?d)] |- _ =>
      let v := eval cbv in (Qinv (Qmake n d)) in
      change (Qinv (Qmake n d)) with v in H
  end.

Ltac qlra := qconst; lra.

Module HelpersFacts.
Import Helpers.

Lemma round_half_even_bounds (x : Q) :
  (Qfloor x <= round_half_even x <= Qfloor x + 1)%Z.
Proof.
  unfold round_half_even.
  destruct (Qcompare _ _); [destruct (Z.even _)| |]; lia.
Qed.

Lemma round_half_even_mono (x y : Q) :
  x <= y -> (round_half_even x <= round_half_even y)%Z.
Proof.
  intros Hxy.
  pose proof (Qfloor_resp_le _ _ Hxy) as Hf.
  destruct (Z.eq_dec (Qfloor x) (Qfloor y)) as [E|N].
  - unfold round_half_even. rewrite <- E.
    destruct (Qcompare (x - inject_Z (Qfloor x)) (1 # 2)) eqn:Cx;
      destruct (Qcompare (y - inject_Z (Qfloor x)) (1 # 2)) eqn:Cy;
      try (destruct (Z.even (Qfloor x))); try lia;
      repeat match goal with
      | H : Qcompare _ _ = Eq |- _ => apply Qeq_alt in H
      | H : Qcompare _ _ = Lt |- _ => apply Qlt_alt in H
      | H : Qcompare _ _ = Gt |- _ => apply Qgt_alt in H
      end; exfalso; lra.
  - pose proof (round_half_even_bounds x). pose proof (round_half_even_bounds y).
    lia.
Qed.

Lemma round_half_even_Z (k : Z) : round_half_even (inject_Z k) = k.
Proof.
  unfold round_half_even. rewrite Qfloor_Z.
  assert (H : Qcompare (inject_Z k - inject_Z k) (1 # 2) = Lt).
  { apply -> Qlt_alt. generalize (inject_Z k). intros q. lra. }
  rewrite H. reflexivity.
Qed.

Lemma round_half_even_Qeq (x y : Q) :
  x == y -> round_half_even x = round_half_even y.
Proof.
  intros E. apply Z.le_antisymm; apply round_half_even_mono; lra.
Qed.

Lemma pyround_mono (x y : Q) (n : nat) :
  x <= y -> pyround x n <= pyround y n.
Proof.
  intros H. unfold pyround, Qle. simpl.
  apply Z.mul_le_mono_nonneg_r; [lia|].
  apply round_half_even_mono.
  apply Qmult_le_compat_r; [assumption|].
  unfold Qle. simpl. lia.
Qed.

(** A number with at most [n] decimals is left alone. *)
Lemma pyround_exact (k : Z) (n : nat) :
  pyround (Qmake k (pow10 n)) n == Qmake k (pow10 n).
Proof.
  unfold pyround.
  rewrite (round_half_even_Qeq _ (inject_Z k)).
  - rewrite round_half_even_Z. reflexivity.
  - unfold Qeq. simpl. lia.
Qed.

Lemma pyround_Qeq (x y : Q) (n : nat) : x == y -> pyround x n = pyround y n.
Proof.
  intros E. unfold pyround. f_equal. apply round_half_even_Qeq.
  rewrite E. reflexivity.
Qed.

Lemma pyround_Z (k : Z) (n : nat) : pyround (inject_Z k) n == inject_Z k.
Proof.
  rewrite (pyround_Qeq _ (Qmake (k * Zpos (pow10 n)) (pow10 n))).
  - rewrite pyround_exact. unfold Qeq. simpl. lia.
  - unfold Qeq. simpl. lia.
Qed.

Lemma pyround_range (x : Q) (n : nat) (a b : Z) :
  inject_Z a <= x -> x <= inject_Z b ->
  inject_Z a <= pyround x n /\ pyround x n <= inject_Z b.
Proof.
  intros Ha Hb. split.
  - rewrite <- (pyround_Z a n). apply pyround_mono; assumption.
  - rewrite <- (pyround_Z b n). apply pyround_mono; assumption.
Qed.

Lemma clamp_range (v lo hi : Q) : lo <= hi -> lo <= clamp v lo hi /\ clamp v lo hi <= hi.
Proof.
  intros H. unfold clamp. split.
  - apply Q.le_max_l.
  - apply Q.max_lub; [assumption|apply Q.le_min_l].
Qed.

Lemma clamp_mono (v w lo hi : Q) : v <= w -> clamp v lo hi <= clamp w lo hi.
Proof.
  intros H. unfold clamp.
  apply Q.max_le_compat_l. apply Q.min_le_compat_l. assumption.
Qed.

End HelpersFacts.
(** * The order of binary64 numbers *)

Module FloatOrderFacts.
Import Stdlib.Floats.Floats.






Lemma ltb_lt (a b : float) :
  PrimFloat.ltb a b = true <-> SFcompare (Prim2SF a) (Prim2SF b) = Some Lt.
Proof.
  rewrite ltb_spec. unfold SFltb.
  destruct (SFcompare (Prim2SF a) (Prim2SF b)) as [[]|]; split; congruence.
Qed.








End FloatOrderFacts.

(** * [piecewise_lerp] on binary64 numbers *)

Module LerpFloatFacts.
Import Stdlib.Floats.Floats.
Import HelpersFloat FloatOrderFacts.

Lemma xs_increasing_tail (p : float * float) (l : list (float * float)) :
  xs_increasing (p :: l) -> xs_increasing l.
Proof. destruct l; [trivial|]. intros [_ H]. exact H. Qed.


Lemma xs_increasing_app (pre l : list (float * float)) :
  xs_increasing (pre ++ l) -> xs_increasing l.
Proof.
  induction pre as [|p pre IH]; [trivial|]. intros H. apply IH.
  exact (xs_increasing_tail _ _ H).
Qed.







End LerpFloatFacts.

Section PiecewiseLerpBinary64.
Import Stdlib.Floats.Floats.




End PiecewiseLerpBinary64.

(** * The trade tables: add_trade, get_active_trade, close_trade *)

Module DatabaseFacts.
Import Helpers Database.

Lemma get_after_add (db : DB) (now : Q) (symbol : string) (ep ps sl : Q) :
  get_active_trade (fst (add_trade db now symbol ep ps sl)) symbol =
  Some {| entry_price := ep; position_size_usd := ps; stop_loss_pct := sl;
          current_stop_price := ep * (1 - sl / 100);
          entry_timestamp := now;
          tp1_hit := false; tp2_hit := false; tp3_hit := false; tp4_hit := false;
          remaining_fraction := 1; realized_pnl := 0;
          last_notified_stop_pct := 0; last_score := 0; metadata := None |}.
Proof.
  unfold get_active_trade, add_trade. simpl. apply lookup_insert_eq.
Qed.

Lemma get_after_update (db : DB) (symbol : string) (us : list Update) :
  get_active_trade (update_trade db symbol us) symbol =
  (fun t => fold_left apply_update us t) <$> get_active_trade db symbol.
Proof.
  unfold get_active_trade, update_trade. simpl. apply lookup_alter_eq.
Qed.

Lemma history_after_update (db : DB) (symbol : string) (us : list Update) :
  trade_history (update_trade db symbol us) = trade_history db.
Proof. reflexivity. Qed.

Lemma scores_after_update (db : DB) (symbol : string) (us : list Update) :
  score_history (update_trade db symbol us) = score_history db.
Proof. reflexivity. Qed.

(** [close_trade] either leaves the table alone (no such trade, or an
    exception before the first write) or deletes the row. *)
Lemma get_after_close (db : DB) (now : Q) (symbol : string) (exit_price : Q)
      (reason : string) :
  get_active_trade (fst (close_trade db now symbol exit_price reason)) symbol = None \/
  fst (close_trade db now symbol exit_price reason) = db.
Proof.
  unfold close_trade.
  destruct (get_active_trade db symbol) as [trade|] eqn:G; [|right; reflexivity].
  destruct (pydiv _ (entry_price trade)) as [pnl|e]; [|right; reflexivity].
  destruct (pydiv _ (entry_price trade)) as [g|e]; [|right; reflexivity].
  left. unfold get_active_trade. simpl. apply lookup_delete_eq.
Qed.

Lemma pydiv_ok (a b : Q) : ~ b == 0 -> pydiv a b = Ok (a / b).
Proof.
  intros H. unfold pydiv.
  destruct (Qeq_bool b 0) eqn:E; [|reflexivity]. qbool. contradiction.
Qed.

Lemma pydiv_zero (a b : Q) : b == 0 -> pydiv a b = Raise ZeroDivisionError.
Proof.
  intros H. unfold pydiv.
  destruct (Qeq_bool b 0) eqn:E; [reflexivity|]. qbool. contradiction.
Qed.

End DatabaseFacts.

(** C8, as the code has it.  [add_trade] followed by [get_active_trade]
    returns a trade with the same entry price, size and stop percentage and
    with [current_stop_price = entry_price * (1 - stop_loss_pct / 100)];
    [close_trade] on an active trade whose entry price is not zero removes
    it from the active trades and appends exactly one history row, whose
    pnl is [realized_pnl + remaining_fraction * position_size_usd *
    (exit_price - entry_price) / entry_price]. *)
Theorem add_get_close_roundtrip :
  (forall db now symbol ep ps sl,
      exists t,
        Database.get_active_trade
          (fst (Database.add_trade db now symbol ep ps sl)) symbol = Some t /\
        Database.entry_price t = ep /\
        Database.position_size_usd t = ps /\
        Database.stop_loss_pct t = sl /\
        Database.current_stop_price t = ep * (1 - sl / 100)) /\
  (forall db now symbol exit_price reason t,
      Database.get_active_trade db symbol = Some t ->
      ~ Database.entry_price t == 0 ->
      let db' := fst (Database.close_trade db now symbol exit_price reason) in
      Database.get_active_trade db' symbol = None /\
      exists row,
        Database.trade_history db' = Database.trade_history db ++ [row] /\
        Database.h_symbol row = symbol /\
        Database.h_realized_pnl row ==
          Database.realized_pnl t
          + Database.remaining_fraction t * Database.position_size_usd t
            * (exit_price - Database.entry_price t) / Database.entry_price t).
Proof.
  split.
  - intros db now symbol ep ps sl. eexists. split.
    + apply DatabaseFacts.get_after_add.
    + simpl. repeat split.
  - intros db now symbol exit_price reason t G Hne db'. subst db'.
    unfold Database.close_trade. rewrite G.
    rewrite !DatabaseFacts.pydiv_ok by assumption. simpl. split.
    + unfold Database.get_active_trade. simpl. apply lookup_delete_eq.
    + eexists. split; [reflexivity|]. simpl. split; reflexivity.
Qed.

Lemma add_get_close_roundtrip_witness :
  let db := fst (Database.add_trade Database.empty_db 0 "BTC" 100 10000 7) in
  let db' := fst (Database.close_trade db 3600 "BTC" 110 "manual_close") in
  Database.get_active_trade db' "BTC" = None /\
  exists row,
    Database.trade_history db' = Database.trade_history db ++ [row] /\
    Database.h_symbol row = "BTC"%string /\
    Database.h_realized_pnl row == 0 + 1 * 10000 * (110 - 100) / 100.
Proof.
  intros db db'.
  apply (proj2 add_get_close_roundtrip db 3600 "BTC"%string 110 "manual_close"%string
           {| Database.entry_price := 100; Database.position_size_usd := 10000;
              Database.stop_loss_pct := 7;
              Database.current_stop_price := 100 * (1 - 7 / 100);
              Database.entry_timestamp := 0;
              Database.tp1_hit := false; Database.tp2_hit := false;
              Database.tp3_hit := false; Database.tp4_hit := false;
              Database.remaining_fraction := 1; Database.realized_pnl := 0;
              Database.last_notified_stop_pct := 0; Database.last_score := 0;
              Database.metadata := None |}).
  - apply DatabaseFacts.get_after_add.
  - simpl. discriminate.
Defined.

(** C8 as stated fails for a trade registered with entry price 0:
    [close_trade] raises [ZeroDivisionError] before it writes, the trade
    stays active and no history row is appended. *)
Lemma close_trade_zero_entry_counterexample :
  let db := fst (Database.add_trade Database.empty_db 0 "X" 0 1000 5) in
  let out := Database.close_trade db 3600 "X" 10 "manual_close" in
  snd out = Raise ZeroDivisionError /\
  Database.get_active_trade (fst out) "X" <> None /\
  Database.trade_history (fst out) = [].
Proof.
  vm_compute. repeat split. discriminate.
Qed.

(** * The trade monitor *)

(** C4 on the code.  A fresh trade (entry 100, size 10000) checked at 115
    fires TP1 alone: realized pnl 375, remaining fraction 0.75.  Checked at
    150 instead, the gain of 50% crosses all three thresholds: the three
    flags are set and three chunks of 1250 are realized, but each write of
    [remaining_fraction] is computed from the value read before the loop,
    so the row ends at 0.75 and not at 0.25. *)
Theorem take_profit_gap_stale_remaining :
  let env p := {| Scanner.alert_handlers := [0%nat]; Scanner.alert_threshold := 48;
                  Scanner.now := 60; Scanner._live_price := fun _ => Some p |} in
  let st0 := fst (Scanner.add_trade (env 100) (Database.empty_db, []) "BTC" 100 10000 7) in
  (exists t, Database.get_active_trade (fst (Scanner.monitor_tick (env 115) st0 "BTC")) "BTC"
             = Some t /\
             Database.tp1_hit t = true /\ Database.tp2_hit t = false /\
             Database.tp3_hit t = false /\
             Database.realized_pnl t == 375 /\
             Database.remaining_fraction t == 75 # 100) /\
  (exists t, Database.get_active_trade (fst (Scanner.monitor_tick (env 150) st0 "BTC")) "BTC"
             = Some t /\
             Database.tp1_hit t = true /\ Database.tp2_hit t = true /\
             Database.tp3_hit t = true /\
             Database.realized_pnl t == 3750 /\
             Database.remaining_fraction t == 75 # 100 /\
             ~ Database.remaining_fraction t == 25 # 100).
Proof.
  split; vm_compute; eexists; (split; [reflexivity|]); vm_compute;
    repeat split; discriminate.
Qed.

Module MonitorFacts.
Import Helpers Database Scorer Scanner TradeInvariant DatabaseFacts.

Lemma Step_refl (t : Trade) : Inv t -> Step t t.
Proof.
  intros H. split; [lra|]. split; [|assumption]. repeat split; tauto.
Qed.

Lemma Step_trans (a b c : Trade) : Step a b -> Step b c -> Step a c.
Proof.
  intros (H1 & F1 & _) (H2 & F2 & I). split; [lra|]. split; [|assumption].
  destruct F1 as (?&?&?&?), F2 as (?&?&?&?). repeat split; tauto.
Qed.

Lemma tp_update_rel (tl : nat) (rem sf nrp : Q) (t0 t : Trade) :
  rem <= 1 -> 0 <= sf -> TpRel t0 t ->
  TpRel t0 (fold_left apply_update
              [Set_tp_hit tl; Set_remaining_fraction (Qmax 0 (rem - sf));
               Set_realized_pnl nrp] t).
Proof.
  intros Hr Hs (He & Hc & Hn & (F1 & F2 & F3 & F4) & Hf).
  repeat split; simpl; try assumption.
  - intros H. specialize (F1 H). destruct tl as [|[|tl]]; auto.
  - intros H. specialize (F2 H). destruct tl as [|[|[|tl]]]; auto.
  - intros H. specialize (F3 H). destruct tl as [|[|[|[|tl]]]]; auto.
  - intros H. specialize (F4 H). destruct tl as [|[|[|[|[|tl]]]]]; auto.
  - apply Q.le_max_l.
  - apply Q.max_lub; lra.
Qed.

Lemma take_profits_spec (env : Env) (sym : string) (ep ps rem cp pcp : Q)
      (t0 : Trade) (tps : list TakeProfitLevel) :
  rem <= 1 ->
  Forall (fun tp => 0 <= sell_fraction tp) tps ->
  forall st trade,
    (exists t, get_active_trade (fst st) sym = Some t /\ TpRel t0 t) ->
    let out := take_profits env sym ep ps rem cp pcp tps st trade in
    (exists t, get_active_trade (fst (fst out)) sym = Some t /\ TpRel t0 t) /\
    last_notified_stop_pct (snd out) = last_notified_stop_pct trade /\
    entry_timestamp (snd out) = entry_timestamp trade /\
    metadata (snd out) = metadata trade.
Proof.
  intros Hr Hall. induction Hall as [|tp tps Hsf Hall IH]; intros st trade A.
  - simpl. repeat split; try reflexivity. assumption.
  - simpl. destruct (pct tp) as [tpct|]; [|apply IH; assumption].
    destruct (tp_flag trade (level tp)); [apply IH; assumption|].
    destruct (Qle_bool tpct pcp); [|apply IH; assumption].
    match goal with
    | |- context [take_profits _ _ _ _ _ _ _ tps ?s ?t] =>
        destruct (IH s t) as (A' & L & T & M)
    end.
    + destruct A as (t & G & R). eexists. split.
      * cbn [fst]. rewrite get_after_update, G. reflexivity.
      * apply tp_update_rel; assumption.
    + split; [exact A'|]. rewrite L, T, M. repeat split; reflexivity.
Qed.

Lemma stop_trail_spec (ep pcp : Q) (rungs : list TrailRung) :
  forall nsp0 ssp0,
    let out := stop_trail ep pcp rungs (nsp0, ssp0) in
    (out = (nsp0, ssp0)) \/
    (nsp0 < fst out /\ snd out == ep * (1 + fst out / 100)).
Proof.
  induction rungs as [|tr rungs IH]; intros nsp0 ssp0; [left; reflexivity|].
  simpl.
  destruct (Qle_bool (price_move_pct tr) pcp && Qlt_bool nsp0 (stop_at_pct tr)) eqn:C.
  - qbool. right.
    destruct (IH (stop_at_pct tr) (ep * (1 + stop_at_pct tr / 100))) as [E|[H1 H2]].
    + rewrite E. simpl. split; [assumption|reflexivity].
    + split; [lra|assumption].
  - apply IH.
Qed.

Lemma trail_update_step (ep nsp ssp : Q) (t : Trade) :
  entry_price t = ep ->
  last_notified_stop_pct t < nsp ->
  ssp == ep * (1 + nsp / 100) ->
  Inv t ->
  Step t (fold_left apply_update
            [Set_current_stop_price ssp; Set_last_notified_stop_pct nsp] t).
Proof.
  intros <- Hn Hs (He & Hf & H0 & Hc). simpl.
  assert (entry_price t * (1 + last_notified_stop_pct t / 100)
          <= entry_price t * (1 + nsp / 100)).
  { rewrite !(Qmult_comm (entry_price t)).
    apply Qmult_le_compat_r; [qlra|assumption]. }
  split; [simpl; lra|]. split; [repeat split; simpl; tauto|].
  repeat split; simpl; try apply Hf; try lra.
Qed.

Lemma neutral_update_step (u : Update) (t : Trade) :
  (exists v, u = Set_last_score v) \/ (exists v, u = Set_metadata v) ->
  Inv t -> Step t (fold_left apply_update [u] t).
Proof.
  intros [[v ->]|[v ->]] (He & Hf & H0 & Hc); simpl;
    (split; [simpl; lra|]); (split; [repeat split; simpl; tauto|]);
    repeat split; simpl; try apply Hf; assumption.
Qed.

Lemma step_close (sym : string) (db : DB) (now x : Q) (reason : string)
      (t : Trade) :
  get_active_trade db sym = Some t -> Inv t ->
  match get_active_trade (fst (close_trade db now sym x reason)) sym with
  | None => True
  | Some t' => Step t t'
  end.
Proof.
  intros G HI.
  destruct (get_after_close db now sym x reason) as [E|E]; rewrite E.
  - exact I.
  - rewrite G. apply Step_refl. assumption.
Qed.

Lemma check_trade_step (env : Env) (st : State) (sym : string) (t : Trade) :
  get_active_trade (fst st) sym = Some t -> Inv t ->
  match get_active_trade (fst (fst (_check_trade env st sym t))) sym with
  | None => True
  | Some t' => Step t t'
  end.
Proof.
  intros G HI.
  assert (Keep : match get_active_trade (fst st) sym with
                 | None => True | Some t' => Step t t' end).
  { rewrite G. apply Step_refl. assumption. }
  unfold _check_trade.
  destruct (Qle_bool (remaining_fraction t) 0) eqn:R0.
  { pose proof (step_close sym (fst st) (now env) (entry_price t) "fully_exited" t G HI) as C.
    destruct (close_trade (fst st) (now env) sym (entry_price t) "fully_exited") as [db' r].
    exact C. }
  destruct (_live_price env sym) as [cp|]; [|exact Keep].
  destruct (Qeq_bool cp 0); [exact Keep|].
  destruct (pydiv (cp - entry_price t) (entry_price t)) as [q|e]; [|exact Keep].
  destruct (Qle_bool cp (current_stop_price t)) eqn:SH.
  { pose proof (step_close sym (fst st) (now env) cp "stop_loss" t G HI) as C.
    destruct (close_trade (fst st) (now env) sym cp "stop_loss") as [db' r].
    destruct r as [[res|]|e]; exact C. }
  (* take profits *)
  assert (Hall : Forall (fun tp => 0 <= sell_fraction tp) TAKE_PROFIT_LEVELS).
  { repeat constructor; discriminate. }
  pose proof HI as (He & Hf & Hn & Hc).
  assert (R0' : exists t1, get_active_trade (fst st) sym = Some t1 /\ TpRel t t1).
  { exists t. split; [assumption|]. repeat split; auto; apply Hf. }
  pose proof (take_profits_spec env sym (entry_price t) (position_size_usd t)
                (remaining_fraction t) cp (q * 100) t TAKE_PROFIT_LEVELS
                (proj2 Hf) Hall st t R0') as TP.
  destruct (take_profits env sym (entry_price t) (position_size_usd t)
              (remaining_fraction t) cp (q * 100) TAKE_PROFIT_LEVELS st t)
    as [st1 trade1].
  cbn [fst snd] in TP. destruct TP as ((t1 & G1 & E1 & C1 & N1 & F1 & Q1) & L1 & _).
  assert (I1 : Inv t1).
  { unfold Inv. rewrite E1, C1, N1. tauto. }
  assert (S1 : Step t t1).
  { split; [rewrite C1; lra|]. split; assumption. }
  (* stop trail *)
  pose proof (stop_trail_spec (entry_price t) (q * 100) STOP_LOSS_TRAIL
                (last_notified_stop_pct trade1) (current_stop_price t)) as TR.
  destruct (stop_trail (entry_price t) (q * 100) STOP_LOSS_TRAIL
              (last_notified_stop_pct trade1, current_stop_price t)) as [nsp ssp].
  cbn [fst snd] in TR.
  match goal with
  | |- context [get_latest_score (fst ?s2) sym] => set (st2 := s2)
  end.
  assert (A2 : exists t2, get_active_trade (fst st2) sym = Some t2 /\ Step t t2).
  { subst st2. destruct (Qlt_bool (last_notified_stop_pct trade1) nsp) eqn:C;
      [|exists t1; split; assumption].
    qbool. destruct TR as [E|[H1 H2]]; [injection E as E1' E2'; rewrite E1' in C; lra|].
    eexists. cbn [fst]. split; [rewrite get_after_update, G1; reflexivity|].
    eapply Step_trans; [exact S1|].
    apply (trail_update_step (entry_price t)); try assumption.
    rewrite N1, <- L1. assumption. }
  clearbody st2. clear G1 S1 I1.
  (* signal degradation *)
  match goal with
  | |- context [Z.ltb _ _ && Z.ltb _ _] =>
      match goal with
      | |- context [update_trade (fst ?s3) sym [Set_metadata _]] => set (st3 := s3)
      end
  end.
  assert (A3 : exists t3, get_active_trade (fst st3) sym = Some t3 /\ Step t t3).
  { subst st3. destruct (get_latest_score (fst st2) sym) as [row|]; [|assumption].
    destruct A2 as (t2 & G2 & S2). eexists. cbn [fst].
    split; [rewrite get_after_update, G2; reflexivity|].
    eapply Step_trans; [exact S2|].
    apply neutral_update_step; [left; eexists; reflexivity|apply S2]. }
  clearbody st3.
  (* hourly status *)
  destruct A3 as (t3 & G3 & S3).
  destruct (Z.ltb _ _ && Z.ltb _ _).
  - cbn [fst]. rewrite get_after_update, G3. simpl fmap.
    eapply Step_trans; [exact S3|].
    apply neutral_update_step; [right; eexists; reflexivity|apply S3].
  - cbn [fst]. rewrite G3. assumption.
Qed.

End MonitorFacts.

Module TickFacts.
Import Helpers Database Scorer Scanner TradeInvariant MonitorFacts.

Lemma tick_step_ok (sym : string) (st : State) (k : Tick) :
  match row sym st with None => True | Some t => Inv t end ->
  step_ok (row sym st) (row sym (tick sym st k)) /\
  match row sym (tick sym st k) with None => True | Some t => Inv t end.
Proof.
  unfold row, tick, monitor_tick. cbn [fst].
  change (get_active_trade (add_scores (fst st) (tick_scores k)) sym)
    with (get_active_trade (fst st) sym).
  destruct (get_active_trade (fst st) sym) as [t|] eqn:G; intros HI.
  - pose proof (check_trade_step (tick_env k)
                  (add_scores (fst st) (tick_scores k), snd st) sym t G HI) as S.
    match type of S with
    | match ?x with _ => _ end => destruct x as [t'|]
    end; [|split; exact I].
    destruct S as (Hc & Hf & Hi). split; [|assumption].
    split; [apply Hi|]. split; assumption.
  - cbn [fst]. change (get_active_trade (add_scores (fst st) (tick_scores k)) sym)
      with (get_active_trade (fst st) sym). rewrite G. split; exact I.
Qed.

Lemma chain_from (sym : string) (ks : list Tick) :
  forall st,
    match row sym st with None => True | Some t => Inv t end ->
    chain_ok (row sym st) (map (row sym) (run_ticks sym st ks)).
Proof.
  induction ks as [|k ks IH]; intros st HI; [exact I|].
  destruct (tick_step_ok sym st k HI) as [S HI'].
  simpl. split; [exact S|]. apply IH. exact HI'.
Qed.

Lemma inv_after_add (env : Env) (st : State) (sym : string) (ep ps sl : Q) :
  0 <= ep -> 0 <= sl ->
  match row sym (fst (Scanner.add_trade env st sym ep ps sl)) with
  | None => True
  | Some t => Inv t
  end.
Proof.
  intros He Hs. unfold row, Scanner.add_trade.
  pose proof (DatabaseFacts.get_after_add (fst st) (now env) sym ep ps sl) as G.
  destruct (Database.add_trade (fst st) (now env) sym ep ps sl) as [db' ok].
  cbn [fst] in *. rewrite G. unfold Inv, fraction_ok. simpl.
  repeat split; try lra.
  assert (0 <= ep * (sl * (1 # 100))) by (apply Qmult_le_0_compat; lra).
  qlra.
Qed.

End TickFacts.

(** C3, as the code has it.  For a trade registered by [add_trade] with a
    non-negative entry price and a non-negative stop percentage, along any
    sequence of monitor ticks (arbitrary live prices, clocks and stored
    scores) the row of the trade, as long as it exists, has
    [0 <= remaining_fraction <= 1], its [current_stop_price] is never below
    the one before the tick, and a [tpN_hit] flag that is set stays set; a
    closed trade does not come back. *)
Theorem trade_invariants_after_ticks
        (env : Scanner.Env) (st : Scanner.State) (sym : string) (ep ps sl : Q)
        (ks : list Scanner.Tick) :
  0 <= ep -> 0 <= sl ->
  let st0 := fst (Scanner.add_trade env st sym ep ps sl) in
  TradeInvariant.chain_ok
    (Database.get_active_trade (fst st0) sym)
    (map (fun s => Database.get_active_trade (fst s) sym)
         (Scanner.run_ticks sym st0 ks)).
Proof.
  intros He Hs st0.
  apply (TickFacts.chain_from sym ks st0).
  apply TickFacts.inv_after_add; assumption.
Qed.

Lemma trade_invariants_after_ticks_witness :
  let env p := {| Scanner.alert_handlers := [0%nat]; Scanner.alert_threshold := 48;
                  Scanner.now := 60; Scanner._live_price := fun _ => Some p |} in
  let ks := [ {| Scanner.tick_env := env 115; Scanner.tick_scores := [] |};
              {| Scanner.tick_env := env 135; Scanner.tick_scores := [] |};
              {| Scanner.tick_env := env 90; Scanner.tick_scores := [] |} ] in
  let st0 := fst (Scanner.add_trade (env 100) (Database.empty_db, []) "BTC" 100 10000 7) in
  0 <= 100 /\ 0 <= 7 /\
  TradeInvariant.chain_ok
    (Database.get_active_trade (fst st0) "BTC")
    (map (fun s => Database.get_active_trade (fst s) "BTC")
         (Scanner.run_ticks "BTC" st0 ks)).
Proof.
  intros env ks st0.
  split; [discriminate|]. split; [discriminate|].
  apply (trade_invariants_after_ticks (env 100) (Database.empty_db, [])
           "BTC"%string 100 10000 7 ks); discriminate.
Defined.

(** C3 as stated fails for a trade registered with a negative stop
    percentage: entry 100 and stop -50% put the stop at 150; a tick at 155
    (+55%) moves it to the +30% rung, 130. *)
Lemma stop_decreases_counterexample :
  let env p := {| Scanner.alert_handlers := [0%nat]; Scanner.alert_threshold := 48;
                  Scanner.now := 60; Scanner._live_price := fun _ => Some p |} in
  let st0 := fst (Scanner.add_trade (env 100) (Database.empty_db, []) "BTC" 100 10000 (-50)) in
  let st1 := Scanner.tick "BTC" st0
               {| Scanner.tick_env := env 155; Scanner.tick_scores := [] |} in
  exists t t',
    Database.get_active_trade (fst st0) "BTC" = Some t /\
    Database.get_active_trade (fst st1) "BTC" = Some t' /\
    Database.current_stop_price t == 150 /\
    Database.current_stop_price t' == 130 /\
    ~ TradeInvariant.step_ok (Some t) (Some t').
Proof.
  vm_compute. eexists. eexists.
  split; [reflexivity|]. split; [reflexivity|].
  vm_compute. split; [reflexivity|]. split; [reflexivity|].
  intros [_ [H _]]. apply H. reflexivity.
Qed.

(** * The scorer *)

Module ScorerFacts.
Import Helpers Database Scorer ScorerSpec HelpersFacts.

Lemma fold_Qplus_le (l l' : list Q) :
  Forall2 Qle l l' -> forall a b, a <= b ->
  fold_left Qplus l a <= fold_left Qplus l' b.
Proof.
  induction 1 as [|x y l l' Hxy _ IH]; intros a b Hab; [assumption|].
  simpl. apply IH. lra.
Qed.

Lemma fold_Qplus_ge (l : list Q) :
  Forall (Qle 0) l -> forall a, a <= fold_left Qplus l a.
Proof.
  induction 1 as [|x l Hx _ IH]; intros a; [simpl; lra|].
  simpl. specialize (IH (a + x)). lra.
Qed.

Lemma Qsum_map_le {A : Type} (f g : A -> Q) (l : list A) :
  (forall x, In x l -> f x <= g x) -> Qsum (map f l) <= Qsum (map g l).
Proof.
  intros H. apply fold_Qplus_le; [|lra].
  induction l as [|x l IH]; [constructor|].
  simpl. constructor; [apply H; left; reflexivity|].
  apply IH. intros y Hy. apply H. right. assumption.
Qed.

Lemma Qsum_nonneg (l : list Q) : Forall (Qle 0) l -> 0 <= Qsum l.
Proof. intros H. apply (fold_Qplus_ge l H 0). Qed.

(** A larger selection of non-negative terms has a larger sum. *)
Lemma filtered_sum_le {A : Type} (w : A -> Q) (c1 c2 : A -> bool) (l : list A) :
  (forall x, In x l -> 0 <= w x) ->
  (forall x, In x l -> c1 x = true -> c2 x = true) ->
  forall a b, a <= b ->
    fold_left Qplus (map w (filter c1 l)) a <= fold_left Qplus (map w (filter c2 l)) b.
Proof.
  induction l as [|x l IH]; intros Hw Hc a b Hab; [assumption|].
  assert (Hw' : forall y, In y l -> 0 <= w y) by (intros; apply Hw; right; assumption).
  assert (Hc' : forall y, In y l -> c1 y = true -> c2 y = true)
    by (intros y Hy; apply Hc; right; assumption).
  pose proof (Hw x (or_introl eq_refl)) as Hx.
  pose proof (Hc x (or_introl eq_refl)) as Hcx.
  simpl. destruct (c1 x) eqn:C1.
  - rewrite (Hcx eq_refl). simpl. apply IH; try assumption. lra.
  - destruct (c2 x); simpl; apply IH; try assumption. lra.
Qed.

Lemma weights_nonneg : forall nw, In nw SIGNAL_WEIGHTS -> 0 <= snd nw.
Proof.
  intros nw H. simpl in H.
  repeat (destruct H as [<-|H]; [discriminate|]). contradiction.
Qed.

Lemma bonuses_nonneg : forall b, In b INTERACTION_BONUSES -> 0 <= ib_bonus b.
Proof.
  intros b H. simpl in H.
  repeat (destruct H as [<-|H]; [discriminate|]). contradiction.
Qed.

Lemma base_nonneg (signals : list (string * Signal)) :
  (forall n, 0 <= ns_of signals n) -> 0 <= base signals.
Proof.
  intros H. apply Qsum_nonneg. apply Forall_forall. intros x Hx.
  apply in_map_iff in Hx. destruct Hx as (nw & <- & Hnw).
  apply Qmult_le_0_compat; [apply H|apply weights_nonneg; assumption].
Qed.

Lemma base_mono (s1 s2 : list (string * Signal)) :
  (forall n, ns_of s1 n <= ns_of s2 n) -> base s1 <= base s2.
Proof.
  intros H. apply Qsum_map_le. intros nw Hnw.
  apply Qmult_le_compat_r; [apply H|apply weights_nonneg; assumption].
Qed.

Lemma bonus_sum_nonneg (f : string -> Q) : 0 <= bonus_sum f.
Proof.
  apply Qsum_nonneg. apply Forall_forall. intros x Hx.
  apply in_map_iff in Hx. destruct Hx as (b & <- & Hb).
  apply filter_In in Hb. apply bonuses_nonneg. tauto.
Qed.

Lemma bonus_sum_mono (f g : string -> Q) :
  (forall s, f s <= g s) -> bonus_sum f <= bonus_sum g.
Proof.
  intros H. apply filtered_sum_le; [apply bonuses_nonneg| |lra].
  intros b _. unfold bonus_applies. rewrite !forallb_forall.
  intros Hf s Hs. specialize (Hf s Hs). qbool. apply Qle_bool_iff.
  specialize (H s). lra.
Qed.

Lemma penalty_range (p : Q) : 0 <= penalty_sum p /\ penalty_sum p <= 1.
Proof.
  unfold penalty_sum. destruct (Qlt_bool 15 p); split; discriminate.
Qed.

Lemma product_mono (b1 b2 k1 k2 p : Q) :
  0 <= b1 -> b1 <= b2 -> 0 <= k1 -> k1 <= k2 -> 0 <= p -> p <= 1 ->
  b1 * (1 + k1) * (1 - p) <= b2 * (1 + k2) * (1 - p).
Proof.
  intros. apply Qmult_le_compat_r; [|lra].
  apply Qle_trans with (b1 * (1 + k2)).
  - rewrite !(Qmult_comm b1). apply Qmult_le_compat_r; lra.
  - apply Qmult_le_compat_r; lra.
Qed.

Lemma composite_rounded_mono (s1 s2 : list (string * Signal)) (p : Q) :
  (forall n, 0 <= ns_of s1 n) ->
  (forall n, ns_of s1 n <= ns_of s2 n) ->
  composite_rounded s1 p <= composite_rounded s2 p.
Proof.
  intros H0 H. unfold composite_rounded.
  apply pyround_mono, clamp_mono.
  destruct (penalty_range p).
  apply product_mono; try assumption.
  - apply base_nonneg; assumption.
  - apply base_mono; assumption.
  - apply bonus_sum_nonneg.
  - apply bonus_sum_mono. intros s. apply pyround_mono, H.
Qed.

(** The loops of [score] compute the sums of the specification, with the
    bonus conditions read on the rounded scores. *)
Lemma final_score_eq (signals : list (string * Signal)) (p : Q) :
  final_score signals p ==
  clamp (base signals * (1 + bonus_sum (fun s => pyround (ns_of signals s) 1))
         * (1 - penalty_sum p)) 0 100.
Proof.
  unfold final_score, base, bonus_sum, penalty_sum, bonus_applies.
  cbn [weigh SIGNAL_WEIGHTS assoc_set String.eqb Ascii.eqb Bool.eqb fst snd map].
  cbn [add_bonuses INTERACTION_BONUSES forallb ib_signals ib_min_score ib_bonus ib_name
       get0 assoc_get String.eqb Ascii.eqb Bool.eqb filter map app].
  unfold EXTENDED_PRICE_THRESHOLD_PCT, EXTENDED_PRICE_PENALTY.
  repeat match goal with
  | |- context [if (?a && (?b && (?c && true))) then _ else _] =>
      destruct (a && (b && (c && true)))
  end;
  cbn [add_bonuses map filter Qsum fold_left];
  destruct (Qlt_bool 15 p); unfold clamp;
  apply Q.max_compat; try reflexivity; apply Q.min_compat; try reflexivity; ring.
Qed.
End ScorerFacts.

Module ScoreFacts.
Import Helpers Database Scorer ScorerSpec HelpersFacts ScorerFacts.

Lemma score_fields (db : DB) (now : Q) (symbol : string)
      (signals : list (string * Signal)) (p : Q) :
  composite_score (snd (score db now symbol signals p))
    = pyround (final_score signals p) 1 /\
  classification (snd (score db now symbol signals p))
    = classify_score (final_score signals p) /\
  exists row,
    score_history (fst (score db now symbol signals p)) = score_history db ++ [row] /\
    sc_symbol row = symbol /\
    sc_composite_score row = final_score signals p /\
    sc_classification row = classify_score (final_score signals p).
Proof.
  unfold score, final_score.
  destruct (weigh signals SIGNAL_WEIGHTS ([], [], 0)) as [[ss w] b].
  destruct (add_bonuses ss INTERACTION_BONUSES ([], 0)) as [bn bm].
  destruct (Qlt_bool EXTENDED_PRICE_THRESHOLD_PCT p); simpl;
    (split; [reflexivity|]); (split; [reflexivity|]);
    eexists; repeat split; reflexivity.
Qed.

Lemma composite_score_eq (db : DB) (now : Q) (symbol : string)
      (signals : list (string * Signal)) (p : Q) :
  composite_score (snd (score db now symbol signals p)) = composite_rounded signals p.
Proof.
  destruct (score_fields db now symbol signals p) as [-> _].
  unfold composite_rounded. apply pyround_Qeq, final_score_eq.
Qed.

Lemma classify_score_spec (s : Q) :
  (classify_score s = CRITICAL <-> 78 <= s) /\
  (classify_score s = HIGH_ALERT <-> 62 <= s /\ s < 78) /\
  (classify_score s = WATCHLIST <-> 48 <= s /\ s < 62) /\
  (classify_score s = MONITOR <-> 33 <= s /\ s < 48) /\
  (classify_score s = NONE <-> s < 33).
Proof.
  unfold classify_score, CRITICAL_THRESHOLD, HIGH_ALERT_THRESHOLD,
    WATCHLIST_THRESHOLD, MONITOR_THRESHOLD.
  destruct (Qle_bool 78 s) eqn:C1; [|destruct (Qle_bool 62 s) eqn:C2;
    [|destruct (Qle_bool 48 s) eqn:C3; [|destruct (Qle_bool 33 s) eqn:C4]]];
    qbool; repeat split; intros; try discriminate; try reflexivity; try lra.
Qed.

End ScoreFacts.

(** C1, as the code has it.  The composite score returned by [score] is
    [clamp(base * (1 + bonus_sum) * (1 - penalty_sum), 0, 100)] rounded to
    one decimal, where [base] is the weight-weighted sum of the signal
    scores, [bonus_sum] adds each interaction bonus whose listed signals,
    rounded to one decimal, all meet its minimum score, and [penalty_sum]
    is 0.40 exactly when [price_change_7d] exceeds 15; and it is monotonic
    non-decreasing in any single signal's normalized score, the other
    signals and [price_change_7d] held fixed. *)
Theorem score_composite_rounded_and_monotone :
  (forall db now symbol signals p,
      Scorer.composite_score (snd (Scorer.score db now symbol signals p))
      == ScorerSpec.composite_rounded signals p) /\
  (forall db now symbol s1 s2 p name,
      (forall n, 0 <= Scorer.ns_of s1 n /\ Scorer.ns_of s1 n <= 100) ->
      (forall n, n <> name -> Scorer.ns_of s2 n == Scorer.ns_of s1 n) ->
      Scorer.ns_of s1 name <= Scorer.ns_of s2 name ->
      Scorer.ns_of s2 name <= 100 ->
      Scorer.composite_score (snd (Scorer.score db now symbol s1 p))
      <= Scorer.composite_score (snd (Scorer.score db now symbol s2 p))).
Proof.
  split.
  - intros. rewrite ScoreFacts.composite_score_eq. reflexivity.
  - intros db now symbol s1 s2 p name Hr Hsame Hle _.
    rewrite !ScoreFacts.composite_score_eq.
    apply ScorerFacts.composite_rounded_mono.
    + intros n. apply Hr.
    + intros n. destruct (String.string_dec n name) as [->|Hn]; [assumption|].
      rewrite (Hsame n Hn). lra.
Qed.

Lemma score_composite_rounded_and_monotone_witness :
  let s1 := Scorer.signals_of_scores
              [("oi_surge", 40); ("funding_rate", 50); ("volatility_compression", 60)]%string in
  let s2 := Scorer.signals_of_scores
              [("oi_surge", 45); ("funding_rate", 50); ("volatility_compression", 60)]%string in
  Scorer.composite_score (snd (Scorer.score Database.empty_db 0 "BTC" s1 0))
  <= Scorer.composite_score (snd (Scorer.score Database.empty_db 0 "BTC" s2 0)).
Proof.
  intros s1 s2.
  apply (proj2 score_composite_rounded_and_monotone Database.empty_db 0 "BTC"%string
           s1 s2 0 "oi_surge"%string).
  - intros n. unfold s1, Scorer.ns_of, Scorer.signals_of_scores. simpl.
    repeat (destruct (String.eqb n _); [simpl; split; discriminate|]).
    simpl. split; discriminate.
  - intros n Hn. unfold s1, s2, Scorer.ns_of, Scorer.signals_of_scores. simpl.
    destruct (String.eqb n "oi_surge") eqn:E.
    + apply String.eqb_eq in E. contradiction.
    + reflexivity.
  - vm_compute. discriminate.
  - vm_compute. discriminate.
Defined.

(** C1 as stated fails: with [oi_surge = 0.5] and the eight other signals
    at 0, the formula gives 0.09 and [score] returns 0.1. *)
Lemma score_not_unrounded_counterexample :
  let signals := Scorer.signals_of_scores
    [("oi_surge", 1 # 2); ("funding_rate", 0); ("liquidation_leverage", 0);
     ("cross_exchange_volume", 0); ("depth_imbalance", 0);
     ("volume_price_decouple", 0); ("volatility_compression", 0);
     ("long_short_ratio", 0); ("futures_spot_divergence", 0)]%string in
  ScorerSpec.composite_as_stated signals 0 == 9 # 100 /\
  Scorer.composite_score (snd (Scorer.score Database.empty_db 0 "BTC" signals 0)) == 1 # 10 /\
  ~ Scorer.composite_score (snd (Scorer.score Database.empty_db 0 "BTC" signals 0))
    == ScorerSpec.composite_as_stated signals 0.
Proof.
  vm_compute. repeat split; discriminate.
Qed.

(** C2, as the code has it.  The classification of a [score] result is the
    threshold function, with exact boundaries 78/62/48/33, of the score
    before its final rounding, which is the score stored in the history;
    the returned [composite_score] is that score rounded to one decimal. *)
Theorem classification_of_unrounded_score :
  (forall db now symbol signals p,
      let r := snd (Scorer.score db now symbol signals p) in
      Scorer.classification r
        = Helpers.classify_score (Scorer.final_score signals p) /\
      Scorer.composite_score r
        = Helpers.pyround (Scorer.final_score signals p) 1 /\
      exists row,
        Database.score_history (fst (Scorer.score db now symbol signals p))
          = Database.score_history db ++ [row] /\
        Database.sc_composite_score row = Scorer.final_score signals p /\
        Database.sc_classification row
          = Helpers.classify_score (Database.sc_composite_score row)) /\
  (forall s,
      (Helpers.classify_score s = Helpers.CRITICAL <-> 78 <= s) /\
      (Helpers.classify_score s = Helpers.HIGH_ALERT <-> 62 <= s /\ s < 78) /\
      (Helpers.classify_score s = Helpers.WATCHLIST <-> 48 <= s /\ s < 62) /\
      (Helpers.classify_score s = Helpers.MONITOR <-> 33 <= s /\ s < 48) /\
      (Helpers.classify_score s = Helpers.NONE <-> s < 33)) /\
  Helpers.classify_score 78 = Helpers.CRITICAL /\
  Helpers.classify_score (779999 # 10000) = Helpers.HIGH_ALERT /\
  Helpers.classify_score 62 = Helpers.HIGH_ALERT /\
  Helpers.classify_score (619999 # 10000) = Helpers.WATCHLIST /\
  Helpers.classify_score 48 = Helpers.WATCHLIST /\
  Helpers.classify_score (479999 # 10000) = Helpers.MONITOR /\
  Helpers.classify_score 33 = Helpers.MONITOR /\
  Helpers.classify_score (329999 # 10000) = Helpers.NONE.
Proof.
  split; [|split; [apply ScoreFacts.classify_score_spec|repeat split]].
  intros db now symbol signals p r. subst r.
  destruct (ScoreFacts.score_fields db now symbol signals p)
    as (Hc & Hk & row & Hh & _ & Hs & Hl).
  split; [assumption|]. split; [assumption|].
  exists row. split; [assumption|]. split; [assumption|].
  rewrite Hs. assumption.
Qed.

(** C2 as stated fails: with [oi_surge] and [funding_rate] at 0 and the
    seven other signals at 95.32 the score is 61.958, classified
    WATCHLIST, and the returned [composite_score] is 62.0. *)
Lemma classification_boundary_counterexample :
  let signals := Scorer.signals_of_scores
    [("oi_surge", 0); ("funding_rate", 0); ("liquidation_leverage", 9532 # 100);
     ("cross_exchange_volume", 9532 # 100); ("depth_imbalance", 9532 # 100);
     ("volume_price_decouple", 9532 # 100); ("volatility_compression", 9532 # 100);
     ("long_short_ratio", 9532 # 100); ("futures_spot_divergence", 9532 # 100)]%string in
  let r := snd (Scorer.score Database.empty_db 0 "BTC" signals 0) in
  Scorer.composite_score r == 62 /\
  62 <= Scorer.composite_score r /\ Scorer.composite_score r < 78 /\
  Scorer.classification r = Helpers.WATCHLIST /\
  Scorer.classification r <> Helpers.HIGH_ALERT.
Proof.
  vm_compute. repeat split; discriminate.
Qed.

(** * Event detection *)

Module EventFacts.
Import Helpers Database Scorer.

Lemma previous_needs_two (db : DB) (symbol : string) :
  (length (filter (fun r => String.eqb (sc_symbol r) symbol) (score_history db)) <= 1)%nat ->
  get_previous_score db symbol = None.
Proof.
  unfold get_previous_score, scores_desc.
  destruct (filter _ (score_history db)) as [|a [|b l]]; simpl; intros H;
    try reflexivity. lia.
Qed.

Lemma detect_events_no_previous (db : DB) (now : Q) (symbol : string)
      (current : ScoreResult) (price : Q) :
  get_previous_score db symbol = None ->
  detect_events db now symbol current price = Ok [].
Proof. intros H. unfold detect_events. rewrite H. reflexivity. Qed.

End EventFacts.

(** C10.  When no score row was stored for the symbol before, be it that
    [detect_events] runs on the database as it is or, as in [_scan_token],
    right after [score] has stored the current row, it returns the empty
    event list, whatever the current price, the ticker history and the
    current score are. *)
Theorem detect_events_first_scan
        (db : Database.DB) (symbol : string) :
  filter (fun r => String.eqb (Database.sc_symbol r) symbol)
         (Database.score_history db) = [] ->
  (forall now current price,
      Scorer.detect_events db now symbol current price = Ok []) /\
  (forall now signals p now' price,
      Scorer.detect_events (fst (Scorer.score db now symbol signals p)) now' symbol
                           (snd (Scorer.score db now symbol signals p)) price
      = Ok []).
Proof.
  intros H. split.
  - intros now current price. apply EventFacts.detect_events_no_previous.
    apply EventFacts.previous_needs_two. rewrite H. simpl. lia.
  - intros now signals p now' price.
    apply EventFacts.detect_events_no_previous.
    apply EventFacts.previous_needs_two.
    destruct (ScoreFacts.score_fields db now symbol signals p)
      as (_ & _ & row & -> & Hs & _).
    rewrite filter_app, H. simpl. destruct (String.eqb _ _); simpl; lia.
Qed.

(** A first scan with a ticker history 10% below the current price and a
    current score of 60: no IGNITION, no UPGRADE, no SCORE_JUMP. *)
Lemma detect_events_first_scan_witness :
  let db :=
    {| Database.snapshots :=
         [ {| Database._timestamp := 1000; Database.s_symbol := "BTC";
              Database._exchange := "binance";
              Database.s_data_type := Database.DT_ticker;
              Database.s_data :=
                {| Database.p_open_interest := None;
                   Database.p_funding_rate := None;
                   Database.p_last := Some 100;
                   Database.p_quoteVolume := None;
                   Database.p_volume := None;
                   Database.p_long_short_ratio := None |} |} ];
       Database.signal_history := [];
       Database.score_history := [];
       Database.active_trades := ∅;
       Database.trade_history := [] |} in
  let signals := Scorer.signals_of_scores
    [("oi_surge", 60); ("funding_rate", 0); ("liquidation_leverage", 100);
     ("cross_exchange_volume", 100); ("depth_imbalance", 100);
     ("volume_price_decouple", 100); ("volatility_compression", 100);
     ("long_short_ratio", 100); ("futures_spot_divergence", 100)]%string in
  48 <= Scorer.composite_score (snd (Scorer.score db 2000 "BTC" signals 0)) /\
  Scorer.detect_events (fst (Scorer.score db 2000 "BTC" signals 0)) 2000 "BTC"
                       (snd (Scorer.score db 2000 "BTC" signals 0)) 110
  = Ok [].
Proof.
  intros db signals. split; [vm_compute; discriminate|].
  apply (proj2 (detect_events_first_scan db "BTC"%string eq_refl)).
Defined.

(** * Alert dispatch *)

Module DispatchFacts.
Import Helpers Database Scorer Scanner.

Lemma In_insert_by {A : Type} (le : A -> A -> bool) (x y : A) (l : list A) :
  In y (insert_by le x l) <-> y = x \/ In y l.
Proof.
  induction l as [|z l IH]; simpl.
  - intuition.
  - destruct (le x z); simpl; [intuition|]. rewrite IH. intuition.
Qed.

Lemma In_sort_by {A : Type} (le : A -> A -> bool) (y : A) (l : list A) :
  In y (sort_by le l) <-> In y l.
Proof.
  induction l as [|x l IH]; simpl; [tauto|].
  rewrite In_insert_by, IH. intuition.
Qed.

Lemma In_collect_acc (threshold : Q) (completed : list (Exc (option ScanResult)))
      (r : ScanResult) :
  forall acc,
    In r (fold_left
            (fun results f =>
               match f with
               | Ok (Some r) =>
                   if Qle_bool threshold (composite_score (sr_score r))
                   then results ++ [r] else results
               | _ => results
               end) completed acc)
    <-> In r acc \/ (In (Ok (Some r)) completed /\ passes threshold r).
Proof.
  unfold passes.
  induction completed as [|f completed IH]; intros acc; simpl; [tauto|].
  rewrite IH. destruct f as [[r'|]|e].
  - destruct (Qle_bool threshold (composite_score (sr_score r'))) eqn:C.
    + rewrite in_app_iff. simpl. qbool. split.
      * intros [[H|[->|[]]]|H]; [tauto| |tauto]. right. split; [left; reflexivity|assumption].
      * intros [H|[[H|H] Hp]]; [tauto| |tauto]. injection H as ->. tauto.
    + qbool. split; [tauto|].
      intros [H|[[H|H] Hp]]; [tauto| |tauto]. injection H as ->. lra.
  - split; [tauto|]. intros [H|[[H|H] Hp]]; [tauto|discriminate|tauto].
  - split; [tauto|]. intros [H|[[H|H] Hp]]; [tauto|discriminate|tauto].
Qed.

Lemma In_collect (threshold : Q) (completed : list (Exc (option ScanResult)))
      (r : ScanResult) :
  In r (collect_results threshold completed)
  <-> In (Ok (Some r)) completed /\ passes threshold r.
Proof.
  unfold collect_results. rewrite In_collect_acc. simpl. tauto.
Qed.

Lemma In_notify (env : Env) (h : nat) (a b : Alert) :
  In (h, a) (notify env b) <-> In h (alert_handlers env) /\ a = b.
Proof.
  unfold notify. rewrite in_map_iff. split.
  - intros (h' & E & H). injection E as -> ->. tauto.
  - intros [H ->]. exists h. tauto.
Qed.

Lemma In_send_alerts_event (env : Env) (results : list ScanResult) (h : nat) (e : Event) :
  In (h, send_event e) (_send_alerts env results)
  <-> In h (alert_handlers env) /\ exists r, In r results /\ In e (sr_events r).
Proof.
  unfold _send_alerts. rewrite in_flat_map. split.
  - intros (r & Hr & H). apply in_app_iff in H. destruct H as [H|H].
    + destruct (is_alert_class _); [|contradiction].
      apply In_notify in H. destruct H as [_ H]. discriminate.
    + apply in_flat_map in H. destruct H as (e' & He & H).
      apply In_notify in H. destruct H as [Hh H]. injection H as ->.
      split; [assumption|]. exists r. tauto.
  - intros (Hh & r & Hr & He). exists r. split; [assumption|].
    apply in_app_iff. right. apply in_flat_map. exists e. split; [assumption|].
    apply In_notify. tauto.
Qed.

Lemma In_send_alerts_signal (env : Env) (results : list ScanResult) (h : nat)
      (r : ScanResult) :
  In (h, send_signal_alert r) (_send_alerts env results)
  <-> In h (alert_handlers env) /\ In r results /\
      is_alert_class (classification (sr_score r)) = true.
Proof.
  unfold _send_alerts. rewrite in_flat_map. split.
  - intros (r' & Hr & H). apply in_app_iff in H. destruct H as [H|H].
    + destruct (is_alert_class (classification (sr_score r'))) eqn:C; [|contradiction].
      apply In_notify in H. destruct H as [Hh H]. injection H as ->. tauto.
    + apply in_flat_map in H. destruct H as (e' & He & H).
      apply In_notify in H. destruct H as [_ H]. discriminate.
  - intros (Hh & Hr & C). exists r. split; [assumption|].
    apply in_app_iff. left. rewrite C. apply In_notify. tauto.
Qed.

End DispatchFacts.

(** C9, as the code has it.  In a scan cycle the alert sinks receive the
    events of exactly those scanned tokens whose returned composite score
    reaches the alert threshold, whatever their classification; and they
    receive a signal alert for exactly those of these tokens that are
    classified WATCHLIST, HIGH_ALERT or CRITICAL. *)
Theorem alerts_dispatched_above_threshold
        (env : Scanner.Env) (completed : list (Exc (option Scanner.ScanResult))) :
  let results :=
    sort_by (fun a b =>
               Qle_bool (Scorer.composite_score (Scanner.sr_score b))
                        (Scorer.composite_score (Scanner.sr_score a)))
            (Scanner.collect_results (Scanner.alert_threshold env) completed) in
  let sent := Scanner._send_alerts env results in
  (forall h e,
      In (h, Scanner.send_event e) sent <->
      In h (Scanner.alert_handlers env) /\
      exists r, In (Ok (Some r)) completed /\
                Scanner.alert_threshold env
                  <= Scorer.composite_score (Scanner.sr_score r) /\
                In e (Scanner.sr_events r)) /\
  (forall h r,
      In (h, Scanner.send_signal_alert r) sent <->
      In h (Scanner.alert_handlers env) /\
      In (Ok (Some r)) completed /\
      Scanner.alert_threshold env <= Scorer.composite_score (Scanner.sr_score r) /\
      (Scorer.classification (Scanner.sr_score r) = Helpers.WATCHLIST \/
       Scorer.classification (Scanner.sr_score r) = Helpers.HIGH_ALERT \/
       Scorer.classification (Scanner.sr_score r) = Helpers.CRITICAL)).
Proof.
  intros results sent. subst results sent. split.
  - intros h e. rewrite DispatchFacts.In_send_alerts_event. split.
    + intros (Hh & r & Hr & He). apply DispatchFacts.In_sort_by in Hr.
      apply DispatchFacts.In_collect in Hr. split; [assumption|].
      exists r. unfold Scanner.passes in Hr. tauto.
    + intros (Hh & r & Hr & Hp & He). split; [assumption|]. exists r.
      split; [|assumption]. apply DispatchFacts.In_sort_by, DispatchFacts.In_collect.
      split; assumption.
  - intros h r. rewrite DispatchFacts.In_send_alerts_signal.
    rewrite DispatchFacts.In_sort_by, DispatchFacts.In_collect.
    unfold Scanner.passes, Scanner.is_alert_class.
    destruct (Scorer.classification (Scanner.sr_score r)); split;
      intros (Hh & H); repeat split; try tauto;
      try (destruct H as (_ & _ & [H|[H|H]]); discriminate);
      try (destruct H as (? & H); discriminate).
Qed.

(** C9 as stated fails: a token scored 40 (MONITOR) whose scan detected an
    UPGRADE from NONE is dropped by the threshold filter of [run_once]
    (threshold 48), and its event reaches no handler. *)
Lemma event_below_threshold_counterexample :
  let env := {| Scanner.alert_handlers := [0%nat]; Scanner.alert_threshold := 48;
                Scanner.now := 0; Scanner._live_price := fun _ => None |} in
  let e := Scorer.UPGRADE "BTC" Helpers.NONE Helpers.MONITOR 40 in
  let r := {| Scanner.sr_symbol := "BTC";
              Scanner.sr_score :=
                {| Scorer.composite_score := 40;
                   Scorer.classification := Helpers.MONITOR;
                   Scorer.base_score := 40;
                   Scorer.signal_scores := [];
                   Scorer.weighted_contributions := [];
                   Scorer.bonuses_applied := [];
                   Scorer.penalties_applied := [];
                   Scorer.bonus_total := 0;
                   Scorer.penalty_total := 0 |};
              Scanner.sr_current_price := 100;
              Scanner.sr_events := [e] |} in
  In e (Scanner.sr_events r) /\
  snd (fst (Scanner.run_once env (Database.empty_db, []) [Ok (Some r)])) = [].
Proof.
  split; [left; reflexivity|]. vm_compute. reflexivity.
Qed.

(** * The stop loss of the levels calculator *)

Module LevelsFacts.
Import Helpers Levels LevelsSpec HelpersFacts DatabaseFacts.

Lemma stop_pct_ok (price stop : Q) :
  0 < price -> stop_pct price stop = Ok ((price - stop) / price * 100).
Proof.
  intros H. unfold stop_pct. rewrite pydiv_ok by lra. reflexivity.
Qed.

(** A percentage bound on the distance is a bound on the stop. *)
Lemma pct_ge_iff (price stop m : Q) :
  0 < price ->
  (m <= (price - stop) / price * 100 <-> stop <= price * (1 - m / 100)).
Proof.
  intros H.
  assert (E : (price - stop) / price * 100 == (100 * (price - stop)) / price)
    by (field; lra).
  rewrite E. split; intros L.
  - apply (Qmult_le_compat_r _ _ price) in L; [|lra].
    assert (E2 : 100 * (price - stop) / price * price == 100 * (price - stop))
      by (field; lra).
    rewrite E2 in L. qlra.
  - apply Qle_shift_div_l; [assumption|]. qlra.
Qed.

Lemma pct_le_iff (price stop m : Q) :
  0 < price ->
  ((price - stop) / price * 100 <= m <-> price * (1 - m / 100) <= stop).
Proof.
  intros H.
  assert (E : (price - stop) / price * 100 == (100 * (price - stop)) / price)
    by (field; lra).
  rewrite E. split; intros L.
  - apply (Qmult_le_compat_r _ _ price) in L; [|lra].
    assert (E2 : 100 * (price - stop) / price * price == 100 * (price - stop))
      by (field; lra).
    rewrite E2 in L. qlra.
  - apply Qle_shift_div_r; [assumption|]. qlra.
Qed.

Lemma bid_buckets_ok (bids : list (Q * Q)) (price floor bs : Q) :
  ~ bs == 0 ->
  forall buckets, exists out, bid_buckets bids price floor bs buckets = Ok out.
Proof.
  intros H. induction bids as [|[bp ba] bids IH]; intros buckets; simpl.
  - eexists. reflexivity.
  - destruct (Qlt_bool bp floor || Qle_bool price bp); [apply IH|].
    rewrite pydiv_ok by assumption. simpl. apply IH.
Qed.

Lemma bid_cluster_ok (bids : list (Q * Q)) (price depth : Q) :
  0 < price -> exists o, _bid_cluster bids price depth = Ok o.
Proof.
  intros H. unfold _bid_cluster.
  destruct (bid_buckets_ok bids price (price * (1 - depth / 100)) (price * (5 # 1000)))
    with (buckets := @nil (Z * Bucket)) as [out ->].
  { intros E. qlra. }
  simpl. destruct out as [|kb rest]; [eexists; reflexivity|].
  destruct (Qlt_bool 0 _) eqn:C.
  - qbool. rewrite pydiv_ok by lra. eexists. reflexivity.
  - eexists. reflexivity.
Qed.

Lemma swing_low_ok (price : Q) (candles : list Candle) :
  0 < price -> exists o, swing_low price candles = Ok o /\ pct_of price o.
Proof.
  intros H. unfold swing_low.
  destruct (Nat.leb 12 (length candles)); [|exists None; split; [reflexivity|exact I]].
  destruct (filter _ _) as [|l ls]; [exists None; split; [reflexivity|exact I]|].
  rewrite stop_pct_ok by assumption. simpl.
  eexists. split; reflexivity.
Qed.

Lemma ob_support_ok (price : Q) (ob : OrderBook) :
  0 < price -> exists o, ob_support price ob = Ok o /\ pct_of price o.
Proof.
  intros H. unfold ob_support.
  destruct (bids ob) as [|b bs]; [exists None; split; [reflexivity|exact I]|].
  destruct (bid_cluster_ok (b :: bs) price 10 H) as [o ->]. simpl.
  destruct o as [[sp sv]|]; [|exists None; split; [reflexivity|exact I]].
  rewrite stop_pct_ok by assumption. simpl.
  eexists. split; reflexivity.
Qed.

(** The candidates of the two optional methods under their band test. *)
Lemma banded_filter (m : Method) (o : option (Q * Q)) :
  banded m o = filter (fun c => in_band (cand_pct c)) (as_candidate m o).
Proof.
  destruct o as [[s p]|]; [|reflexivity]. simpl. unfold cand_pct. simpl.
  destruct (in_band p); reflexivity.
Qed.

Lemma filter_twice {A : Type} (f g : A -> bool) (l : list A) :
  filter f (filter g l) = filter (fun x => g x && f x) l.
Proof.
  induction l as [|x l IH]; [reflexivity|]. simpl.
  destruct (g x); simpl; [destruct (f x)|]; rewrite IH; reflexivity.
Qed.

Lemma pymax_by_skip_head {A : Type} (key : A -> Q) (a c : A) (cs : list A) :
  key a < key c -> pymax_by key a (c :: cs) = pymax_by key c cs.
Proof.
  intros H. unfold pymax_by. simpl.
  assert (C : Qlt_bool (key a) (key c) = true) by (apply Qlt_bool_iff; assumption).
  rewrite C. reflexivity.
Qed.

Section Choice.
Variables price atr : Q.
Hypothesis Hprice : 0 < price.

Lemma code_test_band (c : Candidate) :
  in_band (cand_pct c) && far_enough price (atr * 1) c = valid price atr c.
Proof using Type.
  unfold far_enough, valid, in_band.
  assert (E : Qle_bool (atr * 1) (price - cand_stop c)
              = Qle_bool atr (price - cand_stop c)).
  { destruct (Qle_bool atr _) eqn:C; qbool.
    - apply Qle_bool_iff. lra.
    - apply Qle_bool_false. lra. }
  rewrite E.
  destruct (Qle_bool MIN_STOP_PCT _), (Qle_bool _ MAX_STOP_PCT),
    (Qle_bool atr _); reflexivity.
Qed.

(** The code tests the band on the swing-low and support candidates only,
    and the lower bound alone on the ATR candidate; the selection is the
    one of the specification all the same. *)
Lemma choose_agrees (atr_c : Candidate) (swing sup : option (Q * Q)) :
  pct_consistent price atr_c -> pct_of price swing -> pct_of price sup ->
  match filter (far_enough price (atr * 1)) (atr_c :: banded M_swing_low swing ++ banded M_support sup) with
  | c :: cs => pymax_by cand_stop c cs
  | [] => atr_c
  end = choose price atr atr_c swing sup.
Proof using Hprice.
  intros Ha Hs Ho. unfold choose.
  set (R := as_candidate M_swing_low swing ++ as_candidate M_support sup).
  assert (HR : forall c, In c R -> pct_consistent price c).
  { intros c Hc. subst R. apply in_app_iff in Hc.
    destruct Hc as [Hc|Hc]; [destruct swing as [[s p]|]|destruct sup as [[s p]|]];
      simpl in Hc; try contradiction; destruct Hc as [<-|[]]; assumption. }
  assert (EV : filter (far_enough price (atr * 1)) (banded M_swing_low swing ++ banded M_support sup)
               = filter (valid price atr) R).
  { rewrite !banded_filter, <- filter_app, filter_twice.
    apply filter_ext. intros c. apply code_test_band. }
  cbn [filter]. rewrite EV.
  destruct (valid price atr atr_c) eqn:Va.
  - assert (Ca : far_enough price (atr * 1) atr_c = true).
    { rewrite <- code_test_band in Va. apply andb_true_iff in Va. tauto. }
    rewrite Ca. reflexivity.
  - destruct (far_enough price (atr * 1) atr_c) eqn:Ca; [|reflexivity].
    (* the ATR stop passes the code's test and lies beyond the band *)
    assert (Hup : cand_stop atr_c < price * (1 - MAX_STOP_PCT / 100)).
    { rewrite <- code_test_band, Ca, andb_true_r in Va.
      unfold far_enough in Ca. unfold in_band in Va.
      apply andb_true_iff in Ca. destruct Ca as [_ Cl]. rewrite Cl in Va.
      simpl in Va. qbool. rewrite Ha in Va.
      apply Qnot_le_lt. intros L. apply (pct_le_iff price _ _ Hprice) in L. lra. }
    destruct (filter (valid price atr) R) as [|c cs] eqn:F; [reflexivity|].
    apply pymax_by_skip_head.
    assert (Hc : In c (filter (valid price atr) R)) by (rewrite F; left; reflexivity).
    apply filter_In in Hc. destruct Hc as [Hin Hv].
    unfold valid in Hv. qbool. rewrite (HR c Hin) in *.
    match goal with
    | H : _ <= MAX_STOP_PCT |- _ => apply (pct_le_iff price _ _ Hprice) in H
    end. lra.
Qed.

End Choice.

Lemma band_of_clamp (price s : Q) :
  0 < price ->
  within_band price
    (Qmax (price * (1 - MAX_STOP_PCT / 100))
          (Qmin (price * (1 - MIN_STOP_PCT / 100)) s)).
Proof.
  intros H. unfold within_band.
  set (lo := price * (1 - MAX_STOP_PCT / 100)).
  set (hi := price * (1 - MIN_STOP_PCT / 100)).
  assert (lo <= hi) by (subst lo hi; unfold MAX_STOP_PCT, MIN_STOP_PCT; qlra).
  split.
  - apply pct_ge_iff; [assumption|]. fold hi.
    apply Q.max_lub; [assumption|apply Q.le_min_l].
  - apply pct_le_iff; [assumption|]. fold lo. apply Q.le_max_l.
Qed.

Lemma pct_rounded_in_band (p : Q) :
  MIN_STOP_PCT <= p -> p <= MAX_STOP_PCT ->
  MIN_STOP_PCT <= pyround p 2 /\ pyround p 2 <= MAX_STOP_PCT.
Proof.
  intros H1 H2. split.
  - apply Qle_trans with (pyround MIN_STOP_PCT 2);
      [vm_compute; discriminate|apply pyround_mono; assumption].
  - apply Qle_trans with (pyround MAX_STOP_PCT 2);
      [apply pyround_mono; assumption|vm_compute; discriminate].
Qed.

End LevelsFacts.

(** C5, as the code has it.  For [price > 0] and [ATR > 0], [_calc_stop]
    returns a result; the candidate it picks is the one the specification
    describes: among the candidates (ATR multiple, swing low, order-book
    support) that are at least 1 x ATR below the price and whose stop
    percentage lies in [2.5, 15] the one with the maximum stop price, and
    the ATR stop when none is valid; the stop is clamped so that its
    distance from the price lies within [2.5%, 15%] of the price; the
    result carries this stop rounded to 8 decimals and its percentage
    rounded to 2 decimals, which lies within [2.5, 15]. *)
Theorem calc_stop_selection
        (price atr atr_pct : Q) (candles : list Levels.Candle)
        (ob : Levels.OrderBook) (score : Q) (cl : Helpers.Classification) :
  0 < price -> 0 < atr ->
  exists best fp cands atr_stop swing sup r,
    Levels.pick_stop price atr candles ob score
      = Ok (best, fp, cands, atr_stop, swing, sup) /\
    Levels._calc_stop price atr atr_pct candles ob score cl = Ok r /\
    best = LevelsSpec.choose price atr
             (Levels.M_atr, atr_stop, (price - atr_stop) / price * 100) swing sup /\
    fp = Qmax (price * (1 - Levels.MAX_STOP_PCT / 100))
              (Qmin (price * (1 - Levels.MIN_STOP_PCT / 100)) (Levels.cand_stop best)) /\
    LevelsSpec.within_band price fp /\
    Levels.st_method r = Levels.cand_method best /\
    Levels.st_price r = Helpers.pyround fp 8 /\
    Levels.st_pct r = Helpers.pyround ((price - fp) / price * 100) 2 /\
    Levels.MIN_STOP_PCT <= Levels.st_pct r /\
    Levels.st_pct r <= Levels.MAX_STOP_PCT.
Proof.
  intros Hp Ha.
  destruct (LevelsFacts.swing_low_ok price candles Hp) as (swing & Es & Hs).
  destruct (LevelsFacts.ob_support_ok price ob Hp) as (sup & Eo & Ho).
  unfold Levels._calc_stop, Levels.pick_stop.
  rewrite !LevelsFacts.stop_pct_ok by assumption. cbn [ebind].
  rewrite Es, Eo. cbn [ebind].
  rewrite !LevelsFacts.stop_pct_ok by assumption. cbn [ebind].
  assert (Ca : Qlt_bool 0 atr = true) by (apply Qlt_bool_iff; assumption).
  rewrite Ca, DatabaseFacts.pydiv_ok by lra. cbn [ebind].
  do 7 eexists. split; [reflexivity|]. split; [reflexivity|].
  split.
  { apply (LevelsFacts.choose_agrees price atr Hp); [reflexivity|assumption..]. }
  split; [reflexivity|].
  split; [apply LevelsFacts.band_of_clamp; assumption|].
  cbn [Levels.st_method Levels.st_price Levels.st_pct].
  split; [reflexivity|]. split; [reflexivity|]. split; [reflexivity|].
  apply LevelsFacts.pct_rounded_in_band;
    apply LevelsFacts.band_of_clamp; assumption.
Qed.

Lemma calc_stop_selection_witness :
  let candles :=
    map (fun l => {| Levels.c_ts := 0; Levels.c_open := 100; Levels.c_high := 101;
                     Levels.c_low := l; Levels.c_close := 100;
                     Levels.c_volume := 10 |})
        [96; 97; 95; 96; 98; 97; 96; 95; 96; 97; 98; 97] in
  let ob := {| Levels.bids := [(97, 5); (96, 50); (96 + (1 # 10), 40)];
               Levels.asks := [(101, 5)] |} in
  exists best fp cands atr_stop swing sup r,
    Levels.pick_stop 100 1 candles ob 70
      = Ok (best, fp, cands, atr_stop, swing, sup) /\
    Levels._calc_stop 100 1 1 candles ob 70 Helpers.HIGH_ALERT = Ok r /\
    best = LevelsSpec.choose 100 1
             (Levels.M_atr, atr_stop, (100 - atr_stop) / 100 * 100) swing sup /\
    fp = Qmax (100 * (1 - Levels.MAX_STOP_PCT / 100))
              (Qmin (100 * (1 - Levels.MIN_STOP_PCT / 100)) (Levels.cand_stop best)) /\
    LevelsSpec.within_band 100 fp /\
    Levels.st_method r = Levels.cand_method best /\
    Levels.st_price r = Helpers.pyround fp 8 /\
    Levels.st_pct r = Helpers.pyround ((100 - fp) / 100 * 100) 2 /\
    Levels.MIN_STOP_PCT <= Levels.st_pct r /\
    Levels.st_pct r <= Levels.MAX_STOP_PCT.
Proof.
  intros candles ob.
  apply (calc_stop_selection 100 1 1 candles ob 70 Helpers.HIGH_ALERT); reflexivity.
Defined.

(** C5 as stated fails on the returned price: for a price of 0.00000123
    and an ATR of 0.00000001 the clamped stop 0.00000119925 is returned
    rounded to 8 decimals, 0.0000012, which is 2.44% below the price. *)
Lemma stop_rounding_counterexample :
  let price := 123 # 100000000 in
  match Levels._calc_stop price (1 # 100000000) 1 []
                          {| Levels.bids := []; Levels.asks := [] |} 50
                          Helpers.WATCHLIST with
  | Ok r =>
      Levels.st_price r == 120 # 100000000 /\
      (price - Levels.st_price r) / price * 100 < Levels.MIN_STOP_PCT /\
      ~ LevelsSpec.within_band price (Levels.st_price r)
  | Raise _ => False
  end.
Proof.
  vm_compute. split; [reflexivity|]. split; [reflexivity|].
  intros [H _]. apply H. reflexivity.
Qed.

(** * The signal engine *)

Module SignalFacts.
Import Helpers Database Scorer Levels Signals HelpersFacts DatabaseFacts.












Lemma length_insert_by {A : Type} (le : A -> A -> bool) (x : A) (l : list A) :
  length (insert_by le x l) = S (length l).
Proof.
  induction l as [|y l IH]; simpl; [reflexivity|].
  destruct (le x y); simpl; [reflexivity|]. rewrite IH. reflexivity.
Qed.

Lemma length_sort_by {A : Type} (le : A -> A -> bool) (l : list A) :
  length (sort_by le l) = length l.
Proof.
  induction l as [|x l IH]; simpl; [reflexivity|].
  rewrite length_insert_by, IH. reflexivity.
Qed.














Lemma skipn_length_ge {A : Type} (n : nat) (l : list A) :
  length (skipn n l) = (length l - n)%nat.
Proof. apply length_skipn. Qed.


(** ** The nine signals *)












End SignalFacts.
(** * The signal engine without data *)

Module InsufficientFacts.
Import Helpers Database Scorer Levels Signals SignalsSpec HelpersFacts DatabaseFacts
       SignalFacts.







(** ** oi_surge *)







(** ** funding_rate, liquidation_leverage, depth_imbalance *)





(** ** Volumes of tickers and of stored tickers *)







(** ** cross_exchange_volume *)




(** ** volume_price_decouple *)




(** ** volatility_compression *)






(** ** long_short_ratio *)



(** ** futures_spot_divergence *)




(** * A reason is reported on insufficient data only *)











(** ** oi_surge *)







(** ** funding_rate, liquidation_leverage, depth_imbalance *)




(** ** cross_exchange_volume *)







(** ** volume_price_decouple *)



(** ** volatility_compression *)



(** ** long_short_ratio *)


(** ** futures_spot_divergence *)


(** * The nine results of [compute_all] *)




End InsufficientFacts.


(** * Further properties: the database *)

Module SortFacts.

Lemma sort_by_newest_last {A : Type} (le : A -> A -> bool) (x : A) (l : list A) :
  (forall y, In y l -> le y x = false) ->
  sort_by le (l ++ [x]) = x :: sort_by le l.
Proof.
  induction l as [|a l IH]; intros H; [reflexivity|].
  simpl. rewrite IH by (intros y Hy; apply H; right; assumption).
  simpl. rewrite (H a (or_introl eq_refl)). reflexivity.
Qed.

Lemma insert_by_sorted {A : Type} (le : A -> A -> bool) (x : A) (l : list A) :
  (forall a b, le a b = false -> le b a = true) ->
  sorted_by (fun a b => le a b = true) l ->
  sorted_by (fun a b => le a b = true) (insert_by le x l).
Proof.
  intros Htot. induction l as [|y l IH]; intros Hs; [exact I|].
  simpl. destruct (le x y) eqn:E.
  - split; assumption.
  - destruct l as [|z l].
    + simpl. split; [apply Htot; assumption|exact I].
    + destruct Hs as [Hyz Hs]. specialize (IH Hs). simpl in IH |- *.
      destruct (le x z) eqn:E2.
      * split; [apply Htot; assumption|]. exact IH.
      * split; [assumption|]. exact IH.
Qed.

Lemma sort_by_sorted {A : Type} (le : A -> A -> bool) (l : list A) :
  (forall a b, le a b = false -> le b a = true) ->
  sorted_by (fun a b => le a b = true) (sort_by le l).
Proof.
  intros Htot. induction l as [|x l IH]; [exact I|].
  simpl. apply insert_by_sorted; assumption.
Qed.

Lemma sorted_by_firstn {A : Type} (R : A -> A -> Prop) (n : nat) (l : list A) :
  sorted_by R l -> sorted_by R (firstn n l).
Proof.
  revert l. induction n as [|n IH]; intros l H; [exact I|].
  destruct l as [|a [|b l]]; [exact I|destruct n; exact I|].
  destruct H as [Hab H]. specialize (IH (b :: l) H).
  destruct n as [|n]; [exact I|]. split; [assumption|exact IH].
Qed.

Lemma sorted_by_impl {A : Type} (R S : A -> A -> Prop) (l : list A) :
  (forall a b, R a b -> S a b) -> sorted_by R l -> sorted_by S l.
Proof.
  intros H. induction l as [|a [|b l] IH]; intros Hs; try exact I.
  destruct Hs as [Hab Hs]. split; [apply H; assumption|apply IH; assumption].
Qed.

Lemma In_firstn_In {A : Type} (n : nat) (l : list A) (x : A) :
  In x (firstn n l) -> In x l.
Proof.
  revert l. induction n as [|n IH]; intros l H; [contradiction|].
  destruct l as [|a l]; [contradiction|].
  destruct H as [H|H]; [left; assumption|right; apply IH; assumption].
Qed.

Lemma Qle_bool_total (a b : Q) : Qle_bool a b = false -> Qle_bool b a = true.
Proof. intros H. qbool. apply Qle_bool_iff. lra. Qed.

End SortFacts.

Module QueryFacts.
Import Helpers Database DatabaseQueries DatabaseFacts SortFacts DispatchFacts.

Lemma get_snapshots_In (db : DB) (now : Q) (symbol : string) (dt : DataType)
      (hours : Q) (r : Snapshot) :
  In r (get_snapshots db now symbol dt hours) <->
  In r (snapshots db) /\ s_symbol r = symbol /\ s_data_type r = dt /\
  now - hours * 3600 < _timestamp r.
Proof.
  unfold get_snapshots. rewrite In_sort_by, filter_In.
  rewrite !andb_true_iff, String.eqb_eq, Qlt_bool_iff.
  assert (E : DataType_eqb (s_data_type r) dt = true <-> s_data_type r = dt)
    by (destruct (s_data_type r), dt; simpl; split; congruence).
  rewrite E. tauto.
Qed.

Lemma scores_desc_store_new (db : DB) (now : Q) (symbol : string) (c : Q)
      (cl : Classification) (ss : list (string * Q)) (b : list string) (p : list Q) :
  (forall r, In r (score_history db) -> sc_symbol r = symbol -> sc_timestamp r < now) ->
  scores_desc (store_score db now symbol c cl ss b p) symbol
  = {| sc_timestamp := now; sc_symbol := symbol; sc_composite_score := c;
       sc_classification := cl; sc_signal_scores := ss;
       sc_bonuses_applied := b; sc_penalties_applied := p |}
    :: scores_desc db symbol.
Proof.
  intros H. unfold scores_desc, store_score. cbn [score_history].
  rewrite filter_app. cbn [filter sc_symbol]. rewrite String.eqb_refl.
  apply sort_by_newest_last. intros y Hy. apply filter_In in Hy.
  destruct Hy as [Hin Hs]. apply String.eqb_eq in Hs.
  apply Qle_bool_false. cbn [sc_timestamp]. apply H; assumption.
Qed.

Lemma scores_desc_store_other (db : DB) (now : Q) (symbol other : string) (c : Q)
      (cl : Classification) (ss : list (string * Q)) (b : list string) (p : list Q) :
  other <> symbol ->
  scores_desc (store_score db now symbol c cl ss b p) other = scores_desc db other.
Proof.
  intros H. unfold scores_desc, store_score. cbn [score_history].
  rewrite filter_app. cbn [filter sc_symbol].
  destruct (String.eqb symbol other) eqn:E.
  - apply String.eqb_eq in E. congruence.
  - rewrite app_nil_r. reflexivity.
Qed.

End QueryFacts.

(** X1.  [get_snapshots] returns exactly the stored rows of the symbol and
    data type whose timestamp lies after the cutoff [now - hours * 3600],
    in non-decreasing order of timestamp. *)
Theorem get_snapshots_window_sorted
        (db : Database.DB) (now : Q) (symbol : string)
        (dt : Database.DataType) (hours : Q) :
  (forall r,
      In r (Database.get_snapshots db now symbol dt hours) <->
      In r (Database.snapshots db) /\ Database.s_symbol r = symbol /\
      Database.s_data_type r = dt /\ now - hours * 3600 < Database._timestamp r) /\
  sorted_by (fun a b => Database._timestamp a <= Database._timestamp b)
            (Database.get_snapshots db now symbol dt hours).
Proof.
  split; [intros r; apply QueryFacts.get_snapshots_In|].
  unfold Database.get_snapshots.
  eapply SortFacts.sorted_by_impl;
    [|apply SortFacts.sort_by_sorted; intros a b; apply SortFacts.Qle_bool_total].
  intros a b H. apply Qle_bool_iff. exact H.
Qed.

(** X2.  After [store_score] with a timestamp later than every stored row
    of the symbol, [get_latest_score] returns the new row and
    [get_previous_score] returns what [get_latest_score] returned before;
    the answers for every other symbol are unchanged. *)
Theorem store_score_shifts_latest
        (db : Database.DB) (now : Q) (symbol : string) (c : Q)
        (cl : Helpers.Classification) (ss : list (string * Q))
        (b : list string) (p : list Q) :
  (forall r, In r (Database.score_history db) ->
             Database.sc_symbol r = symbol -> Database.sc_timestamp r < now) ->
  let db' := Database.store_score db now symbol c cl ss b p in
  (exists row,
      Database.get_latest_score db' symbol = Some row /\
      Database.sc_timestamp row = now /\
      Database.sc_composite_score row = c /\
      Database.sc_classification row = cl) /\
  Database.get_previous_score db' symbol = Database.get_latest_score db symbol /\
  (forall other, other <> symbol ->
      Database.get_latest_score db' other = Database.get_latest_score db other /\
      Database.get_previous_score db' other = Database.get_previous_score db other).
Proof.
  intros H db'. subst db'.
  unfold Database.get_latest_score, Database.get_previous_score.
  rewrite (QueryFacts.scores_desc_store_new db now symbol c cl ss b p H).
  split; [|split].
  - eexists. split; [reflexivity|]. repeat split.
  - destruct (Database.scores_desc db symbol) as [|x l]; reflexivity.
  - intros other Ho.
    rewrite (QueryFacts.scores_desc_store_other db now symbol other c cl ss b p Ho).
    split; reflexivity.
Qed.

Lemma store_score_shifts_latest_witness :
  let db := Database.store_score Database.empty_db 10 "BTC" 40 Helpers.MONITOR [] [] [] in
  let db' := Database.store_score db 20 "BTC" 70 Helpers.HIGH_ALERT [] [] [] in
  Database.get_previous_score db' "BTC" = Database.get_latest_score db "BTC".
Proof.
  intros db db'.
  apply (store_score_shifts_latest db 20 "BTC"%string 70 Helpers.HIGH_ALERT [] [] []).
  intros r [<-|[]] _. reflexivity.
Defined.

(** X3.  Every row [get_top_scores] returns is a stored row whose score
    reaches [min_score] and which no row of the same symbol postdates;
    the rows come in non-increasing order of score and are at most
    [limit]. *)
Theorem get_top_scores_sound
        (db : Database.DB) (min_score : Q) (limit : nat) :
  let top := DatabaseQueries.get_top_scores db min_score limit in
  (forall r, In r top ->
      In r (Database.score_history db) /\
      min_score <= Database.sc_composite_score r /\
      forall r', In r' (Database.score_history db) ->
                 Database.sc_symbol r' = Database.sc_symbol r ->
                 Database.sc_timestamp r' <= Database.sc_timestamp r) /\
  sorted_by (fun a b => Database.sc_composite_score b <= Database.sc_composite_score a)
            top /\
  (length top <= limit)%nat.
Proof.
  intros top. subst top. unfold DatabaseQueries.get_top_scores. split; [|split].
  - intros r Hr. apply SortFacts.In_firstn_In in Hr.
    apply DispatchFacts.In_sort_by, filter_In in Hr. destruct Hr as [Hin Hc].
    apply andb_true_iff in Hc. destruct Hc as [Hl Hm].
    split; [assumption|]. split; [apply Qle_bool_iff; assumption|].
    intros r' Hr' Hs. unfold DatabaseQueries.is_latest_of_symbol in Hl.
    rewrite forallb_forall in Hl. specialize (Hl r' Hr').
    apply orb_true_iff in Hl. destruct Hl as [Hl|Hl].
    + apply negb_true_iff in Hl. rewrite Hs, String.eqb_refl in Hl. discriminate.
    + apply Qle_bool_iff. assumption.
  - apply SortFacts.sorted_by_firstn.
    eapply SortFacts.sorted_by_impl;
      [|apply SortFacts.sort_by_sorted; intros a b; apply SortFacts.Qle_bool_total].
    intros a b H. apply Qle_bool_iff. exact H.
  - apply firstn_le_length.
Qed.

(** X4.  [cleanup] never returns its count.  Whatever the tables hold and
    whether or not a transaction was open, the VACUUM it runs after its
    three DELETEs is refused inside the transaction the DELETEs opened, so
    the call raises [OperationalError] before the commit.  The connection
    is left inside that transaction, in which exactly the snapshot, signal
    and score rows whose timestamp is not before the cutoff
    [now - days * 86400] remain; the trade tables are untouched. *)
Theorem cleanup_raises_at_vacuum (conn : DatabaseQueries.Conn) (now days : Q) :
  let conn' := fst (DatabaseQueries.cleanup conn now days) in
  let db := DatabaseQueries.view conn in
  let db' := DatabaseQueries.view conn' in
  let cutoff := now - days * 86400 in
  snd (DatabaseQueries.cleanup conn now days)
  = DatabaseQueries.Raises DatabaseQueries.OperationalError /\
  DatabaseQueries.in_transaction conn' = true /\
  (forall r, In r (Database.snapshots db') <->
             In r (Database.snapshots db) /\ cutoff <= Database._timestamp r) /\
  (forall r, In r (Database.signal_history db') <->
             In r (Database.signal_history db) /\ cutoff <= Database.sg_timestamp r) /\
  (forall r, In r (Database.score_history db') <->
             In r (Database.score_history db) /\ cutoff <= Database.sc_timestamp r) /\
  Database.active_trades db' = Database.active_trades db /\
  Database.trade_history db' = Database.trade_history db.
Proof.
  intros conn' db db' cutoff. subst conn' db db' cutoff.
  unfold DatabaseQueries.cleanup, DatabaseQueries.delete_snapshots,
    DatabaseQueries.delete_signal_history, DatabaseQueries.delete_score_history,
    DatabaseQueries.vacuum.
  cbn [fst snd DatabaseQueries.view DatabaseQueries.in_transaction
       Database.snapshots Database.signal_history Database.score_history
       Database.active_trades Database.trade_history].
  assert (K : forall {A : Type} (ts : A -> Q) (l : list A) (r : A) (c : Q),
             In r (filter (fun r => negb (Qlt_bool (ts r) c)) l) <->
             In r l /\ c <= ts r).
  { intros A ts l r c. rewrite filter_In, negb_true_iff, Qlt_bool_false. tauto. }
  split; [reflexivity|]. split; [reflexivity|].
  split; [intros r; apply K|]. split; [intros r; apply K|].
  split; [intros r; apply K|]. split; reflexivity.
Qed.

Module TradeTableFacts.
Import Helpers Database DatabaseFacts.

Lemma set_trades_same (db : DB) : set_trades db (active_trades db) = db.
Proof. destruct db. reflexivity. Qed.

Lemma get_after_update_other (db : DB) (symbol other : string) (us : list Update) :
  other <> symbol ->
  get_active_trade (update_trade db symbol us) other = get_active_trade db other.
Proof.
  intros H. unfold get_active_trade, update_trade. simpl.
  apply lookup_alter_ne. congruence.
Qed.

Lemma get_after_close_other (db : DB) (now : Q) (symbol other : string) (x : Q)
      (reason : string) :
  other <> symbol ->
  get_active_trade (fst (close_trade db now symbol x reason)) other
  = get_active_trade db other.
Proof.
  intros H. unfold close_trade.
  destruct (get_active_trade db symbol) as [t|]; [|reflexivity].
  destruct (pydiv _ (entry_price t)); [|reflexivity].
  destruct (pydiv _ (entry_price t)); [|reflexivity].
  unfold get_active_trade. simpl. apply lookup_delete_ne. congruence.
Qed.

Lemma get_after_add_other (db : DB) (now : Q) (symbol other : string) (ep ps sl : Q) :
  other <> symbol ->
  get_active_trade (fst (add_trade db now symbol ep ps sl)) other
  = get_active_trade db other.
Proof.
  intros H. unfold get_active_trade, add_trade. simpl.
  apply lookup_insert_ne. congruence.
Qed.

End TradeTableFacts.

(** X5.  [add_trade], [update_trade] and [close_trade] on one symbol leave
    the active trade of every other symbol as it was. *)
Theorem trade_writes_touch_one_symbol
        (db : Database.DB) (now : Q) (symbol other : string) :
  other <> symbol ->
  (forall ep ps sl,
      Database.get_active_trade (fst (Database.add_trade db now symbol ep ps sl)) other
      = Database.get_active_trade db other) /\
  (forall us,
      Database.get_active_trade (Database.update_trade db symbol us) other
      = Database.get_active_trade db other) /\
  (forall x reason,
      Database.get_active_trade (fst (Database.close_trade db now symbol x reason)) other
      = Database.get_active_trade db other).
Proof.
  intros H. split; [|split]; intros.
  - apply TradeTableFacts.get_after_add_other. assumption.
  - apply TradeTableFacts.get_after_update_other. assumption.
  - apply TradeTableFacts.get_after_close_other. assumption.
Qed.

Lemma trade_writes_touch_one_symbol_witness :
  let db := fst (Database.add_trade Database.empty_db 0 "ETH" 2000 500 5) in
  Database.get_active_trade (fst (Database.close_trade db 60 "BTC" 1 "manual")) "ETH"
  = Database.get_active_trade db "ETH".
Proof.
  intros db.
  apply (proj2 (proj2 (trade_writes_touch_one_symbol db 60 "BTC"%string "ETH"%string
                                                     ltac:(discriminate)))).
Defined.

(** X6.  [add_trade] on a symbol that already has an active trade replaces
    it by a fresh one (full remaining fraction, no realized pnl, no
    take-profit hit, trail level 0) and writes no history row: what the
    replaced trade had realized is recorded nowhere. *)
Theorem add_trade_replaces_silently
        (db : Database.DB) (now : Q) (symbol : string) (ep ps sl : Q) :
  let db' := fst (Database.add_trade db now symbol ep ps sl) in
  (exists t,
      Database.get_active_trade db' symbol = Some t /\
      Database.remaining_fraction t = 1 /\ Database.realized_pnl t = 0 /\
      Database.tp1_hit t = false /\ Database.tp2_hit t = false /\
      Database.tp3_hit t = false /\ Database.tp4_hit t = false /\
      Database.last_notified_stop_pct t = 0 /\
      Database.entry_timestamp t = now) /\
  Database.trade_history db' = Database.trade_history db /\
  (forall now2 ep2 ps2 sl2,
      Database.active_trades (fst (Database.add_trade db' now2 symbol ep2 ps2 sl2))
      = Database.active_trades (fst (Database.add_trade db now2 symbol ep2 ps2 sl2))).
Proof.
  intros db'. subst db'. split; [|split].
  - eexists. split; [apply DatabaseFacts.get_after_add|]. simpl. repeat split.
  - reflexivity.
  - intros. unfold Database.add_trade. simpl. apply insert_insert_eq.
Qed.

(** X7.  On a symbol without an active trade [update_trade] changes
    nothing and [close_trade] returns [None] and changes nothing. *)
Theorem no_trade_no_change
        (db : Database.DB) (now : Q) (symbol : string) :
  Database.get_active_trade db symbol = None ->
  (forall us, Database.update_trade db symbol us = db) /\
  (forall x reason, Database.close_trade db now symbol x reason = (db, Ok None)).
Proof.
  intros H. split.
  - intros us. unfold Database.update_trade.
    rewrite alter_id' by exact H. apply TradeTableFacts.set_trades_same.
  - intros x reason. unfold Database.close_trade. rewrite H. reflexivity.
Qed.

Lemma no_trade_no_change_witness :
  Database.close_trade Database.empty_db 0 "BTC" 100 "manual"
  = (Database.empty_db, Ok None).
Proof.
  apply (proj2 (no_trade_no_change Database.empty_db 0 "BTC"%string eq_refl)).
Defined.

(** X8.  For an active trade with a non-zero entry price, [close_trade]
    returns a result whose [total_pnl] is the pnl of the history row it
    wrote, provided the position size is not zero; with a position size
    of zero the trade is removed and the history row written all the
    same, and the call then raises [ZeroDivisionError].  Closing at the
    entry price records exactly the realized pnl. *)
Theorem close_trade_outcomes
        (db : Database.DB) (now : Q) (symbol : string) (x : Q) (reason : string)
        (t : Database.Trade) :
  Database.get_active_trade db symbol = Some t ->
  ~ Database.entry_price t == 0 ->
  let out := Database.close_trade db now symbol x reason in
  exists row,
    Database.trade_history (fst out) = Database.trade_history db ++ [row] /\
    Database.get_active_trade (fst out) symbol = None /\
    Database.h_exit_price row = x /\ Database.h_exit_reason row = reason /\
    (x == Database.entry_price t ->
     Database.h_realized_pnl row == Database.realized_pnl t) /\
    (~ Database.position_size_usd t == 0 ->
     exists res, snd out = Ok (Some res) /\
                 Database.r_total_pnl res = Database.h_realized_pnl row /\
                 Database.r_exit_reason res = reason) /\
    (Database.position_size_usd t == 0 -> snd out = Raise ZeroDivisionError).
Proof.
  intros G Hne out. subst out. unfold Database.close_trade. rewrite G.
  rewrite !DatabaseFacts.pydiv_ok by assumption. cbn [fst snd].
  eexists. split; [reflexivity|].
  split; [unfold Database.get_active_trade; simpl; apply lookup_delete_eq|].
  cbn [Database.h_exit_price Database.h_exit_reason Database.h_realized_pnl].
  split; [reflexivity|]. split; [reflexivity|]. split; [|split].
  - intros E. rewrite E. field. assumption.
  - intros Hs. rewrite DatabaseFacts.pydiv_ok by assumption. cbn [ebind].
    eexists. split; [reflexivity|]. split; reflexivity.
  - intros Hs. rewrite DatabaseFacts.pydiv_zero by assumption. reflexivity.
Qed.

Lemma close_trade_outcomes_witness :
  let db := fst (Database.add_trade Database.empty_db 0 "BTC" 100 0 7) in
  let out := Database.close_trade db 60 "BTC" 120 "manual_close" in
  exists row,
    Database.trade_history (fst out) = Database.trade_history db ++ [row] /\
    Database.get_active_trade (fst out) "BTC" = None /\
    snd out = Raise ZeroDivisionError.
Proof.
  intros db out.
  destruct (close_trade_outcomes db 60 "BTC"%string 120 "manual_close"%string
              {| Database.entry_price := 100; Database.position_size_usd := 0;
                 Database.stop_loss_pct := 7;
                 Database.current_stop_price := 100 * (1 - 7 / 100);
                 Database.entry_timestamp := 0;
                 Database.tp1_hit := false; Database.tp2_hit := false;
                 Database.tp3_hit := false; Database.tp4_hit := false;
                 Database.remaining_fraction := 1; Database.realized_pnl := 0;
                 Database.last_notified_stop_pct := 0; Database.last_score := 0;
                 Database.metadata := None |})
    as (row & H1 & H2 & _ & _ & _ & _ & H3).
  - apply DatabaseFacts.get_after_add.
  - simpl. discriminate.
  - exists row. split; [exact H1|]. split; [exact H2|]. apply H3. reflexivity.
Defined.

(** * Further properties: the trade monitor *)

Module TickRowFacts.
Import Helpers Database Scorer Scanner ScannerTrades DatabaseFacts TradeTableFacts.

Lemma only_row_moved_refl (sym : string) (st : State) : only_row_moved sym st st.
Proof.
  repeat split; try reflexivity. exists []. rewrite app_nil_r. reflexivity.
Qed.

Lemma only_row_moved_trans (sym : string) (a b c : State) :
  only_row_moved sym a b -> only_row_moved sym b c -> only_row_moved sym a c.
Proof.
  intros (F1 & S1 & G1 & C1 & m1 & L1) (F2 & S2 & G2 & C2 & m2 & L2).
  split; [intros o Ho; rewrite F2, F1 by assumption; reflexivity|].
  split; [congruence|]. split; [congruence|]. split; [congruence|].
  exists (m1 ++ m2). rewrite L2, L1, app_assoc. reflexivity.
Qed.

Lemma only_row_moved_update (sym : string) (st : State) (us : list Update)
      (more : list (nat * Alert)) :
  only_row_moved sym st (update_trade (fst st) sym us, snd st ++ more).
Proof.
  split; [intros o Ho; apply get_after_update_other; assumption|].
  repeat split. exists more. reflexivity.
Qed.

Lemma take_profits_only_row (env : Env) (sym : string) (ep ps rem cp pcp : Q)
      (tps : list TakeProfitLevel) :
  forall st trade,
    only_row_moved sym st (fst (take_profits env sym ep ps rem cp pcp tps st trade)) /\
    trade_history (fst (fst (take_profits env sym ep ps rem cp pcp tps st trade)))
    = trade_history (fst st).
Proof.
  induction tps as [|tp tps IH]; intros st trade.
  - split; [apply only_row_moved_refl|reflexivity].
  - simpl. destruct (pct tp) as [tpct|]; [|apply IH].
    destruct (tp_flag trade (level tp)); [apply IH|].
    destruct (Qle_bool tpct pcp); [|apply IH].
    match goal with
    | |- context [take_profits _ _ _ _ _ _ _ tps ?s ?t] =>
        destruct (IH s t) as [M H]
    end.
    split.
    + eapply only_row_moved_trans; [|exact M]. apply only_row_moved_update.
    + rewrite H. reflexivity.
Qed.

Lemma close_trade_effect (db : DB) (now : Q) (sym : string) (x : Q) (reason : string) :
  let db' := fst (Database.close_trade db now sym x reason) in
  (forall other, other <> sym -> get_active_trade db' other = get_active_trade db other) /\
  snapshots db' = snapshots db /\
  signal_history db' = signal_history db /\
  score_history db' = score_history db /\
  (db' = db \/
   exists row, trade_history db' = trade_history db ++ [row] /\
               h_symbol row = sym /\ h_exit_price row = x /\
               h_exit_reason row = reason /\
               get_active_trade db' sym = None).
Proof.
  intros db'. subst db'.
  split; [intros o Ho; apply get_after_close_other; assumption|].
  unfold Database.close_trade.
  destruct (get_active_trade db sym) as [t|]; [|cbn [fst]; split; [reflexivity|split; [reflexivity|split; [reflexivity|left; reflexivity]]]].
  destruct (pydiv _ (entry_price t)); [|cbn [fst]; split; [reflexivity|split; [reflexivity|split; [reflexivity|left; reflexivity]]]].
  destruct (pydiv _ (entry_price t)); [|cbn [fst]; split; [reflexivity|split; [reflexivity|split; [reflexivity|left; reflexivity]]]].
  cbn [fst snapshots signal_history score_history trade_history].
  split; [reflexivity|split; [reflexivity|split; [reflexivity|]]].
  right. eexists. split; [reflexivity|].
  split; [reflexivity|split; [reflexivity|split; [reflexivity|]]].
  unfold get_active_trade. simpl. apply lookup_delete_eq.
Qed.

(** A closing branch of [_check_trade]: the database is the one
    [close_trade] leaves, the log is extended. *)
Lemma closing_branch (sym : string) (st : State) (now x : Q) (reason : string)
      (more : list (nat * Alert)) :
  let db' := fst (Database.close_trade (fst st) now sym x reason) in
  only_row_moved sym st (db', snd st ++ more) /\
  (trade_history db' = trade_history (fst st) \/
   exists row, trade_history db' = trade_history (fst st) ++ [row] /\
               h_symbol row = sym /\ h_exit_price row = x /\
               h_exit_reason row = reason /\
               get_active_trade db' sym = None).
Proof.
  intros db'. subst db'.
  destruct (close_trade_effect (fst st) now sym x reason) as (F & S & G & C & H).
  split.
  - split; [exact F|]. cbn [fst snd]. repeat split; try assumption.
    exists more. reflexivity.
  - destruct H as [E|H]; [left; rewrite E; reflexivity|right; exact H].
Qed.

Lemma check_trade_effect (env : Env) (st : State) (sym : string) (t : Trade) :
  let st' := fst (_check_trade env st sym t) in
  only_row_moved sym st st' /\
  (trade_history (fst st') = trade_history (fst st) \/
   exists row, trade_history (fst st') = trade_history (fst st) ++ [row] /\
               h_symbol row = sym /\
               (h_exit_reason row = "fully_exited"%string
                \/ h_exit_reason row = "stop_loss"%string) /\
               get_active_trade (fst st') sym = None).
Proof.
  intros st'. subst st'. unfold _check_trade.
  assert (Same : only_row_moved sym st st /\
                 (trade_history (fst st) = trade_history (fst st) \/
                  exists row, trade_history (fst st) = trade_history (fst st) ++ [row] /\
                              h_symbol row = sym /\
                              (h_exit_reason row = "fully_exited"%string
                               \/ h_exit_reason row = "stop_loss"%string) /\
                              get_active_trade (fst st) sym = None)).
  { split; [apply only_row_moved_refl|left; reflexivity]. }
  destruct (Qle_bool (remaining_fraction t) 0).
  { destruct (closing_branch sym st (now env) (entry_price t) "fully_exited" [])
      as [M H].
    destruct (Database.close_trade (fst st) (now env) sym (entry_price t) "fully_exited")
      as [db' r].
    cbn [fst snd] in *. rewrite app_nil_r in M. destruct st as [db lg].
    cbn [fst snd] in *. split; [exact M|].
    destruct H as [H|(row & H1 & H2 & _ & H4 & H5)]; [left; exact H|].
    right. exists row. tauto. }
  destruct (_live_price env sym) as [cp|]; [|exact Same].
  destruct (Qeq_bool cp 0); [exact Same|].
  destruct (pydiv (cp - entry_price t) (entry_price t)) as [q|e]; [|exact Same].
  destruct (Qle_bool cp (current_stop_price t)).
  { pose proof (fun more => closing_branch sym st (now env) cp "stop_loss" more) as CB.
    destruct (Database.close_trade (fst st) (now env) sym cp "stop_loss") as [db' r].
    cbn [fst snd] in CB.
    assert (K : forall more,
               only_row_moved sym st (db', snd st ++ more) /\
               (trade_history db' = trade_history (fst st) \/
                exists row, trade_history db' = trade_history (fst st) ++ [row] /\
                            h_symbol row = sym /\
                            (h_exit_reason row = "fully_exited"%string
                             \/ h_exit_reason row = "stop_loss"%string) /\
                            get_active_trade db' sym = None)).
    { intros more. destruct (CB more) as [M H]. split; [exact M|].
      destruct H as [H|(row & H1 & H2 & _ & H4 & H5)]; [left; exact H|].
      right. exists row. tauto. }
    destruct r as [[res|]|e]; cbn [fst snd].
    - apply K.
    - specialize (K []). rewrite app_nil_r in K. exact K.
    - specialize (K []). rewrite app_nil_r in K. exact K. }
  (* take profits, stop trail, degradation, status: updates of the row *)
  destruct (take_profits_only_row env sym (entry_price t) (position_size_usd t)
              (remaining_fraction t) cp (q * 100) TAKE_PROFIT_LEVELS st t) as [M1 H1].
  destruct (take_profits env sym (entry_price t) (position_size_usd t)
              (remaining_fraction t) cp (q * 100) TAKE_PROFIT_LEVELS st t)
    as [st1 trade1].
  cbn [fst snd] in M1, H1.
  destruct (stop_trail (entry_price t) (q * 100) STOP_LOSS_TRAIL
              (last_notified_stop_pct trade1, current_stop_price t)) as [nsp ssp].
  match goal with
  | |- context [get_latest_score (fst ?s2) sym] => set (st2 := s2)
  end.
  assert (M2 : only_row_moved sym st st2 /\
               trade_history (fst st2) = trade_history (fst st)).
  { subst st2. destruct (Qlt_bool _ nsp); [|split; assumption].
    split; [|exact H1].
    eapply only_row_moved_trans; [exact M1|]. apply only_row_moved_update. }
  clearbody st2.
  match goal with
  | |- context [update_trade (fst ?s3) sym [Set_metadata _]] => set (st3 := s3)
  end.
  assert (M3 : only_row_moved sym st st3 /\
               trade_history (fst st3) = trade_history (fst st)).
  { subst st3. destruct (get_latest_score (fst st2) sym); [|exact M2].
    destruct M2 as [M2 H2]. split; [|exact H2].
    eapply only_row_moved_trans; [exact M2|]. apply only_row_moved_update. }
  clearbody st3. destruct M3 as [M3 H3].
  destruct (Z.ltb _ _ && Z.ltb _ _); cbn [fst snd].
  - split; [|left; exact H3].
    eapply only_row_moved_trans; [exact M3|]. apply only_row_moved_update.
  - split; [exact M3|left; exact H3].
Qed.

Lemma tp_flag_but_rem (a b : Trade) (l : nat) :
  but_rem a = but_rem b -> tp_flag a l = tp_flag b l.
Proof.
  intros E.
  change (tp_flag (but_rem a) l = tp_flag (but_rem b) l).
  rewrite E. reflexivity.
Qed.

Lemma realized_but_rem (a b : Trade) :
  but_rem a = but_rem b -> realized_pnl a = realized_pnl b.
Proof.
  intros E. change (realized_pnl (but_rem a) = realized_pnl (but_rem b)).
  rewrite E. reflexivity.
Qed.

(** The loop over the levels writes to the row what the fold of
    [take_profit_row] computes, and the dict it carries along differs
    from the row in [remaining_fraction] only. *)
Lemma take_profits_row (env : Env) (sym : string) (ep ps rem cp pcp : Q)
      (tps : list TakeProfitLevel) :
  forall (st : State) (trade row : Trade),
    get_active_trade (fst st) sym = Some row ->
    but_rem row = but_rem trade ->
    let out := take_profits env sym ep ps rem cp pcp tps st trade in
    get_active_trade (fst (fst out)) sym
    = Some (fold_left (take_profit_row ps rem pcp) tps row) /\
    but_rem (fold_left (take_profit_row ps rem pcp) tps row) = but_rem (snd out).
Proof.
  induction tps as [|tp tps IH]; intros st trade row G A.
  - simpl. split; assumption.
  - cbn [take_profits fold_left]. unfold take_profit_row at 2 4. unfold newly_hit.
    rewrite (tp_flag_but_rem row trade (level tp) A).
    rewrite (realized_but_rem row trade A).
    destruct (pct tp) as [tpct|].
    + destruct (tp_flag trade (level tp)); cbn [negb andb]; [apply IH; assumption|].
      destruct (Qle_bool tpct pcp); [|apply IH; assumption].
      apply IH.
      * cbn [fst]. rewrite get_after_update, G. reflexivity.
      * revert A. unfold but_rem. destruct row, trade. cbn.
        intros A. injection A as -> -> -> -> -> -> -> -> -> -> -> -> ->.
        reflexivity.
    + rewrite andb_false_r. apply IH; assumption.
Qed.

(** The fold of [take_profit_row] leaves the columns of the other stages
    alone. *)
Lemma take_profit_rows_frame (ps rem pcp : Q) (tps : list TakeProfitLevel) :
  forall row,
    let row' := fold_left (take_profit_row ps rem pcp) tps row in
    entry_price row' = entry_price row /\
    position_size_usd row' = position_size_usd row /\
    current_stop_price row' = current_stop_price row /\
    last_notified_stop_pct row' = last_notified_stop_pct row /\
    entry_timestamp row' = entry_timestamp row /\
    last_score row' = last_score row /\
    metadata row' = metadata row.
Proof.
  induction tps as [|tp tps IH]; intros row; [cbn; tauto|].
  cbn [fold_left]. destruct (IH (take_profit_row ps rem pcp row tp))
    as (H1 & H2 & H3 & H4 & H5 & H6 & H7).
  cbn zeta. rewrite H1, H2, H3, H4, H5, H6, H7.
  unfold take_profit_row. destruct (newly_hit row pcp tp); cbn; tauto.
Qed.

(** The branch of [_check_trade] past the stop test: the row it leaves,
    up to the score and status columns, is the row of the take-profit
    rounds with the outcome of the trail loop written to it. *)
Lemma check_trade_main (env : Env) (st : State) (sym : string) (t : Trade) (cp : Q) :
  get_active_trade (fst st) sym = Some t ->
  0 < remaining_fraction t ->
  _live_price env sym = Some cp ->
  ~ cp == 0 ->
  ~ entry_price t == 0 ->
  current_stop_price t < cp ->
  let pcp := gain_pct t cp in
  let t1 := fold_left (take_profit_row (position_size_usd t) (remaining_fraction t) pcp)
                      TAKE_PROFIT_LEVELS t in
  let tr := stop_trail (entry_price t) pcp STOP_LOSS_TRAIL
                       (last_notified_stop_pct t, current_stop_price t) in
  let t2 := if Qlt_bool (last_notified_stop_pct t) (fst tr)
            then fold_left apply_update
                   [Set_current_stop_price (snd tr);
                    Set_last_notified_stop_pct (fst tr)] t1
            else t1 in
  snd (_check_trade env st sym t) = Ok tt /\
  exists t', get_active_trade (fst (fst (_check_trade env st sym t))) sym = Some t' /\
             but_score_status t' = but_score_status t2.
Proof.
  intros G Hr Hl Hc He Hs pcp t1 tr t2.
  unfold _check_trade.
  rewrite (proj2 (Qle_bool_false _ _) Hr), Hl, (proj2 (Qeq_bool_false _ _) Hc),
    (pydiv_ok _ _ He), (proj2 (Qle_bool_false _ _) Hs).
  fold (gain_pct t cp). fold pcp.
  destruct (take_profits_row env sym (entry_price t) (position_size_usd t)
              (remaining_fraction t) cp pcp TAKE_PROFIT_LEVELS st t t G eq_refl)
    as [G1 A1].
  destruct (take_profit_rows_frame (position_size_usd t) (remaining_fraction t) pcp
              TAKE_PROFIT_LEVELS t) as (_ & _ & _ & F4 & _).
  fold t1 in G1, A1, F4.
  destruct (take_profits env sym (entry_price t) (position_size_usd t)
              (remaining_fraction t) cp pcp TAKE_PROFIT_LEVELS st t)
    as [st1 trade1].
  cbn [fst snd] in G1, A1.
  assert (L1 : last_notified_stop_pct trade1 = last_notified_stop_pct t).
  { rewrite <- F4.
    change (last_notified_stop_pct (but_rem trade1)
            = last_notified_stop_pct (but_rem t1)).
    rewrite A1. reflexivity. }
  rewrite L1. fold tr. destruct tr as [nsp ssp] eqn:Etr. cbn [fst snd] in t2.
  match goal with
  | |- context [get_latest_score (fst ?s2) sym] => set (st2 := s2)
  end.
  assert (G2 : get_active_trade (fst st2) sym = Some t2).
  { subst st2 t2. destruct (Qlt_bool (last_notified_stop_pct t) nsp); [|exact G1].
    cbn [fst]. rewrite get_after_update, G1. reflexivity. }
  clearbody st2.
  match goal with
  | |- context [update_trade (fst ?s3) sym [Set_metadata _]] => set (st3 := s3)
  end.
  assert (G3 : exists t3, get_active_trade (fst st3) sym = Some t3 /\
                          but_score_status t3 = but_score_status t2).
  { subst st3. destruct (get_latest_score (fst st2) sym); [|exists t2; split; auto].
    eexists. cbn [fst]. rewrite get_after_update, G2. split; reflexivity. }
  clearbody st3. destruct G3 as (t3 & G3 & M3).
  destruct (Z.ltb _ _ && Z.ltb _ _); cbn [fst snd]; (split; [reflexivity|]).
  - eexists. rewrite get_after_update, G3. split; [reflexivity|].
    rewrite <- M3. reflexivity.
  - exists t3. split; assumption.
Qed.

(** What the later stages leave of the row of the take-profit rounds. *)
Lemma after_stages_fields (c : bool) (s n : Q) (t1 t' : Trade) :
  but_score_status t'
  = but_score_status
      (if c then fold_left apply_update
                  [Set_current_stop_price s; Set_last_notified_stop_pct n] t1
       else t1) ->
  (forall l, tp_flag t' l = tp_flag t1 l) /\
  remaining_fraction t' = remaining_fraction t1 /\
  realized_pnl t' = realized_pnl t1 /\
  current_stop_price t' = (if c then s else current_stop_price t1) /\
  last_notified_stop_pct t' = (if c then n else last_notified_stop_pct t1).
Proof.
  intros M. destruct c, t', t1; cbn in M;
    injection M as -> -> -> -> -> -> -> -> -> -> -> ->; cbn;
    (split; [intros [|[|[|[|[|l]]]]]; reflexivity|]); repeat split.
Qed.

(** The rounds over the configured levels. *)
Lemma take_profit_rows_configured (t : Trade) (pcp : Q) :
  let hits := filter (newly_hit t pcp) TAKE_PROFIT_LEVELS in
  let t1 := fold_left (take_profit_row (position_size_usd t) (remaining_fraction t) pcp)
                      TAKE_PROFIT_LEVELS t in
  (forall tp, In tp TAKE_PROFIT_LEVELS ->
              tp_flag t1 (level tp) = tp_flag t (level tp) || newly_hit t pcp tp) /\
  remaining_fraction t1
  = match hits with
    | [] => remaining_fraction t
    | _ :: _ => Qmax 0 (remaining_fraction t - (25 # 100))
    end /\
  realized_pnl t1
  == realized_pnl t
     + inject_Z (Z.of_nat (length hits))
       * ((25 # 100) * position_size_usd t * (pcp / 100)).
Proof.
  destruct t as [ep ps sl cs ts f1 f2 f3 f4 rem rp ln ls md].
  unfold TAKE_PROFIT_LEVELS, take_profit_row, newly_hit.
  cbn [fold_left filter level pct sell_fraction tp_flag tp1_hit tp2_hit tp3_hit
       tp4_hit remaining_fraction realized_pnl position_size_usd].
  destruct f1, f2, f3, (Qle_bool 15 pcp) eqn:E1, (Qle_bool 30 pcp) eqn:E2,
    (Qle_bool 50 pcp) eqn:E3;
    cbn; rewrite ?andb_false_r; cbn;
    (split; [intros tp [<-|[<-|[<-|[<-|[]]]]]; cbn;
                    rewrite ?E1, ?E2, ?E3, ?andb_false_r, ?orb_false_r; reflexivity
            |split; [reflexivity|field]]).
Qed.

(** The trail loop: the rung it ends on. *)
Lemma stop_trail_rung (ep pcp : Q) (rungs : list TrailRung) :
  forall nsp0 ssp0,
    let out := stop_trail ep pcp rungs (nsp0, ssp0) in
    nsp0 <= fst out /\
    (forall r, In r rungs -> price_move_pct r <= pcp -> stop_at_pct r <= fst out) /\
    (out = (nsp0, ssp0) \/
     exists r, In r rungs /\ price_move_pct r <= pcp /\ nsp0 < stop_at_pct r /\
               out = (stop_at_pct r, ep * (1 + stop_at_pct r / 100))).
Proof.
  induction rungs as [|tr rungs IH]; intros nsp0 ssp0.
  - cbn. split; [lra|]. split; [intros r []|left; reflexivity].
  - cbn [stop_trail].
    destruct (Qle_bool (price_move_pct tr) pcp && Qlt_bool nsp0 (stop_at_pct tr)) eqn:C.
    + qbool.
      destruct (IH (stop_at_pct tr) (ep * (1 + stop_at_pct tr / 100))) as (L & A & B).
      cbn zeta in *. split; [lra|]. split.
      * intros r [<-|Hin] Hm; [exact L|apply A; assumption].
      * right. destruct B as [E|(r & Hin & Hm & Hlt & E)].
        -- exists tr. split; [left; reflexivity|]. split; [assumption|].
           split; assumption.
        -- exists r. split; [right; assumption|]. split; [assumption|].
           split; [lra|assumption].
    + destruct (IH nsp0 ssp0) as (L & A & B). cbn zeta in *.
      split; [exact L|]. split.
      * intros r [<-|Hin] Hm; [|apply A; assumption].
        apply andb_false_iff in C. destruct C as [C|C].
        -- apply Qle_bool_false in C. lra.
        -- apply Qlt_bool_false in C. lra.
      * destruct B as [E|(r & Hin & Hm & Hlt & E)]; [left; exact E|].
        right. exists r. split; [right; assumption|]. tauto.
Qed.

(** The stop columns of the row after the main branch. *)
Lemma check_trade_trail (env : Env) (st : State) (sym : string) (t : Trade) (cp : Q) :
  get_active_trade (fst st) sym = Some t ->
  0 < remaining_fraction t ->
  _live_price env sym = Some cp ->
  ~ cp == 0 ->
  ~ entry_price t == 0 ->
  current_stop_price t < cp ->
  exists t', get_active_trade (fst (fst (_check_trade env st sym t))) sym = Some t' /\
    (forall r, In r STOP_LOSS_TRAIL -> price_move_pct r <= gain_pct t cp ->
               stop_at_pct r <= last_notified_stop_pct t') /\
    ((current_stop_price t' = current_stop_price t /\
      last_notified_stop_pct t' = last_notified_stop_pct t) \/
     exists r, In r STOP_LOSS_TRAIL /\ price_move_pct r <= gain_pct t cp /\
               last_notified_stop_pct t < stop_at_pct r /\
               last_notified_stop_pct t' = stop_at_pct r /\
               current_stop_price t' = entry_price t * (1 + stop_at_pct r / 100)).
Proof.
  intros G Hr Hl Hc He Hs.
  destruct (check_trade_main env st sym t cp G Hr Hl Hc He Hs) as (_ & t' & G' & M).
  exists t'. split; [exact G'|].
  apply after_stages_fields in M. destruct M as (_ & _ & _ & S & L).
  destruct (take_profit_rows_frame (position_size_usd t) (remaining_fraction t)
              (gain_pct t cp) TAKE_PROFIT_LEVELS t) as (_ & _ & F3 & F4 & _).
  cbn zeta in F3, F4. rewrite F3 in S. rewrite F4 in L. clear F3 F4.
  destruct (stop_trail_rung (entry_price t) (gain_pct t cp) STOP_LOSS_TRAIL
              (last_notified_stop_pct t) (current_stop_price t)) as (L0 & A & B).
  cbn zeta in L0, A, B.
  destruct (stop_trail (entry_price t) (gain_pct t cp) STOP_LOSS_TRAIL
              (last_notified_stop_pct t, current_stop_price t)) as [nsp ssp].
  cbn [fst snd] in *.
  destruct (Qlt_bool (last_notified_stop_pct t) nsp) eqn:C.
  - rewrite S, L. split; [exact A|].
    apply Qlt_bool_iff in C.
    destruct B as [E|(r & Hin & Hm & Hlt & E)].
    + injection E as E1 E2. rewrite E1 in C. lra.
    + injection E as -> ->. right. exists r. tauto.
  - rewrite S, L. apply Qlt_bool_false in C. split.
    + intros r Hin Hm. specialize (A r Hin Hm). lra.
    + left. split; reflexivity.
Qed.

End TickRowFacts.

(** X9.  A monitor check of the trade of one symbol leaves the trades of
    all other symbols and the snapshot, signal and score logs untouched
    and only extends the alert log; the trade history either stays as it
    is or gains exactly one row of that symbol, with exit reason
    "fully_exited" or "stop_loss", and then the trade is no longer
    active. *)
Theorem check_trade_is_local
        (env : Scanner.Env) (st : Scanner.State) (sym : string) (t : Database.Trade) :
  let st' := fst (Scanner._check_trade env st sym t) in
  ScannerTrades.only_row_moved sym st st' /\
  (Database.trade_history (fst st') = Database.trade_history (fst st) \/
   exists row,
     Database.trade_history (fst st') = Database.trade_history (fst st) ++ [row] /\
     Database.h_symbol row = sym /\
     (Database.h_exit_reason row = "fully_exited"%string
      \/ Database.h_exit_reason row = "stop_loss"%string) /\
     Database.get_active_trade (fst st') sym = None).
Proof. apply TickRowFacts.check_trade_effect. Qed.

(** X10.  A trade with a positive remaining fraction is left exactly as
    it is, and nothing is sent, when there is no live price, when the
    live price is 0, or when its entry price is 0; in the last case with
    a non-zero live price the check raises [ZeroDivisionError], so such a
    trade is never stopped out by the monitor. *)
Theorem check_trade_skips
        (env : Scanner.Env) (st : Scanner.State) (sym : string) (t : Database.Trade) :
  0 < Database.remaining_fraction t ->
  match Scanner._live_price env sym with
  | None => True
  | Some cp => cp == 0 \/ Database.entry_price t == 0
  end ->
  Scanner._check_trade env st sym t
  = (st, match Scanner._live_price env sym with
         | None => Ok tt
         | Some cp => if Qeq_bool cp 0 then Ok tt else Raise ZeroDivisionError
         end).
Proof.
  intros Hr H. unfold Scanner._check_trade.
  rewrite (proj2 (Qle_bool_false _ _) Hr).
  destruct (Scanner._live_price env sym) as [cp|]; [|reflexivity].
  destruct (Qeq_bool cp 0) eqn:C; [reflexivity|].
  apply Qeq_bool_false in C. destruct H as [H|H]; [contradiction|].
  rewrite (DatabaseFacts.pydiv_zero _ _ H). reflexivity.
Qed.

Lemma check_trade_skips_witness :
  let env := {| Scanner.alert_handlers := [0%nat]; Scanner.alert_threshold := 50;
                Scanner.now := 7200; Scanner._live_price := fun _ => Some 1 |} in
  let t := {| Database.entry_price := 0; Database.position_size_usd := 1000;
               Database.stop_loss_pct := 7; Database.current_stop_price := 0;
               Database.entry_timestamp := 0;
               Database.tp1_hit := false; Database.tp2_hit := false;
               Database.tp3_hit := false; Database.tp4_hit := false;
               Database.remaining_fraction := 1; Database.realized_pnl := 0;
               Database.last_notified_stop_pct := 0; Database.last_score := 0;
               Database.metadata := None |} in
  let st : Scanner.State := (Database.set_trades Database.empty_db {[ "BTC"%string := t ]}, []) in
  Scanner._check_trade env st "BTC" t = (st, Raise ZeroDivisionError).
Proof.
  intros env t st.
  apply (check_trade_skips env st "BTC"%string t); [reflexivity|].
  right. reflexivity.
Defined.

(** X11.  The stop test comes before the take-profit levels: when the
    live price is at or below the current stop, the trade is closed at
    the live price with reason "stop_loss", whatever take-profit level
    that price has reached; the row written to the history carries the
    realized pnl plus the pnl of the remaining fraction, and with a
    non-zero position size every handler is sent the close. *)
Theorem check_trade_stop_first
        (env : Scanner.Env) (st : Scanner.State) (sym : string) (t : Database.Trade)
        (cp : Q) :
  Database.get_active_trade (fst st) sym = Some t ->
  0 < Database.remaining_fraction t ->
  Scanner._live_price env sym = Some cp ->
  ~ cp == 0 ->
  ~ Database.entry_price t == 0 ->
  ~ Database.position_size_usd t == 0 ->
  cp <= Database.current_stop_price t ->
  let out := Scanner._check_trade env st sym t in
  exists row res,
    snd out = Ok tt /\
    Database.get_active_trade (fst (fst out)) sym = None /\
    Database.trade_history (fst (fst out)) = Database.trade_history (fst st) ++ [row] /\
    Database.h_exit_price row = cp /\
    Database.h_exit_reason row = "stop_loss"%string /\
    Database.h_realized_pnl row
    == Database.realized_pnl t
       + Database.remaining_fraction t * Database.position_size_usd t
         * (cp - Database.entry_price t) / Database.entry_price t /\
    snd (fst out)
    = snd st ++ Scanner.notify env (Scanner.send_trade_closed res "STOP LOSS HIT") /\
    Database.r_total_pnl res = Database.h_realized_pnl row.
Proof.
  intros G Hr Hl Hc He Hp Hs out. subst out. unfold Scanner._check_trade.
  rewrite (proj2 (Qle_bool_false _ _) Hr), Hl, (proj2 (Qeq_bool_false _ _) Hc),
    (DatabaseFacts.pydiv_ok _ _ He), (proj2 (Qle_bool_iff _ _) Hs).
  unfold Database.close_trade. rewrite G.
  rewrite !DatabaseFacts.pydiv_ok by assumption. cbn [ebind fst snd].
  eexists. eexists. split; [reflexivity|].
  split; [unfold Database.get_active_trade; simpl; apply lookup_delete_eq|].
  split; [reflexivity|]. split; [reflexivity|]. split; [reflexivity|].
  split; [cbn; reflexivity|]. split; reflexivity.
Qed.

Lemma check_trade_stop_first_witness :
  let env := {| Scanner.alert_handlers := [0%nat]; Scanner.alert_threshold := 50;
                Scanner.now := 7200; Scanner._live_price := fun _ => Some 200 |} in
  let t := {| Database.entry_price := 100; Database.position_size_usd := 1000;
               Database.stop_loss_pct := 7; Database.current_stop_price := 250;
               Database.entry_timestamp := 0;
               Database.tp1_hit := false; Database.tp2_hit := false;
               Database.tp3_hit := false; Database.tp4_hit := false;
               Database.remaining_fraction := 1; Database.realized_pnl := 0;
               Database.last_notified_stop_pct := 0; Database.last_score := 0;
               Database.metadata := None |} in
  let st : Scanner.State := (Database.set_trades Database.empty_db {[ "BTC"%string := t ]}, []) in
  Database.get_active_trade
    (fst (fst (Scanner._check_trade env st "BTC" t))) "BTC" = None.
Proof.
  intros env t st.
  destruct (check_trade_stop_first env st "BTC"%string t 200)
    as (row & res & _ & H & _);
    [vm_compute; reflexivity|reflexivity|reflexivity|discriminate|discriminate
    |discriminate|discriminate|exact H].
Defined.

(** X12.  Past the stop test, one check sets the flag of exactly the
    configured take-profit levels that are not yet flagged and whose
    percentage the gain has reached (level 4, which has no percentage,
    never); the realized pnl grows by a quarter of the position's gain for
    each of them; and however many levels were reached at once, the
    remaining fraction is lowered by one quarter only (not below 0). *)
Theorem check_trade_take_profits
        (env : Scanner.Env) (st : Scanner.State) (sym : string) (t : Database.Trade)
        (cp : Q) :
  Database.get_active_trade (fst st) sym = Some t ->
  0 < Database.remaining_fraction t ->
  Scanner._live_price env sym = Some cp ->
  ~ cp == 0 ->
  ~ Database.entry_price t == 0 ->
  Database.current_stop_price t < cp ->
  let pcp := ScannerTrades.gain_pct t cp in
  let hits := filter (ScannerTrades.newly_hit t pcp) Helpers.TAKE_PROFIT_LEVELS in
  let out := Scanner._check_trade env st sym t in
  snd out = Ok tt /\
  exists t',
    Database.get_active_trade (fst (fst out)) sym = Some t' /\
    (forall tp, In tp Helpers.TAKE_PROFIT_LEVELS ->
                Scanner.tp_flag t' (Helpers.level tp)
                = Scanner.tp_flag t (Helpers.level tp)
                  || ScannerTrades.newly_hit t pcp tp) /\
    Database.tp4_hit t' = Database.tp4_hit t /\
    Database.remaining_fraction t'
    = match hits with
      | [] => Database.remaining_fraction t
      | _ :: _ => Qmax 0 (Database.remaining_fraction t - (25 # 100))
      end /\
    Database.realized_pnl t'
    == Database.realized_pnl t
       + inject_Z (Z.of_nat (length hits))
         * ((25 # 100) * Database.position_size_usd t * (pcp / 100)).
Proof.
  intros G Hr Hl Hc He Hs pcp hits out.
  destruct (TickRowFacts.check_trade_main env st sym t cp G Hr Hl Hc He Hs)
    as (R & t' & G' & M).
  split; [exact R|]. exists t'. split; [exact G'|].
  apply TickRowFacts.after_stages_fields in M. destruct M as (F & Rm & Rp & _).
  destruct (TickRowFacts.take_profit_rows_configured t pcp) as (A & B & C).
  cbn zeta in A, B, C. fold pcp in Rm, Rp, F.
  split; [intros tp Hin; rewrite F; apply A; exact Hin|].
  split.
  - change (Scanner.tp_flag t' 4 = Scanner.tp_flag t 4). rewrite F.
    assert (A4 := A {| Helpers.level := 4; Helpers.pct := None;
                       Helpers.sell_fraction := 25 # 100 |}).
    unfold ScannerTrades.newly_hit in A4. cbn [Helpers.pct Helpers.level] in A4.
    rewrite andb_false_r, orb_false_r in A4. apply A4.
    right. right. right. left. reflexivity.
  - split; [rewrite Rm; exact B|rewrite Rp; exact C].
Qed.

Lemma check_trade_take_profits_witness :
  let env := {| Scanner.alert_handlers := [0%nat]; Scanner.alert_threshold := 50;
                Scanner.now := 7200; Scanner._live_price := fun _ => Some 160 |} in
  let t := {| Database.entry_price := 100; Database.position_size_usd := 1000;
               Database.stop_loss_pct := 7; Database.current_stop_price := 93;
               Database.entry_timestamp := 0;
               Database.tp1_hit := false; Database.tp2_hit := false;
               Database.tp3_hit := false; Database.tp4_hit := false;
               Database.remaining_fraction := 1; Database.realized_pnl := 0;
               Database.last_notified_stop_pct := 0; Database.last_score := 0;
               Database.metadata := None |} in
  let st : Scanner.State := (Database.set_trades Database.empty_db {[ "BTC"%string := t ]}, []) in
  exists t',
    Database.get_active_trade
      (fst (fst (Scanner._check_trade env st "BTC" t))) "BTC" = Some t' /\
    Database.tp3_hit t' = true /\
    Database.remaining_fraction t' = Qmax 0 (1 - (25 # 100)).
Proof.
  intros env t st.
  destruct (check_trade_take_profits env st "BTC"%string t 160)
    as (_ & t' & G' & F & _ & Rm & _);
    [vm_compute; reflexivity|reflexivity|reflexivity|discriminate|discriminate
    |reflexivity|].
  exists t'. split; [exact G'|]. split.
  - apply (F {| Helpers.level := 3; Helpers.pct := Some 50;
                Helpers.sell_fraction := 25 # 100 |}).
    right. right. left. reflexivity.
  - exact Rm.
Defined.

(** X13.  Past the stop test, one check leaves the stop and the last
    notified rung as they are, or moves both to a rung of the trail table
    that the gain has reached and that lies above the last notified one;
    the stop is then entry_price * (1 + stop_at_pct / 100), whatever the
    stop was before.  Afterwards no reached rung lies above the last
    notified one. *)
Theorem check_trade_trails_stop
        (env : Scanner.Env) (st : Scanner.State) (sym : string) (t : Database.Trade)
        (cp : Q) :
  Database.get_active_trade (fst st) sym = Some t ->
  0 < Database.remaining_fraction t ->
  Scanner._live_price env sym = Some cp ->
  ~ cp == 0 ->
  ~ Database.entry_price t == 0 ->
  Database.current_stop_price t < cp ->
  let pcp := ScannerTrades.gain_pct t cp in
  exists t',
    Database.get_active_trade (fst (fst (Scanner._check_trade env st sym t))) sym
    = Some t' /\
    (forall r, In r Helpers.STOP_LOSS_TRAIL -> Helpers.price_move_pct r <= pcp ->
               Helpers.stop_at_pct r <= Database.last_notified_stop_pct t') /\
    ((Database.current_stop_price t' = Database.current_stop_price t /\
      Database.last_notified_stop_pct t' = Database.last_notified_stop_pct t) \/
     exists r, In r Helpers.STOP_LOSS_TRAIL /\ Helpers.price_move_pct r <= pcp /\
               Database.last_notified_stop_pct t < Helpers.stop_at_pct r /\
               Database.last_notified_stop_pct t' = Helpers.stop_at_pct r /\
               Database.current_stop_price t'
               = Database.entry_price t * (1 + Helpers.stop_at_pct r / 100)).
Proof.
  intros G Hr Hl Hc He Hs pcp. subst pcp.
  apply TickRowFacts.check_trade_trail; assumption.
Qed.

Lemma check_trade_trails_stop_witness :
  let env := {| Scanner.alert_handlers := [0%nat]; Scanner.alert_threshold := 50;
                Scanner.now := 7200; Scanner._live_price := fun _ => Some 112 |} in
  let t := {| Database.entry_price := 100; Database.position_size_usd := 1000;
               Database.stop_loss_pct := 7; Database.current_stop_price := 93;
               Database.entry_timestamp := 0;
               Database.tp1_hit := false; Database.tp2_hit := false;
               Database.tp3_hit := false; Database.tp4_hit := false;
               Database.remaining_fraction := 1; Database.realized_pnl := 0;
               Database.last_notified_stop_pct := 0; Database.last_score := 0;
               Database.metadata := None |} in
  let st : Scanner.State := (Database.set_trades Database.empty_db {[ "BTC"%string := t ]}, []) in
  exists t',
    Database.get_active_trade
      (fst (fst (Scanner._check_trade env st "BTC" t))) "BTC" = Some t' /\
    5 <= Database.last_notified_stop_pct t'.
Proof.
  intros env t st.
  destruct (check_trade_trails_stop env st "BTC"%string t 112)
    as (t' & G' & A & _);
    [vm_compute; reflexivity|reflexivity|reflexivity|discriminate|discriminate
    |reflexivity|].
  exists t'. split; [exact G'|].
  apply (A {| Helpers.price_move_pct := 10; Helpers.stop_at_pct := 5 |}).
  - right. left. reflexivity.
  - discriminate.
Defined.

(** X14.  The break-even rung (price up 5%, stop at the entry price) is
    dead for a trade whose last notified rung is not negative, as it is
    after [add_trade]: while the gain is below 10%, a check never moves
    the stop. *)
Theorem stop_unmoved_below_ten_percent
        (env : Scanner.Env) (st : Scanner.State) (sym : string) (t : Database.Trade)
        (cp : Q) :
  Database.get_active_trade (fst st) sym = Some t ->
  0 < Database.remaining_fraction t ->
  Scanner._live_price env sym = Some cp ->
  ~ cp == 0 ->
  ~ Database.entry_price t == 0 ->
  Database.current_stop_price t < cp ->
  0 <= Database.last_notified_stop_pct t ->
  ScannerTrades.gain_pct t cp < 10 ->
  exists t',
    Database.get_active_trade (fst (fst (Scanner._check_trade env st sym t))) sym
    = Some t' /\
    Database.current_stop_price t' = Database.current_stop_price t /\
    Database.last_notified_stop_pct t' = Database.last_notified_stop_pct t.
Proof.
  intros G Hr Hl Hc He Hs Hn Hg.
  destruct (TickRowFacts.check_trade_trail env st sym t cp G Hr Hl Hc He Hs)
    as (t' & G' & _ & [K|(r & Hin & Hm & Hlt & _)]).
  - exists t'. split; [exact G'|exact K].
  - exfalso. unfold Helpers.STOP_LOSS_TRAIL in Hin.
    destruct Hin as [<-|[<-|[<-|[<-|[<-|[<-|[]]]]]]];
      cbn [Helpers.price_move_pct Helpers.stop_at_pct] in Hm, Hlt; lra.
Qed.

Lemma stop_unmoved_below_ten_percent_witness :
  let env := {| Scanner.alert_handlers := [0%nat]; Scanner.alert_threshold := 50;
                Scanner.now := 7200; Scanner._live_price := fun _ => Some 108 |} in
  let t := {| Database.entry_price := 100; Database.position_size_usd := 1000;
               Database.stop_loss_pct := 7; Database.current_stop_price := 93;
               Database.entry_timestamp := 0;
               Database.tp1_hit := false; Database.tp2_hit := false;
               Database.tp3_hit := false; Database.tp4_hit := false;
               Database.remaining_fraction := 1; Database.realized_pnl := 0;
               Database.last_notified_stop_pct := 0; Database.last_score := 0;
               Database.metadata := None |} in
  let st : Scanner.State := (Database.set_trades Database.empty_db {[ "BTC"%string := t ]}, []) in
  exists t',
    Database.get_active_trade
      (fst (fst (Scanner._check_trade env st "BTC" t))) "BTC" = Some t' /\
    Database.current_stop_price t' = 93.
Proof.
  intros env t st.
  destruct (stop_unmoved_below_ten_percent env st "BTC"%string t 108)
    as (t' & G' & S & _);
    [vm_compute; reflexivity|reflexivity|reflexivity|discriminate|discriminate
    |reflexivity|discriminate|reflexivity|].
  exists t'. split; [exact G'|exact S].
Defined.

(** * Manual trade management and the scan round *)

Module ManageFacts.
Import Helpers Database Scorer Scanner ScannerTrades DatabaseFacts TradeTableFacts
       TickRowFacts SortFacts DispatchFacts.

Lemma update_absent (db : DB) (sym : string) (us : list Update) :
  get_active_trade db sym = None ->
  get_active_trade (update_trade db sym us) sym = None.
Proof. intros H. rewrite get_after_update, H. reflexivity. Qed.

Lemma take_profits_absent (env : Env) (sym : string) (ep ps rem cp pcp : Q)
      (tps : list TakeProfitLevel) :
  forall st trade,
    get_active_trade (fst st) sym = None ->
    get_active_trade (fst (fst (take_profits env sym ep ps rem cp pcp tps st trade))) sym
    = None.
Proof.
  induction tps as [|tp tps IH]; intros st trade H; [exact H|].
  cbn [take_profits]. destruct (pct tp); [|apply IH; exact H].
  destruct (tp_flag trade (level tp)); [apply IH; exact H|].
  destruct (Qle_bool _ pcp); [|apply IH; exact H].
  apply IH. cbn [fst]. apply update_absent. exact H.
Qed.

Lemma check_trade_absent (env : Env) (st : State) (sym : string) (t : Trade) :
  get_active_trade (fst st) sym = None ->
  get_active_trade (fst (fst (_check_trade env st sym t))) sym = None.
Proof.
  intros H. unfold _check_trade.
  destruct (Qle_bool (remaining_fraction t) 0).
  { unfold Database.close_trade. rewrite H. exact H. }
  destruct (_live_price env sym) as [cp|]; [|exact H].
  destruct (Qeq_bool cp 0); [exact H|].
  destruct (pydiv _ _) as [q|e]; [|exact H].
  destruct (Qle_bool cp _).
  { unfold Database.close_trade. rewrite H. exact H. }
  pose proof (take_profits_absent env sym (entry_price t) (position_size_usd t)
                (remaining_fraction t) cp (q * 100) TAKE_PROFIT_LEVELS st t H) as H1.
  destruct (take_profits env sym (entry_price t) (position_size_usd t)
              (remaining_fraction t) cp (q * 100) TAKE_PROFIT_LEVELS st t)
    as [st1 trade1].
  cbn [fst] in H1.
  destruct (stop_trail _ _ _ _) as [nsp ssp].
  match goal with
  | |- context [get_latest_score (fst ?s2) sym] => set (st2 := s2)
  end.
  assert (H2 : get_active_trade (fst st2) sym = None).
  { subst st2. destruct (Qlt_bool _ nsp); [|exact H1].
    apply update_absent. exact H1. }
  clearbody st2.
  match goal with
  | |- context [update_trade (fst ?s3) sym [Set_metadata _]] => set (st3 := s3)
  end.
  assert (H3 : get_active_trade (fst st3) sym = None).
  { subst st3. destruct (get_latest_score (fst st2) sym); [|exact H2].
    apply update_absent. exact H2. }
  clearbody st3.
  destruct (Z.ltb _ _ && Z.ltb _ _); cbn [fst]; [apply update_absent|]; exact H3.
Qed.

Lemma kept_refl (st : State) : kept st st.
Proof.
  repeat split; try (exists []; rewrite app_nil_r; reflexivity). tauto.
Qed.

Lemma kept_trans (a b c : State) : kept a b -> kept b c -> kept a c.
Proof.
  intros (A1 & A2 & A3 & (r1 & A4) & (m1 & A5) & A6)
         (B1 & B2 & B3 & (r2 & B4) & (m2 & B5) & B6).
  split; [congruence|]. split; [congruence|]. split; [congruence|].
  split; [exists (r1 ++ r2); rewrite B4, A4, app_assoc; reflexivity|].
  split; [exists (m1 ++ m2); rewrite B5, A5, app_assoc; reflexivity|].
  intros sym H. apply B6, A6, H.
Qed.

Lemma check_trade_kept (env : Env) (st : State) (sym : string) (t : Trade) :
  kept st (fst (_check_trade env st sym t)).
Proof.
  destruct (check_trade_effect env st sym t) as ((O & S1 & S2 & S3 & M) & H).
  cbn zeta in *.
  split; [exact S1|]. split; [exact S2|]. split; [exact S3|].
  split.
  - destruct H as [H|(row & H & _)]; [exists []; rewrite app_nil_r|exists [row]];
      exact H.
  - split; [exact M|]. intros s Hs.
    destruct (String.string_dec s sym) as [->|Hne].
    + apply check_trade_absent. exact Hs.
    + rewrite O by exact Hne. exact Hs.
Qed.

Lemma monitor_fold_kept (env : Env) (trades : list (string * Trade)) :
  forall st,
    kept st (fold_left (fun s '(sym, trade) => fst (_check_trade env s sym trade))
                       trades st).
Proof.
  induction trades as [|[sym t] trades IH]; intros st; [apply kept_refl|].
  cbn [fold_left]. eapply kept_trans; [apply check_trade_kept|apply IH].
Qed.

End ManageFacts.

(** X15.  [adjust_stop] writes the given price to the stop of an active
    trade as it is, without comparing it to the entry price, the live
    price or the stop before, and leaves every other column alone; each
    handler is told once.  For a symbol without a trade nothing happens.
    For a trade with entry price 0 the stop is written and the call then
    raises [ZeroDivisionError] before any handler is told. *)
Theorem adjust_stop_writes_unchecked
        (env : Scanner.Env) (st : Scanner.State) (sym : string) (price : Q) :
  let out := ScannerTrades.adjust_stop env st sym price in
  match Database.get_active_trade (fst st) sym with
  | None => out = (st, Ok tt)
  | Some t =>
      Database.get_active_trade (fst (fst out)) sym
      = Some (Database.apply_update t (Database.Set_current_stop_price price)) /\
      (forall other, other <> sym ->
         Database.get_active_trade (fst (fst out)) other
         = Database.get_active_trade (fst st) other) /\
      (~ Database.entry_price t == 0 ->
       snd out = Ok tt /\
       snd (fst out)
       = snd st ++
         Scanner.notify env
           (Scanner.send_stop_update sym price
              ((price - Database.entry_price t) / Database.entry_price t * 100)
              0 (Database.entry_price t))) /\
      (Database.entry_price t == 0 ->
       snd out = Raise ZeroDivisionError /\ snd (fst out) = snd st)
  end.
Proof.
  intros out. subst out. unfold ScannerTrades.adjust_stop.
  destruct (Database.get_active_trade (fst st) sym) as [t|] eqn:G; [|reflexivity].
  split; [|split; [|split]].
  - destruct (pydiv _ _); cbn [fst];
      rewrite DatabaseFacts.get_after_update, G; reflexivity.
  - intros other Hne.
    destruct (pydiv _ _); cbn [fst];
      apply TradeTableFacts.get_after_update_other; exact Hne.
  - intros He. rewrite (DatabaseFacts.pydiv_ok _ _ He). split; reflexivity.
  - intros He. rewrite (DatabaseFacts.pydiv_zero _ _ He). split; reflexivity.
Qed.

(** X16.  A manual close takes the given exit price, or the live price
    when none is given (an exit price of 0 is a given price); without
    either nothing changes.  For an active trade with non-zero entry
    price and position size the trade is removed, one history row with
    that exit price and reason "manual_close" is written, and each
    handler is told once; for a symbol without a trade nothing changes
    and [None] is returned. *)
Theorem manual_close_outcomes
        (env : Scanner.Env) (st : Scanner.State) (sym : string) (exit_p : option Q) :
  let out := ScannerTrades.close_trade env st sym exit_p in
  let price := match exit_p with
               | Some x => Some x
               | None => Scanner._live_price env sym
               end in
  match price, Database.get_active_trade (fst st) sym with
  | None, _ | _, None => out = (st, Ok None)
  | Some x, Some t =>
      ~ Database.entry_price t == 0 ->
      ~ Database.position_size_usd t == 0 ->
      exists row res,
        snd out = Ok (Some res) /\
        Database.get_active_trade (fst (fst out)) sym = None /\
        Database.trade_history (fst (fst out))
        = Database.trade_history (fst st) ++ [row] /\
        Database.h_exit_price row = x /\
        Database.h_exit_reason row = "manual_close"%string /\
        Database.r_exit_price res = x /\
        Database.r_total_pnl res = Database.h_realized_pnl row /\
        snd (fst out)
        = snd st ++ Scanner.notify env (Scanner.send_trade_closed res "MANUAL CLOSE")
  end.
Proof.
  intros out price. subst out price. unfold ScannerTrades.close_trade.
  destruct (match exit_p with
            | Some x => Some x
            | None => Scanner._live_price env sym
            end) as [x|]; [|reflexivity].
  unfold Database.close_trade.
  destruct (Database.get_active_trade (fst st) sym) as [t|] eqn:G.
  - intros He Hp. rewrite !DatabaseFacts.pydiv_ok by assumption.
    cbn [ebind fst snd]. eexists. eexists.
    split; [reflexivity|].
    split; [unfold Database.get_active_trade; simpl; apply lookup_delete_eq|].
    repeat (split; [reflexivity|]). reflexivity.
  - destruct st; reflexivity.
Qed.

(** X17.  The results of a scan round are exactly the completed scans
    whose composite score reaches the alert threshold (failed and empty
    scans are dropped), in descending order of score; the alerts for them
    are logged before any trade is checked. *)
Theorem run_once_results_sorted
        (env : Scanner.Env) (st : Scanner.State)
        (completed : list (Exc (option Scanner.ScanResult))) :
  let out := Scanner.run_once env st completed in
  (forall r, In r (snd out) <->
             In (Ok (Some r)) completed /\ Scanner.passes (Scanner.alert_threshold env) r) /\
  sorted_by (fun a b => Scorer.composite_score (Scanner.sr_score b)
                        <= Scorer.composite_score (Scanner.sr_score a))
            (snd out) /\
  length (snd out)
  = length (filter (fun f => match f with
                             | Ok (Some r) =>
                                 Qle_bool (Scanner.alert_threshold env)
                                          (Scorer.composite_score (Scanner.sr_score r))
                             | _ => false
                             end) completed) /\
  exists more,
    snd (fst out) = snd st ++ Scanner._send_alerts env (snd out) ++ more.
Proof.
  intros out. subst out. unfold Scanner.run_once. cbn [fst snd].
  split; [|split; [|split]].
  - intros r. rewrite DispatchFacts.In_sort_by. apply DispatchFacts.In_collect.
  - eapply SortFacts.sorted_by_impl;
      [|apply SortFacts.sort_by_sorted; intros a b; apply SortFacts.Qle_bool_total].
    intros a b H. apply Qle_bool_iff. exact H.
  - rewrite SignalFacts.length_sort_by. unfold Scanner.collect_results.
    assert (K : forall l acc,
               length (fold_left
                         (fun results f =>
                            match f with
                            | Ok (Some r) =>
                                if Qle_bool (Scanner.alert_threshold env)
                                            (Scorer.composite_score (Scanner.sr_score r))
                                then results ++ [r] else results
                            | _ => results
                            end) l acc)
               = (length acc
                  + length (filter (fun f => match f with
                                             | Ok (Some r) =>
                                                 Qle_bool (Scanner.alert_threshold env)
                                                   (Scorer.composite_score
                                                      (Scanner.sr_score r))
                                             | _ => false
                                             end) l))%nat).
    { induction l as [|f l IH]; intros acc; cbn [fold_left filter length]; [lia|].
      rewrite IH. destruct f as [[r|]|e]; try lia.
      destruct (Qle_bool _ _); [|lia].
      rewrite length_app. cbn [length]. lia. }
    rewrite K. reflexivity.
  - unfold Scanner._monitor_trades.
    match goal with
    | |- context [fold_left ?f ?l ?s] =>
        destruct (ManageFacts.monitor_fold_kept env l s) as (_ & _ & _ & _ & (more & M) & _)
    end.
    exists more. rewrite M. cbn [snd]. rewrite app_assoc. reflexivity.
Qed.

(** X18.  A pass of the trade monitor never opens a trade and never
    touches the snapshot, signal and score logs: a symbol without an
    active trade before the pass has none after it, the trade history
    and the alert log are only extended. *)
Theorem monitor_trades_only_closes (env : Scanner.Env) (st : Scanner.State) :
  let st' := Scanner._monitor_trades env st in
  (forall sym, Database.get_active_trade (fst st) sym = None ->
               Database.get_active_trade (fst st') sym = None) /\
  Database.snapshots (fst st') = Database.snapshots (fst st) /\
  Database.signal_history (fst st') = Database.signal_history (fst st) /\
  Database.score_history (fst st') = Database.score_history (fst st) /\
  (exists rows, Database.trade_history (fst st')
                = Database.trade_history (fst st) ++ rows) /\
  (exists more, snd st' = snd st ++ more).
Proof.
  intros st'. subst st'. unfold Scanner._monitor_trades.
  match goal with
  | |- context [fold_left ?f ?l ?s] =>
      destruct (ManageFacts.monitor_fold_kept env l s) as (A & B & C & D & E & F)
  end.
  split; [exact F|]. split; [exact A|]. split; [exact B|]. split; [exact C|].
  split; [exact D|exact E].
Qed.

(** * More on the scorer *)

Module ScoreRangeFacts.
Import Helpers Database Scorer HelpersFacts ScoreFacts.

Lemma classify_rank_mono (a b : Q) :
  a <= b -> (rank (classify_score a) <= rank (classify_score b))%nat.
Proof.
  intros H.
  unfold classify_score, CRITICAL_THRESHOLD, HIGH_ALERT_THRESHOLD,
    WATCHLIST_THRESHOLD, MONITOR_THRESHOLD.
  destruct (Qle_bool 78 a) eqn:A1; [|destruct (Qle_bool 62 a) eqn:A2;
    [|destruct (Qle_bool 48 a) eqn:A3; [|destruct (Qle_bool 33 a) eqn:A4]]];
  (destruct (Qle_bool 78 b) eqn:B1; [|destruct (Qle_bool 62 b) eqn:B2;
    [|destruct (Qle_bool 48 b) eqn:B3; [|destruct (Qle_bool 33 b) eqn:B4]]]);
  cbn [rank]; try lia; qbool; exfalso; lra.
Qed.

Lemma clamp_negative (v : Q) : v <= 0 -> clamp v 0 100 == 0.
Proof.
  intros H. unfold clamp. rewrite (Q.min_r 100 v) by lra. apply Q.max_l. exact H.
Qed.

Lemma final_score_range (signals : list (string * Signal)) (p : Q) :
  0 <= final_score signals p /\ final_score signals p <= 100.
Proof.
  unfold final_score.
  destruct (weigh signals SIGNAL_WEIGHTS ([], [], 0)) as [[ss w] b].
  destruct (add_bonuses ss INTERACTION_BONUSES ([], 0)) as [bn bm].
  apply clamp_range. lra.
Qed.

Lemma final_score_penalty (signals : list (string * Signal)) (p p' : Q) :
  p <= p' -> final_score signals p' <= final_score signals p.
Proof.
  intros H. unfold final_score.
  destruct (weigh signals SIGNAL_WEIGHTS ([], [], 0)) as [[ss w] b].
  destruct (add_bonuses ss INTERACTION_BONUSES ([], 0)) as [bn bm].
  unfold EXTENDED_PRICE_THRESHOLD_PCT, EXTENDED_PRICE_PENALTY.
  destruct (Qlt_bool 15 p) eqn:C; destruct (Qlt_bool 15 p') eqn:C'; qbool;
    try lra.
  destruct (Qlt_le_dec (b * (1 + bm)) 0) as [N|N].
  - rewrite !clamp_negative by nra. lra.
  - apply clamp_mono. nra.
Qed.

End ScoreRangeFacts.

(** X19.  Whatever the signals carry (scores below 0 or above 100,
    missing signals), the composite score returned by [score] and the one
    stored lie in [0, 100]; and a larger 7-day price change never gives a
    higher score or a higher classification. *)
Theorem score_in_range_penalty_lowers
        (db : Database.DB) (now : Q) (symbol : string)
        (signals : list (string * Scorer.Signal)) (p : Q) :
  let r := snd (Scorer.score db now symbol signals p) in
  0 <= Scorer.composite_score r /\ Scorer.composite_score r <= 100 /\
  (exists row,
      Database.score_history (fst (Scorer.score db now symbol signals p))
      = Database.score_history db ++ [row] /\
      0 <= Database.sc_composite_score row /\
      Database.sc_composite_score row <= 100) /\
  (forall db' now' p',
      p <= p' ->
      let r' := snd (Scorer.score db' now' symbol signals p') in
      Scorer.composite_score r' <= Scorer.composite_score r /\
      (Scorer.rank (Scorer.classification r')
       <= Scorer.rank (Scorer.classification r))%nat).
Proof.
  intros r. subst r.
  destruct (ScoreFacts.score_fields db now symbol signals p)
    as (E & Ec & row & Hh & _ & Hs & _).
  destruct (ScoreRangeFacts.final_score_range signals p) as [L U].
  rewrite E.
  destruct (HelpersFacts.pyround_range (Scorer.final_score signals p) 1 0 100 L U)
    as [L' U'].
  split; [exact L'|]. split; [exact U'|]. split.
  - exists row. rewrite Hs. split; [exact Hh|]. split; assumption.
  - intros db' now' p' Hp r'. subst r'.
    destruct (ScoreFacts.score_fields db' now' symbol signals p') as (E' & Ec' & _).
    rewrite E', Ec', Ec.
    pose proof (ScoreRangeFacts.final_score_penalty signals p p' Hp) as M.
    split; [apply HelpersFacts.pyround_mono; exact M|].
    apply ScoreRangeFacts.classify_rank_mono. exact M.
Qed.

Module EventRuleFacts.
Import Helpers Database Scorer ScorerEvents HelpersFacts DatabaseFacts.


End EventRuleFacts.



(** * More on the helpers *)

Module TextFacts.
Import HelpersText.

Lemma append_nil (b : string) : String.append EmptyString b = b.
Proof. reflexivity. Qed.

Lemma append_cons (c : Ascii.ascii) (a b : string) :
  String.append (String c a) b = String c (String.append a b).
Proof. reflexivity. Qed.

Lemma append_nil_r (a : string) : String.append a EmptyString = a.
Proof.
  induction a as [|c a IH]; [reflexivity|]. rewrite append_cons, IH. reflexivity.
Qed.

Lemma length_append (a b : string) :
  String.length (String.append a b) = (String.length a + String.length b)%nat.
Proof.
  induction a as [|c a IH]; [reflexivity|].
  rewrite append_cons. simpl. rewrite IH. reflexivity.
Qed.

Lemma append_assoc (a b c : string) :
  String.append (String.append a b) c = String.append a (String.append b c).
Proof.
  induction a as [|x a IH]; [reflexivity|].
  rewrite !append_cons, IH. reflexivity.
Qed.

Lemma substring_skip (a b : string) (n m : nat) :
  String.substring (String.length a + n) m (String.append a b) = String.substring n m b.
Proof.
  induction a as [|c a IH]; [reflexivity|]. rewrite append_cons. simpl. exact IH.
Qed.

Lemma substring_all (s : string) : String.substring 0 (String.length s) s = s.
Proof. induction s as [|c s IH]; simpl; [reflexivity|]. rewrite IH. reflexivity. Qed.

Lemma substring_take (a b : string) :
  String.substring 0 (String.length a) (String.append a b) = a.
Proof.
  induction a as [|c a IH]; [rewrite append_nil; destruct b; reflexivity|].
  rewrite append_cons. simpl. rewrite IH. reflexivity.
Qed.

Lemma substring_split (s : string) :
  forall k, (k <= String.length s)%nat ->
    s = String.append (String.substring 0 k s)
                      (String.substring k (String.length s - k) s).
Proof.
  induction s as [|c s IH]; intros k Hk.
  - destruct k; [reflexivity|simpl in Hk; lia].
  - destruct k as [|k].
    + simpl. rewrite substring_all. reflexivity.
    + simpl in Hk. simpl. rewrite append_cons, <- IH by lia. reflexivity.
Qed.

Lemma append_inj_tail (a : string) :
  forall b x y, String.length x = String.length y ->
                String.append a x = String.append b y -> x = y.
Proof.
  induction a as [|c a IH]; intros [|d b] x y Hl E;
    rewrite ?append_cons, ?append_nil in E.
  - exact E.
  - rewrite E in Hl. simpl in Hl. rewrite length_append in Hl. lia.
  - rewrite <- E in Hl. simpl in Hl. rewrite length_append in Hl. lia.
  - injection E as _ E. apply (IH b); assumption.
Qed.

Lemma endswith_append (a suffix : string) :
  endswith (String.append a suffix) suffix = true.
Proof.
  unfold endswith. rewrite length_append.
  replace (String.length a + String.length suffix - String.length suffix)%nat
    with (String.length a + 0)%nat by lia.
  rewrite substring_skip, substring_all, String.eqb_refl.
  rewrite andb_true_r. apply Nat.leb_le. lia.
Qed.

Lemma endswith_inv (s suffix : string) :
  endswith s suffix = true -> exists pre, s = String.append pre suffix.
Proof.
  unfold endswith. intros H. apply andb_true_iff in H. destruct H as [Le E].
  apply Nat.leb_le in Le. apply String.eqb_eq in E.
  exists (String.substring 0 (String.length s - String.length suffix) s).
  rewrite (substring_split s (String.length s - String.length suffix)) at 1 by lia.
  replace (String.length s - (String.length s - String.length suffix))%nat
    with (String.length suffix) by lia.
  rewrite E. reflexivity.
Qed.

(** A symbol that ends with [t2] does not end with a suffix whose last
    [length t2] characters differ from [t2]. *)
Lemma endswith_other (a t1 t2 pre suffix : string) :
  String.length t2 = String.length suffix ->
  t2 <> suffix ->
  endswith (String.append a (String.append t1 t2)) (String.append pre suffix) = false.
Proof.
  intros Hl Hne.
  destruct (endswith _ _) eqn:E; [|reflexivity].
  apply endswith_inv in E. destruct E as (p & E).
  rewrite <- !append_assoc in E.
  apply append_inj_tail in E; [contradiction|exact Hl].
Qed.

Lemma cut_miss (s suffix : string) :
  endswith s suffix = false -> cut_suffix s suffix = s.
Proof. intros H. unfold cut_suffix. rewrite H. reflexivity. Qed.

Lemma cut_hit (a suffix : string) : cut_suffix (String.append a suffix) suffix = a.
Proof.
  unfold cut_suffix. rewrite endswith_append, length_append.
  replace (String.length a + String.length suffix - String.length suffix)%nat
    with (String.length a) by lia.
  apply substring_take.
Qed.

Lemma cut_prefix (s suffix : string) :
  exists rest, s = String.append (cut_suffix s suffix) rest.
Proof.
  unfold cut_suffix. destruct (endswith s suffix).
  - eexists. apply substring_split. lia.
  - exists EmptyString. rewrite append_nil_r. reflexivity.
Qed.

Lemma cuts_prefix (sufs : list string) :
  forall s, exists rest, s = String.append (fold_left cut_suffix sufs s) rest.
Proof.
  induction sufs as [|x sufs IH]; intros s; cbn [fold_left].
  - exists EmptyString. rewrite append_nil_r. reflexivity.
  - destruct (IH (cut_suffix s x)) as (r1 & E1).
    destruct (cut_prefix s x) as (r2 & E2).
    exists (String.append r1 r2). rewrite <- append_assoc, <- E1. exact E2.
Qed.

Lemma fold_cut_cons (x : string) (l : list string) (s : string) :
  fold_left cut_suffix (x :: l) s = fold_left cut_suffix l (cut_suffix s x).
Proof. reflexivity. Qed.

(** A symbol that ends with a separator is cut by no suffix of the list
    from "/USD:USD" on; before "USDT" ("PERP") a symbol with a separator
    and "USDT" ("PERP") is cut by none. *)

Lemma separator_stays (base sep : string) :
  sep = "-"%string \/ sep = "_"%string ->
  fold_left cut_suffix
            ["/USD:USD"; "/USD"; "-USDT"; "_USDT"; "PERP"; "-PERP"; "_PERP"]%string
            (String.append base sep)
  = String.append base sep.
Proof.
  intros [-> | ->]; cbn [fold_left].
  - rewrite (cut_miss _ "/USD:USD")
      by (apply (endswith_other base "" "-" "/USD:US" "D"); [reflexivity|discriminate]).
    rewrite (cut_miss _ "/USD")
      by (apply (endswith_other base "" "-" "/US" "D"); [reflexivity|discriminate]).
    rewrite (cut_miss _ "-USDT")
      by (apply (endswith_other base "" "-" "-USD" "T"); [reflexivity|discriminate]).
    rewrite (cut_miss _ "_USDT")
      by (apply (endswith_other base "" "-" "_USD" "T"); [reflexivity|discriminate]).
    rewrite (cut_miss _ "PERP")
      by (apply (endswith_other base "" "-" "PER" "P"); [reflexivity|discriminate]).
    rewrite (cut_miss _ "-PERP")
      by (apply (endswith_other base "" "-" "-PER" "P"); [reflexivity|discriminate]).
    rewrite (cut_miss _ "_PERP")
      by (apply (endswith_other base "" "-" "_PER" "P"); [reflexivity|discriminate]).
    reflexivity.
  - rewrite (cut_miss _ "/USD:USD")
      by (apply (endswith_other base "" "_" "/USD:US" "D"); [reflexivity|discriminate]).
    rewrite (cut_miss _ "/USD")
      by (apply (endswith_other base "" "_" "/US" "D"); [reflexivity|discriminate]).
    rewrite (cut_miss _ "-USDT")
      by (apply (endswith_other base "" "_" "-USD" "T"); [reflexivity|discriminate]).
    rewrite (cut_miss _ "_USDT")
      by (apply (endswith_other base "" "_" "_USD" "T"); [reflexivity|discriminate]).
    rewrite (cut_miss _ "PERP")
      by (apply (endswith_other base "" "_" "PER" "P"); [reflexivity|discriminate]).
    rewrite (cut_miss _ "-PERP")
      by (apply (endswith_other base "" "_" "-PER" "P"); [reflexivity|discriminate]).
    rewrite (cut_miss _ "_PERP")
      by (apply (endswith_other base "" "_" "_PER" "P"); [reflexivity|discriminate]).
    reflexivity.
Qed.

Lemma separator_usdt (base sep : string) :
  sep = "-"%string \/ sep = "_"%string ->
  normalize_symbol (String.append base (String.append sep "USDT"))
  = String.append base sep.
Proof.
  intros H. unfold normalize_symbol, SUFFIXES.
  do 3 rewrite fold_cut_cons.
  rewrite (cut_miss _ "/USDT:USDT")
    by (destruct H as [-> | ->];
        [apply (endswith_other base "" "-USDT" "/USDT" ":USDT")
        |apply (endswith_other base "" "_USDT" "/USDT" ":USDT")];
        try reflexivity; discriminate).
  rewrite (cut_miss _ "/USDT")
    by (destruct H as [-> | ->];
        [apply (endswith_other base "" "-USDT" "" "/USDT")
        |apply (endswith_other base "" "_USDT" "" "/USDT")];
        try reflexivity; discriminate).
  rewrite <- append_assoc, cut_hit. apply separator_stays. exact H.
Qed.

Lemma separator_perp (base sep : string) :
  sep = "-"%string \/ sep = "_"%string ->
  normalize_symbol (String.append base (String.append sep "PERP"))
  = String.append base sep.
Proof.
  intros H. unfold normalize_symbol, SUFFIXES.
  do 8 rewrite fold_cut_cons.
  assert (M : forall pre suf,
             String.length suf = 1%nat -> suf <> "P"%string ->
             endswith (String.append base (String.append sep "PERP"))
                      (String.append pre suf) = false).
  { intros pre suf Hl Hne.
    destruct H as [-> | ->];
      [apply (endswith_other base "-PER" "P" pre suf)
      |apply (endswith_other base "_PER" "P" pre suf)];
      try (symmetry; exact Hl); intros E; apply Hne; symmetry; exact E. }
  rewrite (cut_miss _ "/USDT:USDT") by (apply (M "/USDT:USD" "T"); [reflexivity|discriminate]).
  rewrite (cut_miss _ "/USDT") by (apply (M "/USD" "T"); [reflexivity|discriminate]).
  rewrite (cut_miss _ "USDT") by (apply (M "USD" "T"); [reflexivity|discriminate]).
  rewrite (cut_miss _ "/USD:USD") by (apply (M "/USD:US" "D"); [reflexivity|discriminate]).
  rewrite (cut_miss _ "/USD") by (apply (M "/US" "D"); [reflexivity|discriminate]).
  rewrite (cut_miss _ "-USDT") by (apply (M "-USD" "T"); [reflexivity|discriminate]).
  rewrite (cut_miss _ "_USDT") by (apply (M "_USD" "T"); [reflexivity|discriminate]).
  rewrite <- append_assoc, cut_hit. cbn [fold_left].
  destruct H as [-> | ->].
  - rewrite (cut_miss _ "-PERP")
      by (apply (endswith_other base "" "-" "-PER" "P"); [reflexivity|discriminate]).
    rewrite (cut_miss _ "_PERP")
      by (apply (endswith_other base "" "-" "_PER" "P"); [reflexivity|discriminate]).
    reflexivity.
  - rewrite (cut_miss _ "-PERP")
      by (apply (endswith_other base "" "_" "-PER" "P"); [reflexivity|discriminate]).
    rewrite (cut_miss _ "_PERP")
      by (apply (endswith_other base "" "_" "_PER" "P"); [reflexivity|discriminate]).
    reflexivity.
Qed.

End TextFacts.

(** X22.  [normalize_symbol] only ever cuts characters off the end of
    the symbol.  Because "USDT" and "PERP" stand in the suffix list
    before "-USDT", "_USDT", "-PERP" and "_PERP", a symbol written with a
    separator keeps the separator: "X-USDT" gives "X-", "X_PERP" gives
    "X_", whatever X is. *)
Theorem normalize_symbol_keeps_separator (base : string) :
  (exists rest, base = String.append (HelpersText.normalize_symbol base) rest) /\
  HelpersText.normalize_symbol (String.append base "-USDT") = String.append base "-" /\
  HelpersText.normalize_symbol (String.append base "_USDT") = String.append base "_" /\
  HelpersText.normalize_symbol (String.append base "-PERP") = String.append base "-" /\
  HelpersText.normalize_symbol (String.append base "_PERP") = String.append base "_".
Proof.
  split; [apply TextFacts.cuts_prefix|].
  split; [apply (TextFacts.separator_usdt base "-"); left; reflexivity|].
  split; [apply (TextFacts.separator_usdt base "_"); right; reflexivity|].
  split; [apply (TextFacts.separator_perp base "-"); left; reflexivity|].
  apply (TextFacts.separator_perp base "_"); right; reflexivity.
Qed.

Module BarFacts.
Import HelpersText DatabaseFacts.

Lemma py_int_nonpos (x : Q) : x <= 0 -> (py_int x <= 0)%Z.
Proof.
  intros H. unfold py_int. destruct (Qle_bool 0 x) eqn:C.
  - apply Qle_bool_iff in C.
    rewrite <- (Qfloor_Z 0). apply Qfloor_resp_le. exact H.
  - rewrite <- (Qceiling_Z 0). apply Qceiling_resp_le. exact H.
Qed.

Lemma py_int_ge (x : Q) (w : Z) : (0 <= w)%Z -> inject_Z w <= x -> (w <= py_int x)%Z.
Proof.
  intros Hw H. unfold py_int.
  assert (P : 0 <= x).
  { apply Qle_trans with (inject_Z w); [|exact H].
    change 0 with (inject_Z 0). rewrite <- Zle_Qle. exact Hw. }
  apply Qle_bool_iff in P. rewrite P.
  rewrite <- (Qfloor_Z w). apply Qfloor_resp_le. exact H.
Qed.

End BarFacts.

(** X23.  [score_bar] raises [ZeroDivisionError] for [max_val = 0];
    otherwise the bar has exactly [width] cells (none for a negative
    width), the full ones first; with a positive [max_val] it is all
    full once the value reaches [max_val] and all blank for a value of 0
    or less. *)
Theorem score_bar_has_width (value max_val : Q) (width : Z) :
  (max_val == 0 -> HelpersText.score_bar value max_val width = Raise ZeroDivisionError) /\
  (~ max_val == 0 ->
   exists k,
     HelpersText.score_bar value max_val width
     = Ok (repeat HelpersText.Full (Z.to_nat k)
           ++ repeat HelpersText.Blank (Z.to_nat (width - k))) /\
     (0 <= k)%Z /\ (k <= Z.max 0 width)%Z /\
     (Z.to_nat k + Z.to_nat (width - k) = Z.to_nat width)%nat /\
     (0 < max_val -> max_val <= value -> k = Z.max 0 width) /\
     (0 < max_val -> value <= 0 -> k = 0%Z)).
Proof.
  unfold HelpersText.score_bar. split.
  - intros H. rewrite (DatabaseFacts.pydiv_zero _ _ H). reflexivity.
  - intros H. rewrite (DatabaseFacts.pydiv_ok _ _ H). cbn [ebind].
    eexists. split; [reflexivity|].
    split; [lia|]. split; [lia|]. split; [lia|]. split.
    + intros Hm Hv.
      destruct (Z_lt_le_dec width 0) as [N|N]; [lia|].
      assert (G : (width <= py_int (value / max_val * inject_Z width))%Z).
      { apply BarFacts.py_int_ge; [exact N|].
        assert (Q1 : 1 <= value / max_val) by (apply Qle_shift_div_l; lra).
        assert (W : 0 <= inject_Z width)
          by (change 0 with (inject_Z 0); rewrite <- Zle_Qle; exact N).
        nra. }
      lia.
    + intros Hm Hv.
      destruct (Z_lt_le_dec width 0) as [N|N]; [lia|].
      assert (G : (py_int (value / max_val * inject_Z width) <= 0)%Z).
      { apply BarFacts.py_int_nonpos.
        assert (Q1 : value / max_val <= 0).
        { apply Qle_shift_div_r; lra. }
        assert (W : 0 <= inject_Z width)
          by (change 0 with (inject_Z 0); rewrite <- Zle_Qle; exact N).
        nra. }
      lia.
Qed.

(** * More on the levels calculator *)

Module LevelsCalcFacts.
Import Helpers Scorer Levels LevelsCalc HelpersFacts DatabaseFacts LevelsFacts
       ScorerFacts.

Lemma Forall_skipn {A : Type} (P : A -> Prop) (n : nat) (l : list A) :
  Forall P l -> Forall P (skipn n l).
Proof.
  revert l. induction n as [|n IH]; intros l H; [exact H|].
  destruct H as [|x l Hx H]; [constructor|]. cbn. apply IH. exact H.
Qed.

Lemma vwap_nonneg (candles : list Candle) (periods : nat) (w : Q) :
  Forall (fun c => 0 <= c_high c + c_low c + c_close c) candles ->
  _vwap candles periods = Some w -> 0 <= w.
Proof.
  intros Hc. unfold _vwap.
  destruct (Nat.ltb (length candles) 2); [discriminate|].
  set (r := if Nat.leb periods (length candles)
            then (if Nat.eqb periods 0 then candles else last_n periods candles)
            else candles).
  assert (Hr : Forall (fun c => 0 <= c_high c + c_low c + c_close c) r).
  { subst r. destruct (Nat.leb _ _); [|exact Hc].
    destruct (Nat.eqb _ _); [exact Hc|]. apply Forall_skipn. exact Hc. }
  clearbody r.
  destruct (Qlt_bool 0 _) eqn:T; [|discriminate].
  apply Qlt_bool_iff in T. intros E. injection E as <-.
  apply Qle_shift_div_l; [exact T|]. rewrite Qmult_0_l.
  apply Qsum_nonneg. apply Forall_forall. intros x Hx.
  apply in_map_iff in Hx. destruct Hx as (c & <- & Hin).
  apply filter_In in Hin. destruct Hin as [Hin Ht].
  rewrite Forall_forall in Hr. specialize (Hr c Hin).
  unfold traded in Ht. apply andb_true_iff in Ht. destruct Ht as [_ Ht].
  apply Qlt_bool_iff in Ht.
  assert (K : 0 <= (c_high c + c_low c + c_close c) / 3)
    by (apply Qle_shift_div_l; lra).
  nra.
Qed.

Lemma emap_ok {A B : Type} (f : A -> Exc B) (l : list A) :
  (forall x, In x l -> exists y, f x = Ok y) -> exists ys, emap f l = Ok ys.
Proof.
  induction l as [|x l IH]; intros H; [exists []; reflexivity|].
  destruct (H x (or_introl eq_refl)) as [y Ey].
  destruct IH as [ys Eys]; [intros z Hz; apply H; right; exact Hz|].
  exists (y :: ys). cbn [emap]. rewrite Ey. cbn [ebind]. rewrite Eys. reflexivity.
Qed.

Lemma ask_buckets_ok (asks : list (Q * Q)) (price ceil bs : Q) :
  ~ bs == 0 ->
  forall buckets, exists out, ask_buckets asks price ceil bs buckets = Ok out.
Proof.
  intros H. induction asks as [|[ap aa] asks IH]; intros buckets; cbn [ask_buckets].
  - eexists. reflexivity.
  - destruct (Qle_bool ap price || Qlt_bool ceil ap); [apply IH|].
    rewrite pydiv_ok by assumption. cbn [ebind]. apply IH.
Qed.

Lemma wall_of_ok (b : Bucket) : exists w, wall_of b = Ok w.
Proof.
  unfold wall_of. destruct (Qlt_bool 0 (b_v b)) eqn:C.
  - apply Qlt_bool_iff in C. rewrite pydiv_ok by lra. eexists. reflexivity.
  - eexists. reflexivity.
Qed.

Lemma ask_walls_ok (asks : list (Q * Q)) (price depth : Q) :
  0 < price -> exists walls, _ask_walls asks price depth = Ok walls.
Proof.
  intros H. unfold _ask_walls.
  destruct (ask_buckets_ok asks price (price * (1 + depth / 100)) (price * (1 # 100)))
    with (buckets := @nil (Z * Bucket)) as [out ->].
  { intros E. lra. }
  cbn [ebind]. destruct out as [|kb rest]; [eexists; reflexivity|].
  unfold np_mean. rewrite pydiv_ok.
  - cbn [ebind].
    match goal with
    | |- context [emap ?f ?l] => destruct (emap_ok f l) as [ws ->]
    end.
    + intros x _. apply wall_of_ok.
    + cbn [ebind]. eexists. reflexivity.
  - cbn [length map]. intros E.
    unfold Qeq in E. cbn [Qnum Qden inject_Z] in E. lia.
Qed.




Lemma position_size_ok (capital risk sp_pct : Q) :
  exists o, position_size capital risk sp_pct = Ok o /\
            (sp_pct <= 0 -> o = None) /\ (0 < sp_pct -> o <> None).
Proof.
  unfold position_size. destruct (Qlt_bool 0 sp_pct) eqn:C.
  - apply Qlt_bool_iff in C. rewrite pydiv_ok by (qconst; lra). cbn [ebind].
    eexists. split; [reflexivity|]. split; [intros H; lra|discriminate].
  - apply Qlt_bool_false in C. eexists. split; [reflexivity|].
    split; [reflexivity|intros H; lra].
Qed.




Lemma calc_rr_cases (entry : Entry) (stop : StopResult) (tps : list TakeProfit) :
  exists rr, _calc_rr entry stop tps = Ok rr /\
    (e_ideal entry <= 0 \/ st_price stop <= 0 \/ e_ideal entry <= st_price stop ->
     rr = {| rr_ratio := 0; rr_risk_pct := st_pct stop; rr_positions := None |}) /\
    (0 < e_ideal entry -> 0 < st_price stop -> st_price stop < e_ideal entry ->
     rr_risk_pct rr = pyround (st_pct stop) 2 /\
     (exists p1 p2 p3 p4,
         rr_positions rr = Some [p1; p2; p3; p4] /\
         (st_pct stop <= 0 -> p1 = None /\ p2 = None /\ p3 = None /\ p4 = None) /\
         (0 < st_pct stop -> p1 <> None /\ p2 <> None /\ p3 <> None /\ p4 <> None)) /\
     (Forall (fun tp => e_ideal entry <= tp_price tp /\ 0 <= tp_sell_pct tp) tps ->
      0 <= rr_ratio rr)).
Proof.
  unfold _calc_rr.
  destruct (Qle_bool (e_ideal entry) 0 || Qle_bool (st_price stop) 0) eqn:C1.
  { eexists. split; [reflexivity|]. split; [reflexivity|].
    intros H1 H2 _. apply orb_true_iff in C1.
    destruct C1 as [C|C]; apply Qle_bool_iff in C; lra. }
  apply orb_false_iff in C1. destruct C1 as [C1 C2].
  apply Qle_bool_false in C1, C2.
  destruct (Qle_bool (e_ideal entry - st_price stop) 0) eqn:C3.
  { apply Qle_bool_iff in C3. eexists. split; [reflexivity|]. split; [reflexivity|].
    intros _ _ H. lra. }
  apply Qle_bool_false in C3.
  rewrite (proj2 (Qlt_bool_iff _ _) C3), pydiv_ok by lra. cbn [ebind].
  destruct (position_size_ok 10000 (1 # 100) (st_pct stop)) as (p1 & -> & N1 & S1).
  destruct (position_size_ok 10000 (2 # 100) (st_pct stop)) as (p2 & -> & N2 & S2).
  destruct (position_size_ok 25000 (1 # 100) (st_pct stop)) as (p3 & -> & N3 & S3).
  destruct (position_size_ok 25000 (2 # 100) (st_pct stop)) as (p4 & -> & N4 & S4).
  cbn [ebind]. eexists. split; [reflexivity|]. split.
  { intros [H|[H|H]]; lra. }
  intros _ _ _. cbn [rr_risk_pct rr_positions rr_ratio].
  split; [reflexivity|]. split.
  { exists p1, p2, p3, p4. split; [reflexivity|]. split; intros H.
    - repeat split; auto.
    - repeat split; auto. }
  intros Hall.
  apply Qle_trans with (pyround (inject_Z 0) 2);
    [rewrite pyround_Z; apply Qle_refl|].
  apply pyround_mono. change (inject_Z 0) with 0.
  apply Qle_shift_div_l; [exact C3|]. rewrite Qmult_0_l.
  assert (S0 : 0 <= Qsum (map (fun tp => (tp_price tp - e_ideal entry)
                                         * (tp_sell_pct tp / 100)) tps)).
  { apply Qsum_nonneg. apply Forall_forall. intros x Hx.
    apply in_map_iff in Hx. destruct Hx as (tp & <- & Hin).
    rewrite Forall_forall in Hall. destruct (Hall tp Hin) as [H1 H2].
    assert (K : 0 <= tp_sell_pct tp / 100) by (apply Qle_shift_div_l; lra).
    nra. }
  destruct tps as [|t ts]; [exact S0|].
  assert (L : e_ideal entry <= tp_price (List.last (t :: ts) t)).
  { rewrite Forall_forall in Hall.
    destruct (exists_last (l := t :: ts)) as (l' & a & E); [discriminate|].
    rewrite E, last_last. apply Hall. rewrite E. apply in_app_iff.
    right. left. reflexivity. }
  nra.
Qed.



End LevelsCalcFacts.

(** X24.  For a non-negative price and ATR percentage and candles whose
    prices are not negative, the entry zone of [_calc_entry] has
    [low <= ideal]; [ideal <= high] holds for CRITICAL and HIGH_ALERT,
    and for the other classes once the ATR percentage is at least 0.3
    (below that the zone's upper end, 0.2% under the price, can lie
    under the ideal entry). *)
Theorem entry_zone_ordered
        (price atr atr_pct : Q) (candles : list Levels.Candle)
        (ob : Levels.OrderBook) (score : Q) (cl : Helpers.Classification) :
  0 <= price -> 0 <= atr_pct ->
  Forall (fun c => 0 <= Levels.c_high c + Levels.c_low c + Levels.c_close c) candles ->
  let e := LevelsCalc._calc_entry price atr atr_pct candles ob score cl in
  LevelsCalc.e_low e <= LevelsCalc.e_ideal e /\
  (cl = Helpers.CRITICAL \/ cl = Helpers.HIGH_ALERT \/ 3 # 10 <= atr_pct ->
   LevelsCalc.e_ideal e <= LevelsCalc.e_high e).
Proof.
  intros Hp Ha Hc e. subst e. unfold LevelsCalc._calc_entry.
  assert (Bid : Helpers.pyround (price * (1 - atr_pct / 200)) 8
                <= Helpers.pyround (price * (1 - atr_pct / 400)) 8 /\
                Helpers.pyround (price * (1 - atr_pct / 400)) 8
                <= Helpers.pyround (price * (1002 # 1000)) 8).
  { split; apply HelpersFacts.pyround_mono; qconst; nra. }
  assert (Sup : Helpers.pyround (price * (1 - atr_pct / 100)) 8
                <= Helpers.pyround (price * (1 - atr_pct / 150)) 8 /\
                (3 # 10 <= atr_pct ->
                 Helpers.pyround (price * (1 - atr_pct / 150)) 8
                 <= Helpers.pyround (price * (998 # 1000)) 8)).
  { split; [|intros H3]; apply HelpersFacts.pyround_mono; qconst; nra. }
  destruct cl; cbn [LevelsCalc.e_low LevelsCalc.e_ideal LevelsCalc.e_high].
  - split; [apply Sup|]. intros [H|[H|H]]; try discriminate. apply Sup. exact H.
  - split; [apply Sup|]. intros [H|[H|H]]; try discriminate. apply Sup. exact H.
  - split; [apply Sup|]. intros [H|[H|H]]; try discriminate. apply Sup. exact H.
  - destruct (match candles with [] => None | _ :: _ => LevelsCalc._vwap candles 12 end)
      as [w|] eqn:V.
    + assert (Hw : 0 <= w).
      { destruct candles; [discriminate|].
        apply (LevelsCalcFacts.vwap_nonneg _ 12 w Hc V). }
      destruct (truthy (Some w) && Qlt_bool w price) eqn:C;
        cbn [LevelsCalc.e_low LevelsCalc.e_ideal LevelsCalc.e_high].
      * apply andb_true_iff in C. destruct C as [_ C]. apply Qlt_bool_iff in C.
        split; [|intros _]; apply HelpersFacts.pyround_mono; lra.
      * split; [apply Bid|intros _; apply Bid].
    + cbn [LevelsCalc.e_low LevelsCalc.e_ideal LevelsCalc.e_high].
      split; [apply Bid|intros _; apply Bid].
  - split; [|intros _]; apply HelpersFacts.pyround_mono; lra.
Qed.

Lemma entry_zone_ordered_witness :
  let e := LevelsCalc._calc_entry 100 2 2 []
             {| Levels.bids := []; Levels.asks := [] |} 50 Helpers.WATCHLIST in
  LevelsCalc.e_low e <= LevelsCalc.e_ideal e /\
  LevelsCalc.e_ideal e <= LevelsCalc.e_high e.
Proof.
  intros e.
  destruct (entry_zone_ordered 100 2 2 [] {| Levels.bids := []; Levels.asks := [] |}
              50 Helpers.WATCHLIST) as [L H];
    [discriminate|discriminate|constructor|].
  split; [exact L|]. apply H. right. right. discriminate.
Defined.



(** X26.  [_calc_rr] never raises.  It answers ratio 0, the stop
    percentage unrounded and no position sizes when the ideal entry or
    the stop price is not positive or the stop does not lie below the
    ideal entry.  Otherwise it answers the stop percentage rounded to two
    decimals and four position sizes, which are "N/A" exactly when the
    stop percentage is not positive; and the ratio is not negative when
    no take profit lies below the ideal entry. *)
Theorem calc_rr_never_raises
        (entry : LevelsCalc.Entry) (stop : Levels.StopResult)
        (tps : list LevelsCalc.TakeProfit) :
  exists rr,
    LevelsCalc._calc_rr entry stop tps = Ok rr /\
    (LevelsCalc.e_ideal entry <= 0 \/ Levels.st_price stop <= 0 \/
     LevelsCalc.e_ideal entry <= Levels.st_price stop ->
     rr = {| LevelsCalc.rr_ratio := 0;
             LevelsCalc.rr_risk_pct := Levels.st_pct stop;
             LevelsCalc.rr_positions := None |}) /\
    (0 < LevelsCalc.e_ideal entry -> 0 < Levels.st_price stop ->
     Levels.st_price stop < LevelsCalc.e_ideal entry ->
     LevelsCalc.rr_risk_pct rr = Helpers.pyround (Levels.st_pct stop) 2 /\
     (exists p1 p2 p3 p4,
         LevelsCalc.rr_positions rr = Some [p1; p2; p3; p4] /\
         (Levels.st_pct stop <= 0 ->
          p1 = None /\ p2 = None /\ p3 = None /\ p4 = None) /\
         (0 < Levels.st_pct stop ->
          p1 <> None /\ p2 <> None /\ p3 <> None /\ p4 <> None)) /\
     (Forall (fun tp => LevelsCalc.e_ideal entry <= LevelsCalc.tp_price tp /\
                        0 <= LevelsCalc.tp_sell_pct tp) tps ->
      0 <= LevelsCalc.rr_ratio rr)).
Proof. apply LevelsCalcFacts.calc_rr_cases. Qed.



Module BookFacts.
Import Helpers Scorer Levels LevelsCalc HelpersFacts DatabaseFacts LevelsCalcFacts
       SortFacts DispatchFacts.

(** The test of [_get_candles]. *)
Lemma get_candles_fold (l : list (string * list Candle)) :
  forall (seen : list (string * list Candle)) (best : list Candle),
    (forall ec, In ec seen -> (length (snd ec) <= length best)%nat) ->
    (best = [] \/
     exists pre e post, seen = pre ++ (e, best) :: post /\
                        forall ec, In ec pre -> (length (snd ec) < length best)%nat) ->
    let out := fold_left
                 (fun best exc =>
                    let c := snd exc in
                    if match c with [] => false | _ :: _ => true end
                       && Nat.ltb (length best) (length c)
                    then c else best) l best in
    (forall ec, In ec (seen ++ l) -> (length (snd ec) <= length out)%nat) /\
    (out = [] \/
     exists pre e post, seen ++ l = pre ++ (e, out) :: post /\
                        forall ec, In ec pre -> (length (snd ec) < length out)%nat).
Proof.
  induction l as [|[e c] l IH]; intros seen best H1 H2.
  - cbn [fold_left]. rewrite app_nil_r. split; assumption.
  - cbn [fold_left snd].
    replace (seen ++ (e, c) :: l) with ((seen ++ [(e, c)]) ++ l)
      by (rewrite <- app_assoc; reflexivity).
    destruct (match c with [] => false | _ :: _ => true end
              && Nat.ltb (length best) (length c)) eqn:T.
    + apply andb_true_iff in T. destruct T as [_ T]. apply Nat.ltb_lt in T.
      apply IH.
      * intros ec Hin. apply in_app_iff in Hin. destruct Hin as [Hin|[<-|[]]].
        -- specialize (H1 ec Hin). lia.
        -- cbn [snd]. lia.
      * right. exists seen, e, []. split; [reflexivity|].
        intros ec Hin. specialize (H1 ec Hin). lia.
    + assert (Hc : (length c <= length best)%nat).
      { apply andb_false_iff in T. destruct T as [T|T].
        - destruct c; [cbn; lia|discriminate].
        - apply Nat.ltb_ge in T. exact T. }
      apply IH.
      * intros ec Hin. apply in_app_iff in Hin. destruct Hin as [Hin|[<-|[]]].
        -- apply H1. exact Hin.
        -- exact Hc.
      * destruct H2 as [H2|(pre & e' & post & E & Hpre)]; [left; exact H2|].
        right. exists pre, e', (post ++ [(e, c)]). split; [|exact Hpre].
        rewrite E, <- app_assoc. reflexivity.
Qed.

Lemma bucket_add_inside (price ceil ap v : Q) (k : Z) (buckets : list (Z * Bucket)) :
  0 < v -> price < ap -> ap <= ceil ->
  Forall (fun kb => inside price ceil (snd kb)) buckets ->
  Forall (fun kb => inside price ceil (snd kb)) (bucket_add k (ap * v) v buckets).
Proof.
  intros Hv H1 H2. induction 1 as [|[k' b] rest Hb Hrest IH]; cbn [bucket_add].
  - constructor; [|constructor]. unfold inside. cbn. repeat split; nra.
  - destruct (Z.eqb k k').
    + constructor; [|exact Hrest]. destruct Hb as (B1 & B2 & B3).
      unfold inside. cbn in *. repeat split; nra.
    + constructor; [exact Hb|exact IH].
Qed.

Lemma ask_buckets_inside (asks : list (Q * Q)) (price ceil bs : Q) :
  0 < price ->
  Forall (fun a => 0 < snd a) asks ->
  forall buckets out,
    Forall (fun kb => inside price ceil (snd kb)) buckets ->
    ask_buckets asks price ceil bs buckets = Ok out ->
    Forall (fun kb => inside price ceil (snd kb)) out.
Proof.
  intros Hp. induction 1 as [|[ap aa] asks Ha Hasks IH]; intros buckets out Hb E;
    cbn [ask_buckets] in E.
  - injection E as <-. exact Hb.
  - destruct (Qle_bool ap price || Qlt_bool ceil ap) eqn:C; [apply (IH _ _ Hb E)|].
    apply orb_false_iff in C. destruct C as [C1 C2].
    apply Qle_bool_false in C1. apply Qlt_bool_false in C2.
    destruct (pydiv ap bs) as [q|err]; [|discriminate]. cbn [ebind] in E.
    apply (IH _ _ (bucket_add_inside price ceil ap (ap * aa) _ buckets
                     ltac:(cbn [snd] in Ha; nra) C1 C2 Hb) E).
Qed.

Lemma emap_In {A B : Type} (f : A -> Exc B) (l : list A) :
  forall ys, emap f l = Ok ys ->
             forall y, In y ys -> exists x, In x l /\ f x = Ok y.
Proof.
  induction l as [|x l IH]; intros ys E y Hy; cbn [emap] in E.
  - injection E as <-. contradiction.
  - destruct (f x) as [z|e] eqn:Fx; [|discriminate]. cbn [ebind] in E.
    destruct (emap f l) as [zs|e]; [|discriminate]. cbn [ebind] in E.
    injection E as <-. destruct Hy as [<-|Hy].
    + exists x. split; [left; reflexivity|exact Fx].
    + destruct (IH zs eq_refl y Hy) as (x' & Hin & Fx').
      exists x'. split; [right; exact Hin|exact Fx'].
Qed.

Lemma ask_walls_inside (asks : list (Q * Q)) (price depth : Q) :
  0 < price ->
  Forall (fun a => 0 < snd a) asks ->
  exists walls,
    _ask_walls asks price depth = Ok walls /\
    (length walls <= 5)%nat /\
    sorted_by (fun a b => fst a <= fst b) walls /\
    forall w, In w walls ->
              price < fst w /\ fst w <= price * (1 + depth / 100) /\ 0 < snd w.
Proof.
  intros Hp Ha.
  destruct (ask_walls_ok asks price depth Hp) as [walls E].
  exists walls. split; [exact E|].
  unfold _ask_walls in E.
  destruct (ask_buckets asks price (price * (1 + depth / 100)) (price * (1 # 100)) [])
    as [buckets|err] eqn:B; [|discriminate].
  cbn [ebind] in E.
  pose proof (ask_buckets_inside asks price _ _ Hp Ha [] buckets (Forall_nil _) B) as J.
  destruct buckets as [|kb rest]; [injection E as <-; cbn; repeat split; try lia;
                                   intros w []|].
  destruct (np_mean _) as [mean|err]; [|discriminate]. cbn [ebind] in E.
  destruct (emap _ _) as [ws|err] eqn:M; [|discriminate]. cbn [ebind] in E.
  injection E as <-.
  split; [rewrite length_firstn; apply Nat.le_min_l|]. split.
  - apply sorted_by_firstn.
    eapply sorted_by_impl;
      [|apply sort_by_sorted; intros a b; apply Qle_bool_total].
    intros a b H. apply Qle_bool_iff. exact H.
  - intros w Hw. apply In_firstn_In in Hw. apply In_sort_by in Hw.
    destruct (emap_In _ _ ws M w Hw) as (kb' & Hin & F).
    apply filter_In in Hin. destruct Hin as [Hin _].
    rewrite Forall_forall in J. destruct (J kb' Hin) as (J1 & J2 & J3).
    unfold wall_of in F. rewrite (proj2 (Qlt_bool_iff _ _) J1) in F.
    rewrite pydiv_ok in F by lra. cbn [ebind] in F. injection F as <-.
    cbn [fst snd]. split; [apply Qlt_shift_div_l; lra|].
    split; [apply Qle_shift_div_r; lra|exact J1].
Qed.

End BookFacts.

(** X28.  [_merge_ob] keeps every level of every exchange's book (none
    is dropped or merged) and returns the bids in descending and the asks
    in ascending order of price. *)
Theorem merge_ob_sorted (data : Signals.DataBundle) :
  let ob := LevelsCalc._merge_ob data in
  sorted_by (fun a b => fst b <= fst a) (Levels.bids ob) /\
  sorted_by (fun a b => fst a <= fst b) (Levels.asks ob) /\
  (forall x, In x (Levels.bids ob) <->
             exists eob, In eob (Signals.orderbooks data) /\
                         In x (Levels.bids (snd eob))) /\
  (forall x, In x (Levels.asks ob) <->
             exists eob, In eob (Signals.orderbooks data) /\
                         In x (Levels.asks (snd eob))) /\
  length (Levels.bids ob)
  = length (flat_map (fun eob => Levels.bids (snd eob)) (Signals.orderbooks data)) /\
  length (Levels.asks ob)
  = length (flat_map (fun eob => Levels.asks (snd eob)) (Signals.orderbooks data)).
Proof.
  intros ob. subst ob. unfold LevelsCalc._merge_ob. cbn [Levels.bids Levels.asks].
  split; [|split; [|split; [|split; [|split]]]].
  - eapply SortFacts.sorted_by_impl;
      [|apply SortFacts.sort_by_sorted; intros a b; apply SortFacts.Qle_bool_total].
    intros a b H. apply Qle_bool_iff. exact H.
  - eapply SortFacts.sorted_by_impl;
      [|apply SortFacts.sort_by_sorted; intros a b; apply SortFacts.Qle_bool_total].
    intros a b H. apply Qle_bool_iff. exact H.
  - intros x. rewrite DispatchFacts.In_sort_by. apply in_flat_map.
  - intros x. rewrite DispatchFacts.In_sort_by. apply in_flat_map.
  - apply SignalFacts.length_sort_by.
  - apply SignalFacts.length_sort_by.
Qed.

(** X29.  [_get_candles] returns a longest of the exchanges' candle
    lists, and of several longest ones the first: no list is longer than
    the result, and the result is empty or is the list of an exchange
    before which every list is strictly shorter. *)
Theorem get_candles_longest_first (data : Signals.DataBundle) :
  let best := LevelsCalc._get_candles data in
  (forall ec, In ec (Signals.ohlcv data) -> (length (snd ec) <= length best)%nat) /\
  (best = [] \/
   exists pre e post,
     Signals.ohlcv data = pre ++ (e, best) :: post /\
     forall ec, In ec pre -> (length (snd ec) < length best)%nat).
Proof.
  intros best. subst best. unfold LevelsCalc._get_candles.
  apply (BookFacts.get_candles_fold (Signals.ohlcv data) [] []).
  - intros ec [].
  - left. reflexivity.
Qed.

(** X30.  For a positive price and asks with positive amounts,
    [_ask_walls] returns at most five walls in ascending order of price,
    each with a positive value and a price above the current price and
    not above the ceiling [price * (1 + depth_pct / 100)]. *)
Theorem ask_walls_above_price (asks : list (Q * Q)) (price depth_pct : Q) :
  0 < price ->
  Forall (fun a => 0 < snd a) asks ->
  exists walls,
    LevelsCalc._ask_walls asks price depth_pct = Ok walls /\
    (length walls <= 5)%nat /\
    sorted_by (fun a b => fst a <= fst b) walls /\
    forall w, In w walls ->
              price < fst w /\ fst w <= price * (1 + depth_pct / 100) /\ 0 < snd w.
Proof. apply BookFacts.ask_walls_inside. Qed.

Lemma ask_walls_above_price_witness :
  exists walls,
    LevelsCalc._ask_walls [(105, 2); (106, 1); (130, 1)] 100 60 = Ok walls /\
    (length walls <= 5)%nat.
Proof.
  destruct (ask_walls_above_price [(105, 2); (106, 1); (130, 1)] 100 60)
    as (walls & E & L & _);
    [reflexivity|repeat (apply Forall_cons; [reflexivity|]); apply Forall_nil|].
  exists walls. split; [exact E|exact L].
Defined.
